(** * threadx: BufferStruct, type-id codec, SharedObject mutation cycle,
    router unique ids.

    Shallow embedding of the TypeScript sources:
    - [buffer-struct-utils] (src/unnamed/part_003): genTypeId,
      isValidTypeId, stringifyTypeId;
    - [BufferStruct] (src/unnamed/part_004): structProp layout, property
      getters/setters, dirty/undefined masks, constructor, lock/lockAsync;
    - [SharedObject._executeMutations] (src/src/SharedObject.ts);
    - [ThreadX] unique id generator (src/unnamed/part_003).

    JS numbers that are used as integers are [Z]; the shared buffer is a
    byte-addressed store read and written through little-endian typed
    views; a JS double is represented by its IEEE-754 binary64 bit
    pattern, which is what a [Float64Array] slot holds. *)

From Stdlib Require Import ZArith Lia String List Bool.
From stdpp Require Import base list.
Import ListNotations.
Open Scope Z_scope.

(* ------------------------------------------------------------------ *)
(** ** Errors and the result monad *)

(** The exceptions the modelled code raises.  [EIllTyped] marks a value of
    the wrong runtime type for a property: excluded by the TypeScript
    signatures, so no behaviour of the code is claimed for it. *)
Inductive jserror :=
| ETypeIdEmpty          (* genTypeId: at least 1 character *)
| ETypeIdTooLong        (* genTypeId: 4 characters or less *)
| ETypeIdInvalidChar    (* genTypeId: A-Z and 0-9 only *)
| EInvalidStaticTypeId  (* initStatic: typeId must be valid *)
| ETypeIdMismatch       (* constructor over an existing buffer *)
| ERangeError           (* typed array view / Atomics index errors *)
| ETextTooLong          (* string getter: length > MAX_STRING_SIZE *)
| EIllTyped
| EUser (n : Z).        (* an exception thrown by a user callback *)

Inductive res (A : Type) :=
| Ok (a : A)
| Err (e : jserror).
Arguments Ok {A} a.
Arguments Err {A} e.

Definition bind {A B} (m : res A) (k : A -> res B) : res B :=
  match m with Ok a => k a | Err e => Err e end.

Notation "'let*' x ':=' m 'in' k" := (bind m (fun x => k))
  (at level 200, x name, m at level 100, k at level 200).
Notation "'let*' ' p ':=' m 'in' k" :=
  (bind m (fun x => match x with p => k end))
  (at level 200, p pattern, m at level 100, k at level 200).

(* ------------------------------------------------------------------ *)
(** ** JS integer conversions *)

(** ToInt32: wrap modulo 2^32 into the signed range. *)
Definition toInt32 (x : Z) : Z :=
  let u := x mod 2 ^ 32 in if u <? 2 ^ 31 then u else u - 2 ^ 32.

(** ToUint32. *)
Definition toUint32 (x : Z) : Z := x mod 2 ^ 32.

(** [a | b], [a & b], [~a], [a << b], [a >>> b] on integral numbers. *)
Definition js_or (a b : Z) : Z := toInt32 (Z.lor (toInt32 a) (toInt32 b)).
Definition js_and (a b : Z) : Z := toInt32 (Z.land (toInt32 a) (toInt32 b)).
Definition js_not (a : Z) : Z := toInt32 (Z.lnot (toInt32 a)).
Definition js_shl (a b : Z) : Z := toInt32 (Z.shiftl (toInt32 a) (b mod 32)).
Definition js_ushr (a b : Z) : Z := Z.shiftr (toUint32 a) (b mod 32).

(* ------------------------------------------------------------------ *)
(** ** The shared buffer and its typed views *)

(** A [SharedArrayBuffer]: its byte length and its bytes (a byte is read
    modulo 256). *)
Record buffer := mkBuffer {
  byteLength : Z;
  byte_at : Z -> Z
}.

(** [new SharedArrayBuffer(n)]: zero filled. *)
Definition newBuffer (n : Z) : buffer := mkBuffer n (fun _ => 0).

(** Little-endian value of the [n] bytes starting at [pos]. *)
Fixpoint load_le (b : buffer) (pos : Z) (n : nat) : Z :=
  match n with
  | O => 0
  | S n' => byte_at b pos mod 256 + 256 * load_le b (pos + 1) n'
  end.

(** Write the [n] low bytes of [v] at [pos], little-endian. *)
Definition store_le (b : buffer) (pos : Z) (n : nat) (v : Z) : buffer :=
  mkBuffer (byteLength b)
    (fun j => if (pos <=? j) && (j <? pos + Z.of_nat n)
              then (v / 2 ^ (8 * (j - pos))) mod 256
              else byte_at b j).

(** Element [i] of a typed view of element width [w] bytes is in range iff
    [0 <= i] and [(i+1)*w <= byteLength]. *)
Definition in_view (b : buffer) (w : Z) (i : Z) : bool :=
  (0 <=? i) && ((i + 1) * w <=? byteLength b).

(** [Uint16Array] element read (undefined out of range). *)
Definition u16_get (b : buffer) (i : Z) : option Z :=
  if in_view b 2 i then Some (load_le b (2 * i) 2) else None.
(** [Uint16Array] element write (ignored out of range). *)
Definition u16_set (b : buffer) (i v : Z) : buffer :=
  if in_view b 2 i then store_le b (2 * i) 2 v else b.

(** [Int32Array] element read: signed. *)
Definition i32_get (b : buffer) (i : Z) : option Z :=
  if in_view b 4 i then Some (toInt32 (load_le b (4 * i) 4)) else None.
Definition i32_set (b : buffer) (i v : Z) : buffer :=
  if in_view b 4 i then store_le b (4 * i) 4 v else b.

(** [Float64Array] element read and write: the binary64 bit pattern. *)
Definition f64_get (b : buffer) (i : Z) : option Z :=
  if in_view b 8 i then Some (load_le b (8 * i) 8) else None.
Definition f64_set (b : buffer) (i bits : Z) : buffer :=
  if in_view b 8 i then store_le b (8 * i) 8 bits else b.

(** [Atomics.load/store] on the [Int32Array]: a RangeError out of range. *)
Definition atomic_load (b : buffer) (i : Z) : res Z :=
  match i32_get b i with Some v => Ok v | None => Err ERangeError end.
Definition atomic_store (b : buffer) (i v : Z) : res buffer :=
  if in_view b 4 i then Ok (store_le b (4 * i) 4 v) else Err ERangeError.

(* ------------------------------------------------------------------ *)
(** ** JS values *)

(** A JS string as its UTF-16 code units. *)
Definition jsstring := list Z.

(** Fields of a binary64 bit pattern. *)
Definition f64_exp (bits : Z) : Z := (bits / 2 ^ 52) mod 2 ^ 11.
Definition f64_frac (bits : Z) : Z := bits mod 2 ^ 52.
Definition f64_isNaN (bits : Z) : bool :=
  (f64_exp bits =? 2047) && negb (f64_frac bits =? 0).
Definition f64_isZero (bits : Z) : bool := bits mod 2 ^ 63 =? 0.

(** [===] on doubles: NaN equals nothing, [+0 === -0]. *)
Definition f64_eqb (a b : Z) : bool :=
  negb (f64_isNaN a) && negb (f64_isNaN b) &&
  ((a =? b) || (f64_isZero a && f64_isZero b)).

(** The double holding the integer [n] (exact for [|n| < 2^53]). *)
Definition int_to_f64bits (n : Z) : Z :=
  if n =? 0 then 0 else
  let s := if n <? 0 then 1 else 0 in
  let a := Z.abs n in
  let k := Z.log2 a in
  s * 2 ^ 63 + (1023 + k) * 2 ^ 52 + (a - 2 ^ k) * 2 ^ (52 - k).

(** ToInt32 of a double given by its bits (NaN and infinities give 0). *)
Definition f64_toInt32 (bits : Z) : Z :=
  let e := f64_exp bits in
  let s := (bits / 2 ^ 63) mod 2 in
  if e =? 2047 then 0 else
  let mag :=
    if e =? 0 then 0 else
    let m := 2 ^ 52 + f64_frac bits in
    if 1075 <=? e then m * 2 ^ (e - 1075) else m / 2 ^ (1075 - e) in
  toInt32 (if s =? 1 then - mag else mag).

(** The values a struct property is read as or written with. *)
Inductive jsval :=
| JUndef
| JNum (bits : Z)
| JBool (b : bool)
| JStr (s : jsstring).

(** [a === b]. *)
Definition jsStrictEq (a b : jsval) : bool :=
  match a, b with
  | JUndef, JUndef => true
  | JNum x, JNum y => f64_eqb x y
  | JBool x, JBool y => Bool.eqb x y
  | JStr x, JStr y => bool_decide (x = y)
  | _, _ => false
  end.

(* ------------------------------------------------------------------ *)
(** ** Type-id codec (buffer-struct-utils) *)

Definition isValidTypeIdCharCode (charCode : Z) : bool :=
  ((65 <=? charCode) && (charCode <=? 90)) ||
  ((48 <=? charCode) && (charCode <=? 57)).

(** The loop of [genTypeId]: [typeId |= charCode << (i * 8)].  The
    [charCode !== charCode] (NaN) branch is dead: [charCodeAt(i)] with
    [i < length] is a code unit. *)
Fixpoint genTypeId_loop (cs : jsstring) (i typeId : Z) : res Z :=
  match cs with
  | [] => Ok typeId
  | charCode :: cs' =>
      if isValidTypeIdCharCode charCode
      then genTypeId_loop cs' (i + 1) (js_or typeId (js_shl charCode (i * 8)))
      else Err ETypeIdInvalidChar
  end.

Definition genTypeId (tidString : jsstring) : res Z :=
  if (length tidString =? 0)%nat then Err ETypeIdEmpty
  else if (4 <? length tidString)%nat then Err ETypeIdTooLong
  else genTypeId_loop tidString 0 0.

(** The loop of [isValidTypeId]; [k] iterations remain, [i] is the index. *)
Fixpoint isValidTypeId_loop (k : nat) (i typeId : Z) : bool :=
  match k with
  | O => true
  | S k' =>
      let charCode := js_and typeId 255 in
      if negb (isValidTypeIdCharCode charCode) &&
         (negb (charCode =? 0) || (i =? 0))
      then false
      else isValidTypeId_loop k' (i + 1) (js_ushr typeId 8)
  end.

Definition isValidTypeId (typeId : Z) : bool := isValidTypeId_loop 4 0 typeId.

(** The loop of [stringifyTypeId]: [None] is the early [return '????']. *)
Fixpoint stringifyTypeId_loop (k : nat) (i typeId : Z) : option jsstring :=
  match k with
  | O => Some []
  | S k' =>
      let charCode := js_and typeId 255 in
      if isValidTypeIdCharCode charCode then
        option_map (cons charCode)
          (stringifyTypeId_loop k' (i + 1) (js_ushr typeId 8))
      else if negb (charCode =? 0) || (i =? 0) then None
      else stringifyTypeId_loop k' (i + 1) (js_ushr typeId 8)
  end.

(** ["????"]. *)
Definition unknownTypeIdStr : jsstring := [63; 63; 63; 63].

Definition stringifyTypeId (typeId : Z) : jsstring :=
  match stringifyTypeId_loop 4 0 typeId with
  | Some chars => chars
  | None => unknownTypeIdStr
  end.

(* ------------------------------------------------------------------ *)
(** ** BufferStruct: property schema (structProp) *)

Inductive StructPropType := PString | PNumber | PBoolean | PInt32.

Definition MAX_STRING_SIZE : Z := 255.

Definition TYPEID_INT32_INDEX : Z := 0.
Definition NOTIFY_INT32_INDEX : Z := 1.
Definition LOCK_INT32_INDEX : Z := 2.
Definition DIRTY_INT32_INDEX : Z := 6.
Definition UNDEFINED_INT32_INDEX : Z := 8.
Definition ID_FLOAT64_INDEX : Z := 2.

Record PropDef := mkPropDef {
  propNum : Z;
  name : string;
  type : StructPropType;
  byteOffset : Z;
  offset : Z;
  byteSize : Z;
  allowUndefined : bool
}.

(** The static side of a BufferStruct class: [typeId], [typeIdStr],
    [size], [propDefs], [staticInitialized] (as an own property). *)
Record StructClass := mkStructClass {
  cls_typeId : Z;
  cls_typeIdStr : jsstring;
  cls_size : Z;
  cls_propDefs : list PropDef;
  cls_staticInitialized : bool
}.

(** [BufferStruct] itself: [size = 10 * 4] (the header), no properties. *)
Definition BufferStructBase : StructClass :=
  mkStructClass 0 [] (10 * 4) [] false.

(** [class X extends Parent { static override typeId = tid }]: the statics
    are inherited, [staticInitialized] is not an own property yet. *)
Definition subclass (tid : Z) (parent : StructClass) : StructClass :=
  mkStructClass tid (cls_typeIdStr parent) (cls_size parent)
    (cls_propDefs parent) false.

(** [static initStatic()]. *)
Definition initStatic (cls : StructClass) : res StructClass :=
  let typeIdStr := stringifyTypeId (cls_typeId cls) in
  if bool_decide (typeIdStr = unknownTypeIdStr) then Err EInvalidStaticTypeId
  else Ok (mkStructClass (cls_typeId cls) typeIdStr (cls_size cls)
             (cls_propDefs cls) true).

(** The "make sure the static initializer has been called" prologue. *)
Definition ensureStatic (cls : StructClass) : res StructClass :=
  if cls_staticInitialized cls then Ok cls else initStatic cls.

(** The layout part of [structProp(type, options)] applied to property
    [key]: aligned [byteOffset], view index [offset], slot [byteSize]. *)
Definition structProp (ty : StructPropType) (allowUndef : bool) (key : string)
    (cls : StructClass) : res StructClass :=
  let* cls := ensureStatic cls in
  let bo0 := cls_size cls in
  let '(bo, off, bsz) :=
    match ty with
    | PString => let bo := bo0 + bo0 mod 2 in (bo, bo / 2, (MAX_STRING_SIZE + 1) * 2)
    | PInt32 | PBoolean => let bo := bo0 + bo0 mod 4 in (bo, bo / 4, 4)
    | PNumber => let bo := bo0 + bo0 mod 8 in (bo, bo / 8, 8)
    end in
  let pd := mkPropDef (Z.of_nat (length (cls_propDefs cls))) key ty bo off bsz
              allowUndef in
  Ok (mkStructClass (cls_typeId cls) (cls_typeIdStr cls) (bo + bsz)
        (cls_propDefs cls ++ [pd]) (cls_staticInitialized cls)).

(** A property declaration [@structProp(type, {allowUndefined}) key]. *)
Record PropDecl := mkPropDecl {
  decl_type : StructPropType;
  decl_allowUndefined : bool;
  decl_key : string
}.

(** The decorators of a class body, applied in declaration order. *)
Fixpoint declareProps (decls : list PropDecl) (cls : StructClass)
    : res StructClass :=
  match decls with
  | [] => Ok cls
  | d :: ds =>
      let* cls := structProp (decl_type d) (decl_allowUndefined d) (decl_key d) cls in
      declareProps ds cls
  end.

(* ------------------------------------------------------------------ *)
(** ** BufferStruct instances *)

Record BufferStruct := mkBufferStruct {
  bs_class : StructClass;
  buf : buffer;
  lockId : Z
}.

Definition with_buf (bs : BufferStruct) (b : buffer) : BufferStruct :=
  mkBufferStruct (bs_class bs) b (lockId bs).

(** A plain [int32array[i]] used as an operand of [|] or [&]:
    [ToInt32(undefined) = 0]. *)
Definition i32_operand (o : option Z) : Z :=
  match o with Some v => v | None => 0 end.

(** Word and bit of a property index in a 2-word mask. *)
Definition maskWord (propIndex : Z) : Z := propIndex / 32.
Definition maskBit (propIndex : Z) : Z := propIndex - maskWord propIndex * 32.

Definition setDirty (bs : BufferStruct) (propIndex : Z) : BufferStruct :=
  let i := DIRTY_INT32_INDEX + maskWord propIndex in
  with_buf bs (i32_set (buf bs) i
    (js_or (i32_operand (i32_get (buf bs) i)) (js_shl 1 (maskBit propIndex)))).

Definition resetDirty (bs : BufferStruct) : BufferStruct :=
  let b := i32_set (buf bs) NOTIFY_INT32_INDEX 0 in
  let b := i32_set b DIRTY_INT32_INDEX 0 in
  let b := i32_set b (DIRTY_INT32_INDEX + 1) 0 in
  with_buf bs b.

(** JS truthiness of a number read from an [Int32Array] (undefined is
    falsy). *)
Definition truthy_i32 (o : option Z) : bool :=
  match o with Some v => negb (v =? 0) | None => false end.

(** [isDirty(propIndex?)]. *)
Definition isDirty (bs : BufferStruct) (propIndex : option Z) : bool :=
  match propIndex with
  | Some p =>
      let i := DIRTY_INT32_INDEX + maskWord p in
      negb (Z.land (i32_operand (i32_get (buf bs) i)) (js_shl 1 (maskBit p)) =? 0)
  | None =>
      truthy_i32 (i32_get (buf bs) DIRTY_INT32_INDEX) ||
      truthy_i32 (i32_get (buf bs) (DIRTY_INT32_INDEX + 1))
  end.

Definition setUndefined (bs : BufferStruct) (propIndex : Z) (value : bool)
    : BufferStruct :=
  let i := UNDEFINED_INT32_INDEX + maskWord propIndex in
  let old := i32_operand (i32_get (buf bs) i) in
  let m := js_shl 1 (maskBit propIndex) in
  with_buf bs (i32_set (buf bs) i
    (if value then js_or old m else js_and old (js_not m))).

Definition isUndefined (bs : BufferStruct) (propIndex : Z) : bool :=
  let i := UNDEFINED_INT32_INDEX + maskWord propIndex in
  negb (Z.land (i32_operand (i32_get (buf bs) i)) (js_shl 1 (maskBit propIndex)) =? 0).

(** [uint16array.slice(start, end)] read as code units: the in-range
    elements from [start], at most [n] of them. *)
Fixpoint u16_slice (b : buffer) (start : Z) (n : nat) : jsstring :=
  match n with
  | O => []
  | S n' =>
      match u16_get b start with
      | Some c => c :: u16_slice b (start + 1) n'
      | None => []
      end
  end.

(** [descriptor.get] of a property. *)
Definition getProp (bs : BufferStruct) (pd : PropDef) : res jsval :=
  if allowUndefined pd && isUndefined bs (propNum pd) then Ok JUndef else
  match type pd with
  | PString =>
      match u16_get (buf bs) (offset pd) with
      | None => Ok (JStr [])
      | Some length =>
          if length =? 0 then Ok (JStr [])
          else if MAX_STRING_SIZE <? length then Err ETextTooLong
          else Ok (JStr (u16_slice (buf bs) (offset pd + 1) (Z.to_nat length)))
      end
  | PInt32 =>
      Ok (match i32_get (buf bs) (offset pd) with
          | Some v => JNum (int_to_f64bits v)
          | None => JUndef
          end)
  | PBoolean => Ok (JBool (truthy_i32 (i32_get (buf bs) (offset pd))))
  | PNumber =>
      Ok (match f64_get (buf bs) (offset pd) with
          | Some bits => JNum bits
          | None => JUndef
          end)
  end.

(** [console.error] output of a setter. *)
Inductive logmsg := LogTextTooLong (length : Z).

(** The copy loop [uint16array[i] = value.charCodeAt(charIndex++)]. *)
Fixpoint u16_write_chars (b : buffer) (i : Z) (cs : jsstring) : buffer :=
  match cs with
  | [] => b
  | c :: cs' => u16_write_chars (u16_set b i c) (i + 1) cs'
  end.

(** The type branches of [descriptor.set] (after the undefined handling).
    [valueIsType] tests the property's declared type only; a value of
    another JS type than the declared one (which the TypeScript signatures
    exclude) is not modelled and gives [EIllTyped]. *)
Definition setTyped (bs : BufferStruct) (pd : PropDef) (value : jsval)
    : res (BufferStruct * list logmsg) :=
  match type pd, value with
  | PString, JStr s =>
      let* cur := getProp bs pd in
      if jsStrictEq value cur then Ok (bs, []) else
      let bs := setDirty bs (propNum pd) in
      let length0 := Z.of_nat (length s) in
      let '(length, logs) :=
        if MAX_STRING_SIZE <? length0
        then (MAX_STRING_SIZE, [LogTextTooLong length0])
        else (length0, []) in
      let b := u16_set (buf bs) (offset pd) length in
      let b := u16_write_chars b (offset pd + 1) (firstn (Z.to_nat length) s) in
      Ok (with_buf bs b, logs)
  | PInt32, JNum x =>
      let* cur := getProp bs pd in
      if jsStrictEq value cur then Ok (bs, []) else
      let bs := setDirty bs (propNum pd) in
      Ok (with_buf bs (i32_set (buf bs) (offset pd) (f64_toInt32 x)), [])
  | PBoolean, JBool x =>
      let* cur := getProp bs pd in
      if jsStrictEq value cur then Ok (bs, []) else
      let bs := setDirty bs (propNum pd) in
      Ok (with_buf bs (i32_set (buf bs) (offset pd) (if x then 1 else 0)), [])
  | PNumber, JNum x =>
      let* cur := getProp bs pd in
      if jsStrictEq value cur then Ok (bs, []) else
      let bs := setDirty bs (propNum pd) in
      Ok (with_buf bs (f64_set (buf bs) (offset pd) x), [])
  | _, _ => Err EIllTyped
  end.

(** [descriptor.set] of a property (no [propToBuffer]/[bufferToProp]
    options: no property of the repository passes them). *)
Definition setProp (bs : BufferStruct) (pd : PropDef) (value : jsval)
    : res (BufferStruct * list logmsg) :=
  let p := propNum pd in
  if allowUndefined pd then
    let isU := isUndefined bs p in
    match value with
    | JUndef =>
        if isU then Ok (bs, [])
        else Ok (setUndefined (setDirty bs p) p true, [])
    | _ =>
        setTyped (if isU then setUndefined (setDirty bs p) p false else bs) pd value
    end
  else setTyped bs pd value.

(** [constructor(buffer?)], given the class statics, the id minted by
    [ThreadX.instance.generateUniqueId()] and the random [lockId].  It
    returns the statics (updated by [initStatic]) and the instance. *)
Definition construct (cls : StructClass) (existing : option buffer)
    (uniqueId lockId0 : Z) : res (StructClass * BufferStruct) :=
  let* cls := ensureStatic cls in
  let b := match existing with
           | None => newBuffer (((cls_size cls + 7) / 8) * 8)
           | Some b => b
           end in
  (* new Uint16Array / Int32Array / Float64Array(buffer) *)
  if negb (byteLength b mod 2 =? 0) then Err ERangeError
  else if negb (byteLength b mod 4 =? 0) then Err ERangeError
  else if negb (byteLength b mod 8 =? 0) then Err ERangeError
  else
  let bs := mkBufferStruct cls b lockId0 in
  match existing with
  | None =>
      let bs := with_buf bs (i32_set (buf bs) TYPEID_INT32_INDEX (cls_typeId cls)) in
      let bs := with_buf bs (f64_set (buf bs) ID_FLOAT64_INDEX
                                     (int_to_f64bits uniqueId)) in
      let bs := fold_left (fun bs pd =>
                  if allowUndefined pd then setUndefined bs (propNum pd) true
                  else bs) (cls_propDefs cls) bs in
      Ok (cls, bs)
  | Some _ =>
      if bool_decide (i32_get b TYPEID_INT32_INDEX = Some (cls_typeId cls))
      then Ok (cls, bs)
      else Err ETypeIdMismatch
  end.

(* ------------------------------------------------------------------ *)
(** ** lock / lockAsync *)

(** [Atomics.compareExchange(int32array, i, expected, replacement)]: the old
    value, and the buffer. *)
Definition compareExchange (b : buffer) (i expected replacement : Z)
    : res (Z * buffer) :=
  let* old := atomic_load b i in
  if old =? expected then
    let* b' := atomic_store b i replacement in Ok (old, b')
  else Ok (old, b).

(** How a blocking [Atomics.wait] on the lock word returned: normally, with
    the "cannot be called in this context" TypeError (then spin), or with
    another exception (rethrown). *)
Inductive wait_result := WaitReturned | WaitUnsupported | WaitThrew (e : jserror).

(** The contention seen by one acquisition: for each failed attempt, how the
    wait returned and the value the other workers left in the lock word
    before the next [compareExchange].  [Ok None]: still contending when
    the schedule ends. *)
Fixpoint acquire (bs : BufferStruct) (sched : list (wait_result * Z))
    : res (option BufferStruct) :=
  match compareExchange (buf bs) LOCK_INT32_INDEX 0 (lockId bs) with
  | Err e => Err e
  | Ok (origLock, b) =>
      let bs := with_buf bs b in
      if origLock =? 0 then Ok (Some bs) else
      match sched with
      | [] => Ok None
      | (w, other) :: sched' =>
          match w with
          | WaitThrew e => Err e
          | _ => acquire (with_buf bs (i32_set (buf bs) LOCK_INT32_INDEX other)) sched'
          end
      end
  end.

(** The same loop for [lockAsync], parked with [Atomics.waitAsync]. *)
Fixpoint acquireAsync (bs : BufferStruct) (sched : list Z)
    : res (option BufferStruct) :=
  match compareExchange (buf bs) LOCK_INT32_INDEX 0 (lockId bs) with
  | Err e => Err e
  | Ok (origLock, b) =>
      let bs := with_buf bs b in
      if origLock =? 0 then Ok (Some bs) else
      match sched with
      | [] => Ok None
      | other :: sched' =>
          acquireAsync (with_buf bs (i32_set (buf bs) LOCK_INT32_INDEX other)) sched'
      end
  end.

(** Lock-word events of the release. *)
Inductive lock_event := LockStored (v : Z) | LockNotified.

Inductive lock_outcome (A : Type) :=
| Blocked
| Returned (bs : BufferStruct) (ev : list lock_event) (a : A)
| Raised (bs : BufferStruct) (ev : list lock_event) (e : jserror).
Arguments Blocked {A}.
Arguments Returned {A} bs ev a.
Arguments Raised {A} bs ev e.

(** A callback acts on the shared memory (its bytes; it cannot resize the
    buffer) and returns a value or throws. *)
Definition callback (A : Type) := BufferStruct -> (Z -> Z) * res A.

(** The [try { result = callback() } finally { store(lock, 0);
    notify(lock) }] part, common to both flavours. *)
Definition runLocked {A} (bs : BufferStruct) (cb : callback A) : lock_outcome A :=
  let '(bytes, r) := cb bs in
  let bs := with_buf bs (mkBuffer (byteLength (buf bs)) bytes) in
  match atomic_store (buf bs) LOCK_INT32_INDEX 0 with
  | Err e => Raised bs [] e
  | Ok b =>
      let bs := with_buf bs b in
      let ev := [LockStored 0; LockNotified] in
      match r with
      | Ok a => Returned bs ev a
      | Err e => Raised bs ev e
      end
  end.

Definition lock {A} (bs : BufferStruct) (sched : list (wait_result * Z))
    (cb : callback A) : lock_outcome A :=
  match acquire bs sched with
  | Err e => Raised bs [] e
  | Ok None => Blocked
  | Ok (Some bs) => runLocked bs cb
  end.

(** [lockAsync]: the callback's promise rejecting is [Err]. *)
Definition lockAsync {A} (bs : BufferStruct) (sched : list Z)
    (cb : callback A) : lock_outcome A :=
  match acquireAsync bs sched with
  | Err e => Raised bs [] e
  | Ok None => Blocked
  | Ok (Some bs) => runLocked bs cb
  end.

(* ------------------------------------------------------------------ *)
(** ** SharedObject: the mutation cycle *)

Record SharedObject := mkSharedObject {
  so_struct : option BufferStruct;
  curProps : list (string * jsval);
  mutations : list string;      (* the keys of [this.mutations], in order *)
  waitPromise : bool;           (* a wait handle is outstanding *)
  initialized : bool;
  so_workerId : Z               (* this.threadx.workerId *)
}.

Definition so_set_struct (so : SharedObject) (bs : BufferStruct) : SharedObject :=
  mkSharedObject (Some bs) (curProps so) (mutations so) (waitPromise so)
    (initialized so) (so_workerId so).
Definition so_set_props (so : SharedObject) (cp : list (string * jsval))
    (muts : list string) : SharedObject :=
  mkSharedObject (so_struct so) cp muts (waitPromise so) (initialized so)
    (so_workerId so).
Definition so_set_wait (so : SharedObject) (w : bool) : SharedObject :=
  mkSharedObject (so_struct so) (curProps so) (mutations so) w
    (initialized so) (so_workerId so).

(** [curProps[key]] (undefined when absent). *)
Fixpoint prop_lookup (cp : list (string * jsval)) (key : string) : jsval :=
  match cp with
  | [] => JUndef
  | (k, v) :: cp' => if String.eqb k key then v else prop_lookup cp' key
  end.

(** [curProps[key] = v]. *)
Fixpoint prop_assign (cp : list (string * jsval)) (key : string) (v : jsval)
    : list (string * jsval) :=
  match cp with
  | [] => [(key, v)]
  | (k, w) :: cp' =>
      if String.eqb k key then (k, v) :: cp' else (k, w) :: prop_assign cp' key v
  end.

(** [delete mutations[key]]. *)
Definition mutation_delete (muts : list string) (key : string) : list string :=
  List.filter (fun k => negb (String.eqb k key)) muts.

(** Observable effects of a mutation cycle. *)
Inductive so_event :=
| EvPropertyChange (propName : string) (newValue oldValue : jsval)
| EvNotify (value : Z)          (* struct.notify(value) *)
| EvWaitAsync (expected : Z).   (* struct.waitAsync(expected) *)

(** The [propDefs.forEach((propDef, index) => ...)] loop of
    [processDirtyProperties]. *)
Fixpoint processDirty_loop (bs : BufferStruct) (init : bool) (pds : list PropDef)
    (index : Z) (cp : list (string * jsval)) (muts : list string)
    : res (list (string * jsval) * list string * list so_event) :=
  match pds with
  | [] => Ok (cp, muts, [])
  | pd :: pds' =>
      if isDirty bs (Some index) then
        let muts := mutation_delete muts (name pd) in
        let oldValue := prop_lookup cp (name pd) in
        let* v := getProp bs pd in
        let cp := prop_assign cp (name pd) v in
        let* ev :=
          if init then
            let* v' := getProp bs pd in
            Ok [EvPropertyChange (name pd) v' oldValue]
          else Ok [] in
        let* '(cp, muts, evs) := processDirty_loop bs init pds' (index + 1) cp muts in
        Ok (cp, muts, ev ++ evs)
      else processDirty_loop bs init pds' (index + 1) cp muts
  end.

Definition processDirtyProperties (so : SharedObject) (bs : BufferStruct)
    : res (SharedObject * list so_event) :=
  let* '(cp, muts, evs) :=
    processDirty_loop bs (initialized so) (cls_propDefs (bs_class bs)) 0
      (curProps so) (mutations so) in
  Ok (so_set_struct (so_set_props so cp muts) (resetDirty bs), evs).

(** The accessor [sharedObjectStruct[key]] resolves to: the last property
    declared under that name. *)
Definition findProp (pds : list PropDef) (key : string) : option PropDef :=
  fold_left (fun acc pd => if String.eqb (name pd) key then Some pd else acc)
    pds None.

(** The [for (const key in mutations)] loop: [oldValue = struct[key]]
    (a getter call, which can throw), then [struct[key] = curProps[key]];
    a key that is not a struct property becomes a plain field of the
    struct object and does not touch the buffer. *)
Fixpoint flush_loop (bs : BufferStruct) (cp : list (string * jsval))
    (keys : list string) : res BufferStruct :=
  match keys with
  | [] => Ok bs
  | key :: keys' =>
      match findProp (cls_propDefs (bs_class bs)) key with
      | None => flush_loop bs cp keys'
      | Some pd =>
          let* _ := getProp bs pd in
          let* '(bs, _) := setProp bs pd (prop_lookup cp key) in
          flush_loop bs cp keys'
      end
  end.

(** Steps (a) and (b) of [_executeMutations]. *)
Definition executeMutations_ab (so : SharedObject)
    : res (SharedObject * list so_event) :=
  match so_struct so with
  | None => Ok (so, [])
  | Some bs =>
      let* nv := atomic_load (buf bs) NOTIFY_INT32_INDEX in
      let* '(so, ev) :=
        if negb (nv =? so_workerId so) && isDirty bs None
        then processDirtyProperties so bs
        else Ok (so, []) in
      match so_struct so with
      | None => Ok (so, ev)
      | Some bs =>
          let* bs := flush_loop bs (curProps so) (mutations so) in
          Ok (so_set_struct (so_set_props so (curProps so) []) bs, ev)
      end
  end.

(** Steps (c)-(e): drop the old wait, pick [expectedNotifyValue], notify if
    dirty, start the new wait. *)
Definition executeMutations_notify (so : SharedObject)
    : res (SharedObject * list so_event) :=
  match so_struct so with
  | None => Ok (so, [])
  | Some bs =>
      let so := so_set_wait so false in
      let* expectedNotifyValue := atomic_load (buf bs) NOTIFY_INT32_INDEX in
      if isDirty bs None then
        let* b := atomic_store (buf bs) NOTIFY_INT32_INDEX (so_workerId so) in
        Ok (so_set_wait (so_set_struct so (with_buf bs b)) true,
            [EvNotify (so_workerId so); EvWaitAsync (so_workerId so)])
      else Ok (so_set_wait so true, [EvWaitAsync expectedNotifyValue])
  end.

Definition executeMutations (so : SharedObject)
    : res (SharedObject * list so_event) :=
  match so_struct so with
  | None => Ok (so, [])
  | Some _ =>
      let* '(so, ev1) := executeMutations_ab so in
      let* '(so, ev2) := executeMutations_notify so in
      Ok (so, ev1 ++ ev2)
  end.

(* ------------------------------------------------------------------ *)
(** ** ThreadX: unique ids *)

Record ThreadX := mkThreadX {
  tx_workerId : Z;
  nextUniqueId : Z
}.

(** The constructor's [nextUniqueId = workerId * 10000000000000 + 1]. *)
Definition initThreadX (workerId : Z) : ThreadX :=
  mkThreadX workerId (workerId * 10000000000000 + 1).

(** [generateUniqueId() { return this.nextUniqueId++; }] *)
Definition generateUniqueId (tx : ThreadX) : Z * ThreadX :=
  (nextUniqueId tx, mkThreadX (tx_workerId tx) (nextUniqueId tx + 1)).

(** [n] successive calls. *)
Fixpoint generateUniqueIds (n : nat) (tx : ThreadX) : list Z * ThreadX :=
  match n with
  | O => ([], tx)
  | S n' =>
      let '(id, tx) := generateUniqueId tx in
      let '(ids, tx) := generateUniqueIds n' tx in
      (id :: ids, tx)
  end.

(* ------------------------------------------------------------------ *)
(** ** Auxiliary definitions used in the statements *)

(** The little-endian packing of a tag: byte [i] holds character [i]. *)
Fixpoint tid_enc (cs : jsstring) : Z :=
  match cs with
  | [] => 0
  | c :: cs' => c + 256 * tid_enc cs'
  end.

(** Byte [i] (0 = least significant) of the 32-bit word [E]. *)
Definition tid_byte (E : Z) (i : Z) : Z := (E mod 2 ^ 32) / 2 ^ (8 * i) mod 256.

(** Validity as the type-id claim words it: byte 0 is an allowed character;
    a later byte is an allowed character, or zero with only zero bytes
    after it. *)
Definition typeId_valid_claim (E : Z) : bool :=
  isValidTypeIdCharCode (tid_byte E 0) &&
  forallb (fun i =>
    isValidTypeIdCharCode (tid_byte E i) ||
    ((tid_byte E i =? 0) &&
     forallb (fun j => tid_byte E j =? 0) (List.filter (fun j => i <? j) [1; 2; 3])))
    [1; 2; 3].

(** Validity as the code decides it: byte 0 is an allowed character, each
    later byte is an allowed character or zero. *)
Definition typeId_valid_bytes (E : Z) : bool :=
  isValidTypeIdCharCode (tid_byte E 0) &&
  forallb (fun i => isValidTypeIdCharCode (tid_byte E i) || (tid_byte E i =? 0))
    [1; 2; 3].

(** Alignment of a property kind in the buffer. *)
Definition propAlign (t : StructPropType) : Z :=
  match t with PString => 2 | PInt32 | PBoolean => 4 | PNumber => 8 end.

(** Slot end of a property. *)
Definition propEnd (pd : PropDef) : Z := byteOffset pd + byteSize pd.

(** The layout invariant of a class's statics. *)
Record layout_inv (cls : StructClass) : Prop := {
  li_size_mod : cls_size cls mod 4 = 0;
  li_size_min : 40 + 4 * Z.of_nat (length (cls_propDefs cls)) <= cls_size cls;
  li_prop : forall (i : nat) pd, cls_propDefs cls !! i = Some pd ->
    propNum pd = Z.of_nat i /\
    40 + 4 * Z.of_nat i <= byteOffset pd /\
    byteOffset pd = offset pd * propAlign (type pd) /\
    byteSize pd = (match type pd with PString => 512 | t => propAlign t end) /\
    propEnd pd <= cls_size cls;
  li_order : forall (i j : nat) pi pj,
    cls_propDefs cls !! i = Some pi -> cls_propDefs cls !! j = Some pj ->
    (i < j)%nat -> propEnd pi <= byteOffset pj
}.

(** Two buffers of the same length holding the same bytes at the
    positions [P]. *)
Definition agree_on (P : Z -> Prop) (b1 b2 : buffer) : Prop :=
  byteLength b1 = byteLength b2 /\ forall j, P j -> byte_at b1 j = byte_at b2 j.

(** Classes built by property declarations: [BufferStruct] itself, and a
    subclass of a built class whose decorators all ran. *)
Inductive built_class : StructClass -> Prop :=
| built_base : built_class BufferStructBase
| built_sub (tid : Z) (parent : StructClass) (decls : list PropDecl) (cls : StructClass) :
    built_class parent ->
    declareProps decls (subclass tid parent) = Ok cls -> built_class cls.

(** An example class: [@structProp('number') a], a nullable string [s],
    an int32 [i] and a boolean [b], under type id 'ABCD'. *)
Definition example_decls : list PropDecl :=
  [mkPropDecl PNumber false "a"; mkPropDecl PString true "s";
   mkPropDecl PInt32 false "i"; mkPropDecl PBoolean false "b"].
Definition example_class : StructClass :=
  match declareProps example_decls (subclass 1145258561 BufferStructBase) with
  | Ok c => c
  | Err _ => BufferStructBase
  end.
(** The release guarantee of [lock]/[lockAsync] for a callback run on the
    acquired struct [bs1]: the outcome carries the callback's value or
    exception, the lock word reads 0, the store of 0 and the notify both
    happened, and every other byte is as the callback left it. *)
Definition lock_released {A} (cb : callback A) (bs1 : BufferStruct)
    (out : lock_outcome A) : Prop :=
  let released bs2 ev :=
    i32_get (buf bs2) LOCK_INT32_INDEX = Some 0 /\
    ev = [LockStored 0; LockNotified] /\
    byteLength (buf bs2) = byteLength (buf bs1) /\
    (forall j, ~ (4 * LOCK_INT32_INDEX <= j < 4 * LOCK_INT32_INDEX + 4) ->
       byte_at (buf bs2) j = fst (cb bs1) j) in
  match out with
  | Blocked => False
  | Returned bs2 ev a => released bs2 ev /\ snd (cb bs1) = Ok a
  | Raised bs2 ev e => released bs2 ev /\ snd (cb bs1) = Err e
  end.

(** A fresh instance of [example_class] (id 1, lock id 7). *)
Definition example_struct : BufferStruct :=
  match construct example_class None 1 7 with
  | Ok (_, bs) => bs
  | Err _ => mkBufferStruct example_class (newBuffer 0) 7
  end.
(** A shared object of worker 3 whose struct still carries that worker's
    own last notification (notify word 3) and a dirty bit, with no staged
    mutations. *)
Definition own_dirty_struct : BufferStruct :=
  with_buf example_struct
    (i32_set (i32_set (buf example_struct) NOTIFY_INT32_INDEX 3)
       DIRTY_INT32_INDEX 1).
Definition own_dirty_object : SharedObject :=
  mkSharedObject (Some own_dirty_struct) [] [] false true 3.

(** The raw 32-bit word at index [i] of the [Int32Array] (0 out of
    range). *)
Definition i32_raw (b : buffer) (i : Z) : Z :=
  if in_view b 4 i then load_le b (4 * i) 4 else 0.

(** The [i]-th property definition of [example_class]. *)
Definition example_prop (i : nat) : PropDef :=
  match cls_propDefs example_class !! i with
  | Some pd => pd
  | None => mkPropDef 0 "" PNumber 0 0 0 false
  end.

(** A NaN bit pattern (0x7FF8000000000000). *)
Definition nan_bits : Z := 9221120237041090560.

(** A struct of [example_class] over an existing 56-byte buffer carrying
    the type id: its string property [s] (bytes 48 to 560) is cut short. *)
Definition short_struct : BufferStruct :=
  match construct example_class (Some (i32_set (newBuffer 56) 0 1145258561)) 1 7 with
  | Ok (_, bs) => bs
  | Err _ => example_struct
  end.

(** Decidable equality of results, used to state computed facts. *)
#[global] Instance jserror_eq_dec : EqDecision jserror.
Proof. solve_decision. Defined.
#[global] Instance jsval_eq_dec : EqDecision jsval.
Proof. unfold jsstring. solve_decision. Defined.
#[global] Instance res_eq_dec {A} `{EqDecision A} : EqDecision (res A).
Proof. solve_decision. Defined.

(* ------------------------------------------------------------------ *)
(** ** Further accessors and invariants *)

(** The slot layout of a property, as [structProp] computes it. *)
Definition slot_ok (pd : PropDef) : Prop :=
  byteOffset pd = offset pd * propAlign (type pd) /\
  byteSize pd = (match type pd with PString => 512 | t => propAlign t end).

(** What a write to property [pd] leaves alone: the class and lock id,
    every byte outside the dirty and undefined words and the slot of [pd],
    and the dirty and undefined bits of the other properties among the
    first 64. *)
Definition write_frame (pd : PropDef) (bs bs1 : BufferStruct) : Prop :=
  bs1 = with_buf bs (buf bs1) /\
  agree_on (fun j => (j < 24 \/ 40 <= j) /\ (j < byteOffset pd \/ propEnd pd <= j))
    (buf bs) (buf bs1) /\
  forall q, 0 <= q < 64 -> q <> propNum pd ->
    isUndefined bs1 q = isUndefined bs q /\ isDirty bs1 (Some q) = isDirty bs (Some q).

(** [static extractTypeId(buffer)]. *)
Definition extractTypeId (b : buffer) : Z :=
  if (byteLength b <? cls_size BufferStructBase) || negb (byteLength b mod 8 =? 0)
  then 0
  else match i32_get b TYPEID_INT32_INDEX with
       | Some v => if negb (v =? 0) then v else 0
       | None => 0
       end.

(** The getters [typeId], [id], [notifyValue], [isLocked]. *)
Definition typeId_get (bs : BufferStruct) : option Z :=
  i32_get (buf bs) TYPEID_INT32_INDEX.
Definition id_get (bs : BufferStruct) : option Z :=
  f64_get (buf bs) ID_FLOAT64_INDEX.
Definition notifyValue (bs : BufferStruct) : res Z :=
  atomic_load (buf bs) NOTIFY_INT32_INDEX.
Definition isLocked (bs : BufferStruct) : res bool :=
  let* v := atomic_load (buf bs) LOCK_INT32_INDEX in Ok (negb (v =? 0)).

(** One step of the constructor's loop over [propDefs]: [if (propDef.allowUndefined)
    this.setUndefined(propDef.propNum, true)]. *)
Definition undef_init (bs : BufferStruct) (pd : PropDef) : BufferStruct :=
  if allowUndefined pd then setUndefined bs (propNum pd) true else bs.

(** The static-initialisation invariant of a class: once initialised, its
    type id stringifies to a valid tag. *)
Definition static_ok (cls : StructClass) : Prop :=
  cls_staticInitialized cls = true -> stringifyTypeId (cls_typeId cls) <> unknownTypeIdStr.

(** [notify(value?)]: the optional [Atomics.store], then [Atomics.notify]
    (which validates the index; the count of woken agents is not
    modelled). *)
Definition notify (bs : BufferStruct) (value : option Z) : res BufferStruct :=
  let* bs :=
    match value with
    | Some v =>
        let* b := atomic_store (buf bs) NOTIFY_INT32_INDEX v in Ok (with_buf bs b)
    | None => Ok bs
    end in
  if in_view (buf bs) 4 NOTIFY_INT32_INDEX then Ok bs else Err ERangeError.

(** The accessor pair the SharedObject constructor defines for each key
    of [curProps]: [get] reads [curProps[key]]; [set] does
    [curProps[key] = value; mutations[key] = true] and then
    [queueMutations()], which only schedules [_executeMutations]. *)
Definition so_getProp (so : SharedObject) (key : string) : jsval :=
  prop_lookup (curProps so) key.
Definition so_setProp (so : SharedObject) (key : string) (v : jsval) : SharedObject :=
  so_set_props so (prop_assign (curProps so) key v)
    (if existsb (String.eqb key) (mutations so) then mutations so
     else mutations so ++ [key]).

(* ================================================================== *)
(** * Proofs *)

(* ------------------------------------------------------------------ *)
(** ** Computed results *)

(** A result computed to [Ok] with a checked property, without reading
    back the (functional) buffers it holds. *)
Lemma res_ok_check {A} (r : res A) (P : A -> bool) :
  match r with Ok a => P a | Err _ => false end = true ->
  exists a, r = Ok a /\ P a = true.
Proof. destruct r as [a|e]; [eauto|discriminate]. Qed.

Lemma opt_some_check {A} (o : option A) (P : A -> bool) :
  match o with Some a => P a | None => false end = true ->
  exists a, o = Some a /\ P a = true.
Proof. destruct o as [a|]; [eauto|discriminate]. Qed.

(* ------------------------------------------------------------------ *)
(** ** Integer conversions *)

Lemma toInt32_small (x : Z) : 0 <= x < 2 ^ 31 -> toInt32 x = x.
Proof.
  intros Hx. unfold toInt32. rewrite Z.mod_small by lia.
  destruct (Z.ltb_spec x (2 ^ 31)); lia.
Qed.

Lemma toInt32_mod (x m : Z) : 0 < m -> (m | 2 ^ 32) -> toInt32 x mod m = x mod m.
Proof.
  intros Hm Hd. unfold toInt32.
  destruct (_ <? _).
  - apply Z.mod_mod_divide; exact Hd.
  - destruct Hd as [k Hk].
    rewrite Hk. replace (x mod (k * m) - k * m) with (x mod (k * m) + (-k) * m) by lia.
    rewrite Z.mod_add by lia.
    apply Z.mod_mod_divide. exists k; reflexivity.
Qed.

Lemma toInt32_testbit (x n : Z) : 0 <= n < 32 -> Z.testbit (toInt32 x) n = Z.testbit x n.
Proof.
  intros Hn.
  rewrite <- (Z.mod_pow2_bits_low (toInt32 x) 32 n) by lia.
  rewrite <- (Z.mod_pow2_bits_low x 32 n) by lia.
  f_equal. apply toInt32_mod; [lia | apply Z.divide_refl].
Qed.

Lemma toInt32_range (x : Z) : -2 ^ 31 <= toInt32 x < 2 ^ 31.
Proof.
  unfold toInt32. pose proof (Z.mod_pos_bound x (2 ^ 32)).
  destruct (Z.ltb_spec (x mod 2 ^ 32) (2 ^ 31)); lia.
Qed.

Lemma js_and_255 (x : Z) : js_and x 255 = x mod 256.
Proof.
  unfold js_and. rewrite (toInt32_small 255) by lia.
  change 255 with (Z.ones 8). rewrite Z.land_ones by lia.
  rewrite toInt32_small.
  - apply toInt32_mod; [lia | exists (2 ^ 24); reflexivity].
  - pose proof (Z.mod_pos_bound (toInt32 x) 256 eq_refl).
    change (2 ^ 8) with 256. lia.
Qed.

Lemma js_ushr_8 (x : Z) : js_ushr x 8 = (x mod 2 ^ 32) / 256.
Proof.
  unfold js_ushr, toUint32. change (8 mod 32) with 8.
  rewrite Z.shiftr_div_pow2 by lia. reflexivity.
Qed.

Lemma lor_disjoint (t c k : Z) :
  0 <= k -> 0 <= t < 2 ^ k -> Z.lor t (c * 2 ^ k) = t + c * 2 ^ k.
Proof.
  intros Hk Ht.
  assert (Hl : Z.land t (c * 2 ^ k) = 0).
  { apply Z.bits_inj'. intros n Hn. rewrite Z.land_spec, Z.bits_0.
    destruct (Z.ltb_spec n k).
    - rewrite Z.mul_pow2_bits_low by lia. apply andb_false_r.
    - rewrite <- (Z.mod_small t (2 ^ k)) by lia.
      rewrite Z.mod_pow2_bits_high by lia. reflexivity. }
  rewrite <- Z.lxor_lor by exact Hl.
  symmetry. apply Z.add_nocarry_lxor. exact Hl.
Qed.

(* ------------------------------------------------------------------ *)
(** ** Loads and stores *)

Lemma load_le_ext (b1 b2 : buffer) (pos : Z) (n : nat) :
  (forall k, 0 <= k < Z.of_nat n -> byte_at b1 (pos + k) = byte_at b2 (pos + k)) ->
  load_le b1 pos n = load_le b2 pos n.
Proof.
  revert pos. induction n as [|n IH]; intros pos H; simpl; [reflexivity|].
  rewrite <- (Z.add_0_r pos) at 1 3. rewrite H by lia. rewrite Z.add_0_r.
  f_equal. f_equal. apply IH. intros k Hk.
  rewrite <- !Z.add_assoc. apply H. lia.
Qed.

Lemma mod_mul_r_floor (a b c : Z) :
  0 < b -> 0 < c -> a mod (b * c) = a mod b + b * ((a / b) mod c).
Proof.
  intros Hb Hc.
  pose proof (Z.div_mod a b ltac:(lia)) as Ha.
  pose proof (Z.div_mod (a / b) c ltac:(lia)) as Hab.
  pose proof (Z.mod_pos_bound a b Hb). pose proof (Z.mod_pos_bound (a / b) c Hc).
  symmetry. apply (Z.mod_unique _ _ (a / b / c)); [left|]; nia.
Qed.

Lemma load_le_bytes (b : buffer) (pos : Z) (n : nat) (v : Z) :
  (forall k, 0 <= k < Z.of_nat n ->
     byte_at b (pos + k) mod 256 = (v / 2 ^ (8 * k)) mod 256) ->
  load_le b pos n = v mod 2 ^ (8 * Z.of_nat n).
Proof.
  revert pos v. induction n as [|n IH]; intros pos v H; simpl load_le.
  - simpl. rewrite Z.mod_1_r. reflexivity.
  - rewrite IH with (v := v / 256).
    + specialize (H 0 ltac:(lia)). rewrite Z.add_0_r, Z.mul_0_r, Z.pow_0_r, Z.div_1_r in H.
      rewrite H. replace (8 * Z.of_nat (S n)) with (8 + 8 * Z.of_nat n) by lia.
      rewrite Z.pow_add_r by lia. change (2 ^ 8) with 256.
      rewrite mod_mul_r_floor; [reflexivity|lia|].
      pose proof (Z.pow_pos_nonneg 2 (8 * Z.of_nat n)). lia.
    + intros k Hk. rewrite <- Z.add_assoc. rewrite H by lia.
      rewrite Z.div_div by (try lia; apply Z.pow_pos_nonneg; lia).
      f_equal. f_equal. replace (8 * (1 + k)) with (8 + 8 * k) by lia.
      rewrite Z.pow_add_r by lia. reflexivity.
Qed.

Lemma load_store_same (b : buffer) (pos : Z) (n : nat) (v : Z) :
  load_le (store_le b pos n v) pos n = v mod 2 ^ (8 * Z.of_nat n).
Proof.
  apply load_le_bytes. intros k Hk. simpl.
  replace ((pos <=? pos + k) && (pos + k <? pos + Z.of_nat n)) with true
    by (symmetry; apply andb_true_iff; split; [apply Z.leb_le|apply Z.ltb_lt]; lia).
  rewrite Z.mod_mod by lia. f_equal. f_equal. f_equal. lia.
Qed.

Lemma load_store_other (b : buffer) (pos pos' : Z) (n n' : nat) (v : Z) :
  pos' + Z.of_nat n' <= pos \/ pos + Z.of_nat n <= pos' ->
  load_le (store_le b pos n v) pos' n' = load_le b pos' n'.
Proof.
  intros Hd. apply load_le_ext. intros k Hk. simpl.
  replace ((pos <=? pos' + k) && (pos' + k <? pos + Z.of_nat n)) with false; [reflexivity|].
  symmetry. apply andb_false_iff.
  destruct Hd; [left; apply Z.leb_gt|right; apply Z.ltb_ge]; lia.
Qed.

(* ------------------------------------------------------------------ *)
(** ** Type-id codec *)

Lemma validChar_bounds (c : Z) : isValidTypeIdCharCode c = true -> 48 <= c <= 90.
Proof.
  unfold isValidTypeIdCharCode. intros H.
  apply orb_true_iff in H as [H | H]; apply andb_true_iff in H as [H1 H2];
    apply Z.leb_le in H1; apply Z.leb_le in H2; lia.
Qed.

Lemma genTypeId_loop_valid (cs : jsstring) :
  forall i t,
  Forall (fun c => isValidTypeIdCharCode c = true) cs ->
  0 <= i -> i + Z.of_nat (length cs) <= 4 -> 0 <= t < 2 ^ (8 * i) ->
  genTypeId_loop cs i t = Ok (t + 2 ^ (8 * i) * tid_enc cs).
Proof.
  induction cs as [|c cs IH]; intros i t Hv Hi Hlen Ht; simpl.
  - f_equal. lia.
  - inversion Hv as [|? ? Hc Hcs]; subst. rewrite Hc.
    pose proof (validChar_bounds c Hc) as Hcb.
    simpl length in Hlen.
    set (p := 2 ^ (8 * i)) in *.
    assert (Hp1 : 1 <= p) by (unfold p; pose proof (Z.pow_pos_nonneg 2 (8 * i)); lia).
    assert (Hp2 : p <= 2 ^ 24) by (unfold p; apply Z.pow_le_mono_r; lia).
    assert (Hp3 : 2 ^ (8 * (i + 1)) = p * 256).
    { unfold p. replace (8 * (i + 1)) with (8 * i + 8) by lia.
      rewrite Z.pow_add_r by lia. reflexivity. }
    assert (Hshl : js_shl c (i * 8) = c * p).
    { unfold js_shl. rewrite (toInt32_small c) by lia.
      rewrite Z.mod_small by lia. rewrite Z.shiftl_mul_pow2 by lia.
      replace (i * 8) with (8 * i) by lia. fold p.
      apply toInt32_small. change (2 ^ 31) with (128 * 2 ^ 24). nia. }
    assert (Hor : js_or t (c * p) = t + c * p).
    { unfold js_or. rewrite (toInt32_small t) by (change (2 ^ 31) with (128 * 2 ^ 24); lia).
      rewrite (toInt32_small (c * p)) by (change (2 ^ 31) with (128 * 2 ^ 24); nia).
      unfold p. rewrite lor_disjoint by (fold p; lia). fold p.
      apply toInt32_small. change (2 ^ 31) with (128 * 2 ^ 24). nia. }
    rewrite Hshl, Hor.
    rewrite IH by (auto; try rewrite Hp3; nia).
    rewrite Hp3. f_equal. ring.
Qed.

Lemma tid_enc_bound (cs : jsstring) :
  Forall (fun c => isValidTypeIdCharCode c = true) cs ->
  0 <= tid_enc cs < 2 ^ (8 * Z.of_nat (length cs)).
Proof.
  induction cs as [|c cs IH]; intros Hv; cbn [tid_enc length]; [simpl; lia|].
  inversion Hv as [|? ? Hc Hcs]; subst.
  pose proof (validChar_bounds c Hc). specialize (IH Hcs).
  rewrite Nat2Z.inj_succ.
  replace (8 * Z.succ (Z.of_nat (length cs)))
    with (8 * Z.of_nat (length cs) + 8) by lia.
  rewrite Z.pow_add_r by lia. change (2 ^ 8) with 256. lia.
Qed.

Lemma stringifyTypeId_loop_zero (k : nat) :
  forall i, 1 <= i -> stringifyTypeId_loop k i 0 = Some [].
Proof.
  induction k as [|k IH]; intros i Hi; simpl; [reflexivity|].
  replace (i =? 0) with false by (symmetry; apply Z.eqb_neq; lia).
  apply IH. lia.
Qed.

Lemma stringifyTypeId_loop_enc (cs : jsstring) :
  forall (k : nat) i,
  Forall (fun c => isValidTypeIdCharCode c = true) cs ->
  (length cs <= k)%nat -> 1 <= i \/ (i = 0 /\ cs <> []) ->
  0 <= tid_enc cs < 2 ^ 32 ->
  stringifyTypeId_loop k i (tid_enc cs) = Some cs.
Proof.
  induction cs as [|c cs IH]; intros k i Hv Hk Hi Hb.
  - apply stringifyTypeId_loop_zero. destruct Hi as [Hi | [_ Hi]]; [lia | congruence].
  - inversion Hv as [|? ? Hc Hcs]; subst.
    pose proof (validChar_bounds c Hc) as Hcb.
    destruct k as [|k]; simpl in Hk; [lia|].
    simpl stringifyTypeId_loop.
    assert (Hlow : js_and (c + 256 * tid_enc cs) 255 = c).
    { rewrite js_and_255. rewrite Z.mul_comm, Z.mod_add by lia.
      apply Z.mod_small. lia. }
    assert (Hhigh : js_ushr (c + 256 * tid_enc cs) 8 = tid_enc cs).
    { rewrite js_ushr_8. simpl in Hb. rewrite (Z.mod_small _ (2 ^ 32)) by lia.
      rewrite Z.mul_comm, Z.div_add by lia.
      rewrite Z.div_small by lia. lia. }
    rewrite Hlow, Hc, Hhigh.
    rewrite IH; auto; [lia| |].
    + simpl in Hb. lia.
    + simpl in Hb. lia.
Qed.

Lemma genTypeId_loop_invalid (cs : jsstring) :
  Exists (fun c => isValidTypeIdCharCode c = false) cs ->
  forall i t, exists e, genTypeId_loop cs i t = Err e.
Proof.
  induction 1 as [c cs Hc | c cs _ IH]; intros i t; simpl.
  - rewrite Hc. eauto.
  - destruct (isValidTypeIdCharCode c); eauto.
Qed.

(** Claim C6.  For every tag [T] of 1 to 4 characters in A-Z/0-9,
    [genTypeId(T)] packs the characters little-endian (the value of
    [typeId |= charCode << (i*8)]) and [stringifyTypeId] of it is [T];
    [genTypeId] throws for the empty string, for strings longer than 4
    characters, and for any string holding a character outside A-Z/0-9. *)
Theorem genTypeId_stringifyTypeId_roundtrip :
  (forall T : jsstring, (1 <= length T <= 4)%nat ->
     Forall (fun c => isValidTypeIdCharCode c = true) T ->
     genTypeId T = Ok (tid_enc T) /\ stringifyTypeId (tid_enc T) = T) /\
  genTypeId [] = Err ETypeIdEmpty /\
  (forall T : jsstring, (4 < length T)%nat -> genTypeId T = Err ETypeIdTooLong) /\
  (forall T : jsstring, Exists (fun c => isValidTypeIdCharCode c = false) T ->
     exists e, genTypeId T = Err e).
Proof.
  split; [|split; [reflexivity|split]].
  - intros T HT Hv. pose proof (tid_enc_bound T Hv) as Hb.
    assert (Hb' : 0 <= tid_enc T < 2 ^ 32).
    { split; [lia|]. eapply Z.lt_le_trans; [apply Hb|].
      apply Z.pow_le_mono_r; lia. }
    split.
    + unfold genTypeId.
      destruct (Nat.eqb_spec (length T) 0); [lia|].
      destruct (Nat.ltb_spec 4 (length T)); [lia|].
      rewrite genTypeId_loop_valid by (auto; lia).
      f_equal. simpl. lia.
    + unfold stringifyTypeId.
      rewrite stringifyTypeId_loop_enc; [reflexivity | exact Hv | lia | | exact Hb'].
      right. split; [reflexivity|]. destruct T; simpl in HT; [lia|discriminate].
  - intros T HT. unfold genTypeId.
    destruct (Nat.eqb_spec (length T) 0); [lia|].
    destruct (Nat.ltb_spec 4 (length T)); [reflexivity|lia].
  - intros T HT. unfold genTypeId.
    destruct (Nat.eqb_spec (length T) 0); [eauto|].
    destruct (Nat.ltb_spec 4 (length T)); [eauto|].
    apply genTypeId_loop_invalid. exact HT.
Qed.

(** The four bytes the [stringifyTypeId]/[isValidTypeId] loops read. *)
Lemma typeId_loop_bytes (E : Z) :
  js_and E 255 = tid_byte E 0 /\
  js_and (js_ushr E 8) 255 = tid_byte E 1 /\
  js_and (js_ushr (js_ushr E 8) 8) 255 = tid_byte E 2 /\
  js_and (js_ushr (js_ushr (js_ushr E 8) 8) 8) 255 = tid_byte E 3.
Proof.
  unfold tid_byte. rewrite !js_ushr_8, !js_and_255.
  assert (H0 : E mod 256 = (E mod 2 ^ 32) mod 256).
  { symmetry. apply Z.mod_mod_divide. exists (2 ^ 24). reflexivity. }
  rewrite H0. clear H0.
  assert (Hu : 0 <= E mod 2 ^ 32 < 2 ^ 32) by (apply Z.mod_pos_bound; lia).
  remember (E mod 2 ^ 32) as u eqn:Hequ. clear Hequ.
  change (2 ^ 32) with 4294967296 in *.
  assert (H1 : 0 <= u / 256 < 4294967296).
  { split; [apply Z.div_pos; lia|]. apply Z.div_lt_upper_bound; lia. }
  rewrite (Z.mod_small (u / 256) 4294967296) by lia.
  assert (H2 : 0 <= u / 256 / 256 < 4294967296).
  { split; [apply Z.div_pos; [apply Z.div_pos|]; lia|].
    apply Z.div_lt_upper_bound; lia. }
  rewrite (Z.mod_small (u / 256 / 256) 4294967296) by lia.
  rewrite !Z.div_div by lia.
  repeat split. rewrite Z.div_1_r. reflexivity.
Qed.

(** C3: [isValidTypeId] accepts a word exactly when byte 0 is a character
    of [A-Z0-9] and every later byte is such a character or zero (a zero
    byte may be followed by non-zero bytes); [stringifyTypeId] of an
    accepted word is its allowed characters in byte order with the zero
    bytes skipped, and of a rejected word is ["????"]. *)
Theorem typeId_decode_validity (E : Z) :
  isValidTypeId E = typeId_valid_bytes E /\
  stringifyTypeId E =
    (if typeId_valid_bytes E
     then List.filter isValidTypeIdCharCode
            [tid_byte E 0; tid_byte E 1; tid_byte E 2; tid_byte E 3]
     else unknownTypeIdStr).
Proof.
  destruct (typeId_loop_bytes E) as (H0 & H1 & H2 & H3).
  unfold isValidTypeId, stringifyTypeId, typeId_valid_bytes.
  cbn [isValidTypeId_loop stringifyTypeId_loop forallb].
  rewrite H0, H1, H2, H3.
  generalize (tid_byte E 0) (tid_byte E 1) (tid_byte E 2) (tid_byte E 3).
  intros b0 b1 b2 b3. simpl.
  destruct (isValidTypeIdCharCode b0), (isValidTypeIdCharCode b1),
    (isValidTypeIdCharCode b2), (isValidTypeIdCharCode b3),
    (b0 =? 0), (b1 =? 0), (b2 =? 0), (b3 =? 0); simpl; auto.
Qed.

(** C3, as worded: the word 0x00420041 (bytes 'A', 0, 'B', 0) has a zero
    byte followed by a non-zero byte, so the stated rule rejects it, yet
    [isValidTypeId] accepts it and [stringifyTypeId] gives "AB". *)
Lemma typeId_interior_zero_cex :
  typeId_valid_claim 4325441 = false /\
  isValidTypeId 4325441 = true /\ stringifyTypeId 4325441 = [65; 66].
Proof. vm_compute. auto. Qed.

(* ------------------------------------------------------------------ *)
(** ** Property layout *)

Lemma ensureStatic_layout (cls cls' : StructClass) :
  ensureStatic cls = Ok cls' ->
  cls_size cls' = cls_size cls /\ cls_propDefs cls' = cls_propDefs cls.
Proof.
  unfold ensureStatic, initStatic. destruct (cls_staticInitialized cls).
  - intros H. inversion H. auto.
  - case_bool_decide; intros Hc; inversion Hc. auto.
Qed.

Lemma layout_inv_transfer (c c' : StructClass) :
  cls_size c' = cls_size c -> cls_propDefs c' = cls_propDefs c ->
  layout_inv c -> layout_inv c'.
Proof.
  intros Hs Hp [Hm Hmin Hprop Hord]. split; rewrite ?Hs, ?Hp; auto.
Qed.

Lemma layout_inv_base : layout_inv BufferStructBase.
Proof.
  split; simpl; try reflexivity; try lia.

  - intros i pd H. rewrite lookup_nil in H. discriminate.
  - intros i j pi pj H. rewrite lookup_nil in H. discriminate.
Qed.

Lemma structProp_layout (ty : StructPropType) (u : bool) (key : string)
    (cls cls' : StructClass) :
  layout_inv cls -> structProp ty u key cls = Ok cls' -> layout_inv cls'.
Proof.
  unfold structProp. destruct (ensureStatic cls) as [c|e] eqn:Hes; simpl;
    [|discriminate].
  destruct (ensureStatic_layout _ _ Hes) as [Hs Hp].
  intros Hinv. apply (layout_inv_transfer cls c Hs Hp) in Hinv. clear Hs Hp Hes.
  destruct Hinv as [Hm Hmin Hprop Hord].
  set (s := cls_size c) in *. set (ps := cls_propDefs c) in *.
  (* the aligned offset, index and slot of the new property *)
  assert (Hnew : forall bo off bsz,
    (match ty with
     | PString => let bo := s + s mod 2 in (bo, bo / 2, (MAX_STRING_SIZE + 1) * 2)
     | PInt32 | PBoolean => let bo := s + s mod 4 in (bo, bo / 4, 4)
     | PNumber => let bo := s + s mod 8 in (bo, bo / 8, 8)
     end) = (bo, off, bsz) ->
    s <= bo /\ bo = off * propAlign ty /\
    bsz = (match ty with PString => 512 | t => propAlign t end) /\
    (bo + bsz) mod 4 = 0).
  { intros bo off bsz Hm'. unfold MAX_STRING_SIZE in Hm'.
    destruct ty; simpl in Hm'; inversion Hm'; subst; simpl;
      clearbody s; Z.div_mod_to_equations; lia.
 }
  destruct (match ty with
     | PString => let bo := s + s mod 2 in (bo, bo / 2, (MAX_STRING_SIZE + 1) * 2)
     | PInt32 | PBoolean => let bo := s + s mod 4 in (bo, bo / 4, 4)
     | PNumber => let bo := s + s mod 8 in (bo, bo / 8, 8)
     end) as [[bo off] bsz] eqn:Hlay.
  destruct (Hnew bo off bsz eq_refl) as (Hge & Hbo & Hbsz & Hm4). clear Hnew Hlay.
  intros H. inversion H; subst cls'; clear H. clearbody s ps.
  set (pd := mkPropDef (Z.of_nat (length ps)) key ty bo off bsz u).
  assert (Hpd : forall i q, (ps ++ [pd]) !! i = Some q ->
            (ps !! i = Some q /\ (i < length ps)%nat) \/ (i = length ps /\ q = pd)).
  { intros i q Hq. apply lookup_app_Some in Hq as [Hq|[Hle Hq]].
    - left. split; [exact Hq|]. apply lookup_lt_Some in Hq. exact Hq.
    - right. apply list_lookup_singleton_Some in Hq as [Hi Hq]. split; [lia|auto]. }
  assert (Hsz : byteSize pd = bsz) by reflexivity.
  assert (Hbsz0 : 4 <= bsz) by (rewrite Hbsz; destruct ty; simpl; lia).
  split; simpl.
  - exact Hm4.
  - rewrite length_app. simpl. destruct ty; simpl in Hbsz; try lia.

  - intros i q Hq. apply Hpd in Hq as [[Hq Hi]|[Hi ->]].
    + destruct (Hprop i q Hq) as (H1 & H2 & H3 & H4 & H5). unfold propEnd in *.
      repeat split; try lia. rewrite H4. destruct (type q); reflexivity.
    + subst i. unfold propEnd; simpl. repeat split; try lia.
      rewrite Hbsz. destruct ty; reflexivity.
  - intros i j pi pj Hi Hj Hij.
    apply Hpd in Hi as [[Hi Hi']|[Hi ->]]; apply Hpd in Hj as [[Hj Hj']|[Hj ->]].
    + exact (Hord i j pi pj Hi Hj Hij).
    + destruct (Hprop i pi Hi) as (_ & _ & _ & _ & H5). simpl. lia.
    + lia.
    + lia.
Qed.

Lemma declareProps_layout_inv (decls : list PropDecl) (cls cls' : StructClass) :
  layout_inv cls -> declareProps decls cls = Ok cls' -> layout_inv cls'.
Proof.
  revert cls. induction decls as [|d ds IH]; intros cls Hinv H; simpl in H.
  - inversion H; subst; exact Hinv.
  - destruct (structProp _ _ _ cls) as [c|e] eqn:Hs; simpl in H; [|discriminate].
    exact (IH c (structProp_layout _ _ _ _ _ Hinv Hs) H).
Qed.

Lemma built_class_layout_inv (cls : StructClass) :
  built_class cls -> layout_inv cls.
Proof.
  induction 1 as [|tid parent decls cls Hb IH Hd].
  - exact layout_inv_base.
  - apply (declareProps_layout_inv decls (subclass tid parent)); [|exact Hd].
    apply (layout_inv_transfer parent); auto.
Qed.

Lemma example_class_built : built_class example_class.
Proof.
  apply (built_sub 1145258561 BufferStructBase example_decls);
    [constructor | vm_compute; reflexivity].
Qed.
(** C10: in every class built by [structProp] declarations, each property's
    slot starts at byte 40 or later, its [byteOffset] is a multiple of its
    alignment (2 string, 4 int32/boolean, 8 number), it ends within the
    class [size], and the slots of two distinct properties do not overlap. *)
Theorem structProp_layout_disjoint (cls : StructClass) (Hb : built_class cls)
    (i j : nat) (pi pj : PropDef) :
  cls_propDefs cls !! i = Some pi -> cls_propDefs cls !! j = Some pj ->
  40 <= byteOffset pi /\
  byteOffset pi mod propAlign (type pi) = 0 /\
  byteOffset pi + byteSize pi <= cls_size cls /\
  (i <> j -> byteOffset pi + byteSize pi <= byteOffset pj \/
             byteOffset pj + byteSize pj <= byteOffset pi).
Proof.
  intros Hi Hj. destruct (built_class_layout_inv cls Hb) as [_ _ Hprop Hord].
  destruct (Hprop i pi Hi) as (_ & H2 & H3 & _ & H5).
  unfold propEnd in *. repeat split; [lia| |lia|].
  - rewrite H3. apply Z.mod_mul. destruct (type pi); simpl; lia.
  - intros Hne. destruct (Nat.lt_total i j) as [Hlt|[Heq|Hgt]].
    + left. exact (Hord i j pi pj Hi Hj Hlt).
    + contradiction.
    + right. exact (Hord j i pj pi Hj Hi Hgt).
Qed.
Lemma structProp_layout_disjoint_witness :
  exists pi pj, cls_propDefs example_class !! 1%nat = Some pi /\
  cls_propDefs example_class !! 2%nat = Some pj /\
  40 <= byteOffset pi /\
  byteOffset pi mod propAlign (type pi) = 0 /\
  byteOffset pi + byteSize pi <= cls_size example_class /\
  ((1 <> 2)%nat -> byteOffset pi + byteSize pi <= byteOffset pj \/
             byteOffset pj + byteSize pj <= byteOffset pi).
Proof.
  do 2 eexists. split; [reflexivity|]. split; [reflexivity|].
  apply (structProp_layout_disjoint example_class example_class_built 1 2);
    reflexivity.
Defined.

(* ------------------------------------------------------------------ *)
(** ** Unique ids *)

Lemma generateUniqueIds_range (n : nat) (tx : ThreadX) (x : Z) :
  In x (fst (generateUniqueIds n tx)) <->
  nextUniqueId tx <= x < nextUniqueId tx + Z.of_nat n.
Proof.
  revert tx. induction n as [|n IH]; intros tx; simpl.
  - lia.
  - destruct (generateUniqueIds n (mkThreadX (tx_workerId tx) (nextUniqueId tx + 1)))
      as [ids tx'] eqn:Hg. simpl.
    specialize (IH (mkThreadX (tx_workerId tx) (nextUniqueId tx + 1))).
    rewrite Hg in IH. simpl in IH. rewrite IH. lia.
Qed.

(** C9: a router with worker id [w] mints [w * 10^13 + 1],
    [w * 10^13 + 2], ...; for two distinct worker ids in [1, 899] the ids
    of the first [n <= 10^13 - 1] calls are disjoint, and every such id is
    a positive integer below [2^53]. *)
Theorem uniqueIds_disjoint (w1 w2 : Z) (n : nat)
    (Hw1 : 1 <= w1 <= 899) (Hw2 : 1 <= w2 <= 899) (Hne : w1 <> w2)
    (Hn : Z.of_nat n <= 10 ^ 13 - 1) :
  let ids1 := fst (generateUniqueIds n (initThreadX w1)) in
  let ids2 := fst (generateUniqueIds n (initThreadX w2)) in
  (forall x, In x ids1 <-> w1 * 10 ^ 13 + 1 <= x <= w1 * 10 ^ 13 + Z.of_nat n) /\
  (forall x, In x ids1 -> ~ In x ids2) /\
  (forall x, In x ids1 \/ In x ids2 -> 0 < x < 2 ^ 53).
Proof.
  intros ids1 ids2. unfold ids1, ids2. clear ids1 ids2.
  change (10 ^ 13) with 10000000000000 in *.
  change (2 ^ 53) with 9007199254740992.
  split; [|split].
  - intros x. rewrite generateUniqueIds_range. simpl.
    lia.
  - intros x H1 H2. rewrite generateUniqueIds_range in H1, H2. simpl in H1, H2.
    assert (w1 < w2 \/ w2 < w1) as [Hlt|Hlt] by lia; nia.
  - intros x [H|H]; rewrite generateUniqueIds_range in H; simpl in H; nia.
Qed.

Lemma uniqueIds_disjoint_witness :
  (1 <= 1 <= 899 /\ 1 <= 2 <= 899 /\ 1 <> 2 /\ Z.of_nat 3 <= 10 ^ 13 - 1) /\
  let ids1 := fst (generateUniqueIds 3 (initThreadX 1)) in
  let ids2 := fst (generateUniqueIds 3 (initThreadX 2)) in
  (forall x, In x ids1 <-> 1 * 10 ^ 13 + 1 <= x <= 1 * 10 ^ 13 + Z.of_nat 3) /\
  (forall x, In x ids1 -> ~ In x ids2) /\
  (forall x, In x ids1 \/ In x ids2 -> 0 < x < 2 ^ 53).
Proof.
  split; [repeat split; lia|].
  apply (uniqueIds_disjoint 1 2 3); lia.
Defined.

(* ------------------------------------------------------------------ *)
(** ** lock / lockAsync *)

Lemma compareExchange_ok (b : buffer) (i e r old : Z) (b' : buffer) :
  compareExchange b i e r = Ok (old, b') ->
  in_view b 4 i = true /\ byteLength b' = byteLength b.
Proof.
  unfold compareExchange, atomic_load, atomic_store, i32_get.
  destruct (in_view b 4 i) eqn:Hv; simpl; [|discriminate].
  destruct (_ =? e); simpl; intros H; inversion H; auto.
Qed.

Lemma acquire_in_view (bs : BufferStruct) (sched : list (wait_result * Z))
    (bs1 : BufferStruct) :
  acquire bs sched = Ok (Some bs1) -> in_view (buf bs1) 4 LOCK_INT32_INDEX = true.
Proof.
  revert bs. induction sched as [|[w other] sched IH]; intros bs; simpl;
    destruct (compareExchange _ _ _ _) as [[old b]|e] eqn:Hc;
    try discriminate;
    destruct (compareExchange_ok _ _ _ _ _ _ Hc) as [Hv Hl].
  - destruct (old =? 0); intros H; inversion H; subst. simpl.
    unfold in_view in *. rewrite Hl. exact Hv.
  - destruct (old =? 0).
    + intros H; inversion H; subst. simpl. unfold in_view in *. rewrite Hl. exact Hv.
    + destruct w; [apply IH|apply IH|discriminate].
Qed.

Lemma acquireAsync_in_view (bs : BufferStruct) (sched : list Z) (bs1 : BufferStruct) :
  acquireAsync bs sched = Ok (Some bs1) ->
  in_view (buf bs1) 4 LOCK_INT32_INDEX = true.
Proof.
  revert bs. induction sched as [|other sched IH]; intros bs; simpl;
    destruct (compareExchange _ _ _ _) as [[old b]|e] eqn:Hc;
    try discriminate;
    destruct (compareExchange_ok _ _ _ _ _ _ Hc) as [Hv Hl].
  - destruct (old =? 0); intros H; inversion H; subst. simpl.
    unfold in_view in *. rewrite Hl. exact Hv.
  - destruct (old =? 0).
    + intros H; inversion H; subst. simpl. unfold in_view in *. rewrite Hl. exact Hv.
    + apply IH.
Qed.

Lemma runLocked_released {A} (bs1 : BufferStruct) (cb : callback A) :
  in_view (buf bs1) 4 LOCK_INT32_INDEX = true ->
  lock_released cb bs1 (runLocked bs1 cb).
Proof.
  intros Hv. unfold runLocked. destruct (cb bs1) as [bytes r] eqn:Hcb. simpl.
  unfold atomic_store. simpl.
  replace (in_view (mkBuffer (byteLength (buf bs1)) bytes) 4 LOCK_INT32_INDEX)
    with true by (unfold in_view in *; simpl; symmetry; exact Hv).
  assert (Hrel : i32_get (store_le (mkBuffer (byteLength (buf bs1)) bytes)
                   (4 * LOCK_INT32_INDEX) 4 0) LOCK_INT32_INDEX = Some 0 /\
          [LockStored 0; LockNotified] = [LockStored 0; LockNotified] /\
          byteLength (store_le (mkBuffer (byteLength (buf bs1)) bytes)
                   (4 * LOCK_INT32_INDEX) 4 0) = byteLength (buf bs1) /\
          (forall j, ~ (4 * LOCK_INT32_INDEX <= j < 4 * LOCK_INT32_INDEX + 4) ->
             byte_at (store_le (mkBuffer (byteLength (buf bs1)) bytes)
                   (4 * LOCK_INT32_INDEX) 4 0) j = fst (bytes, r) j)).
  { split; [|split; [reflexivity|split; [reflexivity|]]].
    - unfold i32_get.
      replace (in_view (store_le _ _ _ _) 4 LOCK_INT32_INDEX) with true
        by (unfold in_view in *; simpl; symmetry; exact Hv).
      rewrite load_store_same. reflexivity.
    - intros j Hj. simpl.
      replace ((4 * LOCK_INT32_INDEX <=? j) && (j <? 4 * LOCK_INT32_INDEX + Z.of_nat 4))
        with false; [reflexivity|].
      unfold LOCK_INT32_INDEX in *. symmetry. apply andb_false_iff.
      destruct (Z.le_gt_cases 8 j); [right; apply Z.ltb_ge|left; apply Z.leb_gt]; lia. }
  destruct r; unfold lock_released; rewrite Hcb; cbv zeta;
    split; [exact Hrel|reflexivity| exact Hrel|reflexivity].
Qed.

(** C5: once [lock] or [lockAsync] has acquired the lock, the callback's
    outcome is passed on unchanged, a returned value returned and a thrown
    error (or rejection) rethrown, and in both cases the lock word has been
    stored back to 0 and its waiters notified. *)
Theorem lock_releases {A} (bs : BufferStruct) (cb : callback A)
    (sched : list (wait_result * Z)) (sched' : list Z) :
  (forall bs1, acquire bs sched = Ok (Some bs1) ->
     lock_released cb bs1 (lock bs sched cb)) /\
  (forall bs1, acquireAsync bs sched' = Ok (Some bs1) ->
     lock_released cb bs1 (lockAsync bs sched' cb)).
Proof.
  split; intros bs1 H.
  - unfold lock. rewrite H. apply runLocked_released. exact (acquire_in_view _ _ _ H).
  - unfold lockAsync. rewrite H. apply runLocked_released.
    exact (acquireAsync_in_view _ _ _ H).
Qed.

Lemma lock_releases_witness :
  exists bs1,
    acquire (mkBufferStruct example_class (newBuffer 48) 7) [] = Ok (Some bs1) /\
    lock_released (fun bs => (byte_at (buf bs), @Err nat (EUser 1))) bs1
      (lock (mkBufferStruct example_class (newBuffer 48) 7) []
         (fun bs => (byte_at (buf bs), @Err nat (EUser 1)))).
Proof.
  eexists. split; [reflexivity|].
  apply (proj1 (lock_releases (mkBufferStruct example_class (newBuffer 48) 7)
                 (fun bs => (byte_at (buf bs), @Err nat (EUser 1))) [] [])).
  reflexivity.
Defined.

(* ------------------------------------------------------------------ *)
(** ** The constructor over an existing buffer *)

(** C2: once the statics are initialised (a valid static type id), the
    constructor over an existing buffer raises a RangeError when the length
    is not a multiple of 8 (the typed views refuse it); otherwise it raises
    TypeIdMismatch exactly when int32 word 0 is not the class's [typeId]
    (or is absent); otherwise it succeeds, wrapping the buffer unchanged.
    No minimum length is required. *)
Theorem construct_existing (cls cls' : StructClass) (b : buffer) (uniqueId lockId0 : Z)
    (Hs : ensureStatic cls = Ok cls') :
  construct cls (Some b) uniqueId lockId0 =
    if negb (byteLength b mod 8 =? 0) then Err ERangeError
    else if bool_decide (i32_get b TYPEID_INT32_INDEX = Some (cls_typeId cls'))
    then Ok (cls', mkBufferStruct cls' b lockId0)
    else Err ETypeIdMismatch.
Proof.
  unfold construct. rewrite Hs. simpl.
  destruct (Z.eqb_spec (byteLength b mod 8) 0) as [H8|H8]; simpl.
  - assert (H2 : byteLength b mod 2 = 0) by (Z.div_mod_to_equations; lia).
    assert (H4 : byteLength b mod 4 = 0) by (Z.div_mod_to_equations; lia).
    rewrite H2, H4. reflexivity.
  - destruct (byteLength b mod 2 =? 0), (byteLength b mod 4 =? 0); reflexivity.
Qed.

Lemma construct_existing_witness :
  construct example_class (Some (i32_set (newBuffer 48) 0 1145258561)) 1 7 =
    if negb (byteLength (i32_set (newBuffer 48) 0 1145258561) mod 8 =? 0)
    then Err ERangeError
    else if bool_decide (i32_get (i32_set (newBuffer 48) 0 1145258561)
                           TYPEID_INT32_INDEX = Some (cls_typeId example_class))
    then Ok (example_class,
             mkBufferStruct example_class (i32_set (newBuffer 48) 0 1145258561) 7)
    else Err ETypeIdMismatch.
Proof.
  apply construct_existing. vm_compute. reflexivity.
Defined.

(** C2, as worded: an 8-byte buffer whose word 0 holds the type id is
    accepted though it is shorter than the 40-byte header, and a 12-byte
    buffer fails with a RangeError, not TypeIdMismatch. *)
Lemma construct_existing_cex :
  byteLength (i32_set (newBuffer 8) 0 1145258561) < 40 /\
  construct example_class (Some (i32_set (newBuffer 8) 0 1145258561)) 1 7 =
    Ok (example_class,
        mkBufferStruct example_class (i32_set (newBuffer 8) 0 1145258561) 7) /\
  construct example_class (Some (newBuffer 12)) 1 7 = Err ERangeError.
Proof.
  split; [vm_compute; reflexivity|]. split; vm_compute; reflexivity.
Qed.

(* ------------------------------------------------------------------ *)
(** ** The mutation cycle: notify *)

Lemma processDirtyProperties_workerId (so so' : SharedObject) (bs : BufferStruct)
    (ev : list so_event) :
  processDirtyProperties so bs = Ok (so', ev) -> so_workerId so' = so_workerId so.
Proof.
  unfold processDirtyProperties.
  destruct (processDirty_loop _ _ _ _ _ _) as [[[cp muts] evs]|e]; simpl;
    intros H; inversion H; reflexivity.
Qed.

Lemma executeMutations_ab_workerId (so so' : SharedObject) (ev : list so_event) :
  executeMutations_ab so = Ok (so', ev) -> so_workerId so' = so_workerId so.
Proof.
  unfold executeMutations_ab.
  destruct (so_struct so) as [bs|]; [|intros H; inversion H; reflexivity].
  destruct (atomic_load _ _) as [nv|e]; cbn [bind]; [|discriminate].
  destruct (negb (nv =? so_workerId so) && isDirty bs None) eqn:Hc; cbn [bind].
  - destruct (processDirtyProperties so bs) as [[so1 ev1]|e] eqn:Hp; cbn [bind];
      [|discriminate].
    apply processDirtyProperties_workerId in Hp.
    destruct (so_struct so1) as [bs1|]; [|intros H; inversion H; subst; exact Hp].
    destruct (flush_loop _ _ _) as [bs2|e]; cbn [bind]; [|discriminate].
    intros H; inversion H; subst. exact Hp.
  - destruct (so_struct so) as [bs1|]; [|intros H; inversion H; reflexivity].
    destruct (flush_loop _ _ _) as [bs2|e]; cbn [bind]; [|discriminate].
    intros H; inversion H; subst. reflexivity.
Qed.

Lemma executeMutations_ab_struct (so so' : SharedObject) (ev : list so_event)
    (bs' : BufferStruct) :
  executeMutations_ab so = Ok (so', ev) -> so_struct so' = Some bs' ->
  exists bs, so_struct so = Some bs.
Proof.
  unfold executeMutations_ab. destruct (so_struct so) as [bs|] eqn:Hs.
  - intros _ _. exists bs. reflexivity.
  - intros H; inversion H; subst. rewrite Hs. discriminate.
Qed.

(** C4: after steps (a) and (b), [_executeMutations] calls
    [notify(workerId)] and waits on [workerId] exactly when [isDirty()]
    holds for the struct as steps (a) and (b) left it (any dirty bit, also
    one left from an earlier cycle); otherwise it stores nothing and waits
    on the notify word as it is. *)
Theorem executeMutations_notify_choice (so so1 : SharedObject) (ev1 : list so_event)
    (bs1 : BufferStruct) (nv : Z)
    (Hab : executeMutations_ab so = Ok (so1, ev1))
    (Hs : so_struct so1 = Some bs1)
    (Hnv : i32_get (buf bs1) NOTIFY_INT32_INDEX = Some nv) :
  executeMutations so =
    if isDirty bs1 None then
      Ok (so_set_wait (so_set_struct (so_set_wait so1 false)
            (with_buf bs1 (store_le (buf bs1) (4 * NOTIFY_INT32_INDEX) 4
                             (so_workerId so)))) true,
          ev1 ++ [EvNotify (so_workerId so); EvWaitAsync (so_workerId so)])
    else
      Ok (so_set_wait (so_set_wait so1 false) true, ev1 ++ [EvWaitAsync nv]).
Proof.
  destruct (executeMutations_ab_struct _ _ _ _ Hab Hs) as [bs Hbs].
  pose proof (executeMutations_ab_workerId _ _ _ Hab) as Hw.
  unfold executeMutations. rewrite Hbs, Hab. cbn [bind].
  unfold executeMutations_notify. cbn [so_set_wait so_struct]. rewrite Hs.
  unfold atomic_load. cbn [so_set_wait buf]. rewrite Hnv. cbn [bind].
  assert (Hv : in_view (buf bs1) 4 NOTIFY_INT32_INDEX = true).
  { unfold i32_get in Hnv. destruct (in_view _ _ _); [reflexivity|discriminate]. }
  destruct (isDirty bs1 None).
  - unfold atomic_store. rewrite Hv. cbn [bind so_workerId so_set_wait]. rewrite Hw.
    reflexivity.
  - reflexivity.
Qed.

Lemma executeMutations_notify_choice_witness :
  exists so1 ev1 bs1 nv,
    executeMutations_ab own_dirty_object = Ok (so1, ev1) /\
    so_struct so1 = Some bs1 /\
    i32_get (buf bs1) NOTIFY_INT32_INDEX = Some nv /\
    executeMutations own_dirty_object =
      if isDirty bs1 None then
        Ok (so_set_wait (so_set_struct (so_set_wait so1 false)
              (with_buf bs1 (store_le (buf bs1) (4 * NOTIFY_INT32_INDEX) 4
                               (so_workerId own_dirty_object)))) true,
            ev1 ++ [EvNotify (so_workerId own_dirty_object);
                    EvWaitAsync (so_workerId own_dirty_object)])
      else
        Ok (so_set_wait (so_set_wait so1 false) true, ev1 ++ [EvWaitAsync nv]).
Proof.
  destruct (res_ok_check (executeMutations_ab own_dirty_object)
    (fun '(so1, _) =>
       match so_struct so1 with
       | Some bs1 =>
           match i32_get (buf bs1) NOTIFY_INT32_INDEX with
           | Some _ => true
           | None => false
           end
       | None => false
       end)) as [[so1 ev1] [Hab Hc]]; [vm_compute; reflexivity|].
  cbv beta iota in Hc.
  destruct (opt_some_check (so_struct so1) _ Hc) as [bs1 [Hs Hc2]].
  destruct (opt_some_check (i32_get (buf bs1) NOTIFY_INT32_INDEX) (fun _ => true) Hc2)
    as [nv [Hnv _]].
  exists so1, ev1, bs1, nv. split; [exact Hab|]. split; [exact Hs|]. split; [exact Hnv|].
  apply executeMutations_notify_choice; assumption.
Defined.

(** C4, as worded: worker 3 whose own earlier writes are still marked
    dirty (notify word 3, so step (a) skips them) and that has no staged
    mutation: step (b) changes nothing, yet [notify(3)] is called and the
    wait uses 3. *)
Lemma executeMutations_leftover_dirty_cex :
  exists so2,
    mutations own_dirty_object = [] /\
    executeMutations_ab own_dirty_object =
      Ok (so_set_struct (so_set_props own_dirty_object [] []) own_dirty_struct, []) /\
    executeMutations own_dirty_object = Ok (so2, [EvNotify 3; EvWaitAsync 3]).
Proof.
  destruct (res_ok_check (executeMutations own_dirty_object)
    (fun '(_, ev) =>
       match ev with
       | [EvNotify a; EvWaitAsync b] => (a =? 3) && (b =? 3)
       | _ => false
       end)) as [[so2 ev] [He Hc]]; [vm_compute; reflexivity|].
  cbv beta iota in Hc.
  destruct ev as [|[? ? ?|a|a] [|[? ? ?|b|b] [|]]]; try discriminate Hc.
  apply andb_prop in Hc as [Ha Hb]. apply Z.eqb_eq in Ha, Hb. subst.
  exists so2. split; [reflexivity|]. split; [|exact He].
  unfold executeMutations_ab. cbn [so_struct own_dirty_object].
  assert (Hl : atomic_load (buf own_dirty_struct) NOTIFY_INT32_INDEX = Ok 3)
    by (vm_compute; reflexivity).
  rewrite Hl.
  reflexivity.
Qed.


(* ------------------------------------------------------------------ *)
(** ** Dirty and undefined bits *)

Lemma toInt32_testbit_high (x n : Z) :
  31 <= n -> Z.testbit (toInt32 x) n = Z.testbit x 31.
Proof.
  intros Hn.
  rewrite <- (Z.mod_pow2_bits_low x 32 31) by lia.
  unfold toInt32. set (u := x mod 2 ^ 32).
  assert (Hu : 0 <= u < 2 ^ 32) by (apply Z.mod_pos_bound; lia). clearbody u.
  assert (HP : 2 ^ 31 <= 2 ^ n) by (apply Z.pow_le_mono_r; lia).
  assert (HP0 : 0 < 2 ^ n) by lia.
  rewrite !Z.testbit_eqb by lia.
  change (2 ^ 32) with 4294967296 in *. change (2 ^ 31) with 2147483648 in *.
  destruct (Z.ltb_spec u 2147483648).
  - rewrite (Z.div_small u (2 ^ n)) by lia.
    rewrite (Z.div_small u 2147483648) by lia. reflexivity.
  - rewrite <- (Z.div_unique (u - 4294967296) (2 ^ n) (-1) (u - 4294967296 + 2 ^ n))
      by lia.
    rewrite <- (Z.div_unique u 2147483648 1 (u - 2147483648)) by lia. reflexivity.
Qed.

Lemma toInt32_congr (x y : Z) : x mod 2 ^ 32 = y mod 2 ^ 32 -> toInt32 x = toInt32 y.
Proof. unfold toInt32. intros ->. reflexivity. Qed.

Lemma js_shl_1 (k : Z) : 0 <= k < 32 -> js_shl 1 k = toInt32 (2 ^ k).
Proof.
  intros Hk. unfold js_shl. rewrite Z.mod_small by lia.
  change (toInt32 1) with 1. rewrite Z.shiftl_1_l. reflexivity.
Qed.

Lemma js_shl_1_testbit (k n : Z) : 0 <= k < 32 -> 0 <= n ->
  Z.testbit (js_shl 1 k) n = if n <? 32 then k =? n else k =? 31.
Proof.
  intros Hk Hn. rewrite js_shl_1 by lia.
  destruct (Z.ltb_spec n 32).
  - rewrite toInt32_testbit by lia. apply Z.pow2_bits_eqb. lia.
  - rewrite toInt32_testbit_high by lia. apply Z.pow2_bits_eqb. lia.
Qed.

Lemma land_bit (y k : Z) : 0 <= k < 32 ->
  (Z.land (toInt32 y) (js_shl 1 k) =? 0) = negb (Z.testbit y k).
Proof.
  intros Hk. destruct (Z.testbit y k) eqn:Hy; simpl.
  - apply Z.eqb_neq. intros H0.
    assert (Ht : Z.testbit (Z.land (toInt32 y) (js_shl 1 k)) k = true).
    { rewrite Z.land_spec, toInt32_testbit, js_shl_1_testbit, Hy by lia.
      rewrite (proj2 (Z.ltb_lt k 32)) by lia. rewrite Z.eqb_refl. reflexivity. }
    rewrite H0, Z.bits_0 in Ht. discriminate.
  - apply Z.eqb_eq. apply Z.bits_inj'. intros n Hn.
    rewrite Z.land_spec, Z.bits_0, js_shl_1_testbit by lia.
    destruct (Z.ltb_spec n 32).
    + destruct (Z.eqb_spec k n).
      * subst n. rewrite toInt32_testbit, Hy by lia. reflexivity.
      * apply andb_false_r.
    + destruct (Z.eqb_spec k 31); [|apply andb_false_r].
      subst k. rewrite toInt32_testbit_high, Hy by lia. reflexivity.
Qed.

(** ** Agreement of buffers *)

Lemma agree_on_refl (P : Z -> Prop) (b : buffer) : agree_on P b b.
Proof. split; auto. Qed.

Lemma agree_on_sym (P : Z -> Prop) (b1 b2 : buffer) :
  agree_on P b1 b2 -> agree_on P b2 b1.
Proof. intros [Hl Hb]. split; [auto|]. intros j Hj. symmetry. auto. Qed.

Lemma agree_on_trans (P : Z -> Prop) (b1 b2 b3 : buffer) :
  agree_on P b1 b2 -> agree_on P b2 b3 -> agree_on P b1 b3.
Proof.
  intros [Hl1 Hb1] [Hl2 Hb2]. split; [congruence|].
  intros j Hj. rewrite Hb1 by exact Hj. auto.
Qed.

Lemma agree_on_weaken (P Q : Z -> Prop) (b1 b2 : buffer) :
  (forall j, Q j -> P j) -> agree_on P b1 b2 -> agree_on Q b1 b2.
Proof. intros HQ [Hl Hb]. split; auto. Qed.

Lemma store_le_agree (P : Z -> Prop) (b : buffer) (pos : Z) (n : nat) (v : Z) :
  (forall j, P j -> j < pos \/ pos + Z.of_nat n <= j) ->
  agree_on P b (store_le b pos n v).
Proof.
  intros HP. split; [reflexivity|]. intros j Hj. simpl.
  destruct (HP j Hj) as [H|H].
  - replace (pos <=? j) with false by (symmetry; apply Z.leb_gt; lia). reflexivity.
  - replace (j <? pos + Z.of_nat n) with false by (symmetry; apply Z.ltb_ge; lia).
    rewrite andb_false_r. reflexivity.
Qed.

Lemma i32_set_agree (P : Z -> Prop) (b : buffer) (i v : Z) :
  (forall j, P j -> j < 4 * i \/ 4 * i + 4 <= j) -> agree_on P b (i32_set b i v).
Proof.
  intros HP. unfold i32_set. destruct (in_view b 4 i).
  - apply store_le_agree. exact HP.
  - apply agree_on_refl.
Qed.

Lemma u16_set_agree (P : Z -> Prop) (b : buffer) (i v : Z) :
  (forall j, P j -> j < 2 * i \/ 2 * i + 2 <= j) -> agree_on P b (u16_set b i v).
Proof.
  intros HP. unfold u16_set. destruct (in_view b 2 i).
  - apply store_le_agree. exact HP.
  - apply agree_on_refl.
Qed.

Lemma f64_set_agree (P : Z -> Prop) (b : buffer) (i v : Z) :
  (forall j, P j -> j < 8 * i \/ 8 * i + 8 <= j) -> agree_on P b (f64_set b i v).
Proof.
  intros HP. unfold f64_set. destruct (in_view b 8 i).
  - apply store_le_agree. exact HP.
  - apply agree_on_refl.
Qed.

Lemma u16_write_chars_agree (P : Z -> Prop) (b : buffer) (i : Z) (cs : jsstring) :
  (forall j, P j -> j < 2 * i) -> agree_on P b (u16_write_chars b i cs).
Proof.
  revert b i. induction cs as [|c cs IH]; intros b i HP; simpl.
  - apply agree_on_refl.
  - apply agree_on_trans with (u16_set b i c).
    + apply u16_set_agree. intros j Hj. specialize (HP j Hj). lia.
    + apply IH. intros j Hj. specialize (HP j Hj). lia.
Qed.

Lemma load_le_agree (P : Z -> Prop) (b1 b2 : buffer) (pos : Z) (n : nat) :
  agree_on P b1 b2 -> (forall k, 0 <= k < Z.of_nat n -> P (pos + k)) ->
  load_le b1 pos n = load_le b2 pos n.
Proof. intros [_ Hb] HP. apply load_le_ext. intros k Hk. apply Hb, HP, Hk. Qed.

Lemma in_view_agree (P : Z -> Prop) (b1 b2 : buffer) (w i : Z) :
  agree_on P b1 b2 -> in_view b1 w i = in_view b2 w i.
Proof. intros [Hl _]. unfold in_view. rewrite Hl. reflexivity. Qed.

Lemma i32_get_agree (P : Z -> Prop) (b1 b2 : buffer) (i : Z) :
  agree_on P b1 b2 -> (forall j, 4 * i <= j < 4 * i + 4 -> P j) ->
  i32_get b1 i = i32_get b2 i.
Proof.
  intros Ha HP. unfold i32_get. rewrite (in_view_agree _ _ _ _ _ Ha).
  rewrite (load_le_agree P b1 b2 (4 * i) 4 Ha); [reflexivity|].
  intros k Hk. apply HP. simpl in Hk. lia.
Qed.

Lemma i32_raw_agree (P : Z -> Prop) (b1 b2 : buffer) (i : Z) :
  agree_on P b1 b2 -> (forall j, 4 * i <= j < 4 * i + 4 -> P j) ->
  i32_raw b1 i = i32_raw b2 i.
Proof.
  intros Ha HP. unfold i32_raw. rewrite (in_view_agree _ _ _ _ _ Ha).
  rewrite (load_le_agree P b1 b2 (4 * i) 4 Ha); [reflexivity|].
  intros k Hk. apply HP. simpl in Hk. lia.
Qed.

Lemma u16_get_agree (P : Z -> Prop) (b1 b2 : buffer) (i : Z) :
  agree_on P b1 b2 -> (forall j, 2 * i <= j < 2 * i + 2 -> P j) ->
  u16_get b1 i = u16_get b2 i.
Proof.
  intros Ha HP. unfold u16_get. rewrite (in_view_agree _ _ _ _ _ Ha).
  rewrite (load_le_agree P b1 b2 (2 * i) 2 Ha); [reflexivity|].
  intros k Hk. apply HP. simpl in Hk. lia.
Qed.

Lemma f64_get_agree (P : Z -> Prop) (b1 b2 : buffer) (i : Z) :
  agree_on P b1 b2 -> (forall j, 8 * i <= j < 8 * i + 8 -> P j) ->
  f64_get b1 i = f64_get b2 i.
Proof.
  intros Ha HP. unfold f64_get. rewrite (in_view_agree _ _ _ _ _ Ha).
  rewrite (load_le_agree P b1 b2 (8 * i) 8 Ha); [reflexivity|].
  intros k Hk. apply HP. simpl in Hk. lia.
Qed.

Lemma u16_slice_agree (P : Z -> Prop) (b1 b2 : buffer) (start : Z) (n : nat) :
  agree_on P b1 b2 -> (forall j, 2 * start <= j < 2 * start + 2 * Z.of_nat n -> P j) ->
  u16_slice b1 start n = u16_slice b2 start n.
Proof.
  revert start. induction n as [|n IH]; intros start Ha HP; simpl; [reflexivity|].
  rewrite (u16_get_agree P b1 b2 start Ha) by (intros j Hj; apply HP; lia).
  destruct (u16_get b2 start); [|reflexivity].
  rewrite IH; [reflexivity|exact Ha|]. intros j Hj. apply HP. lia.
Qed.

(** ** The header words *)

Lemma in_view_intro (b : buffer) (w i : Z) :
  0 <= i -> (i + 1) * w <= byteLength b -> in_view b w i = true.
Proof. intros H1 H2. unfold in_view. apply andb_true_iff. split; apply Z.leb_le; lia. Qed.

Lemma in_view_elim (b : buffer) (w i : Z) :
  in_view b w i = true -> 0 <= i /\ (i + 1) * w <= byteLength b.
Proof. unfold in_view. rewrite andb_true_iff, !Z.leb_le. auto. Qed.

Lemma byteLength_i32_set (b : buffer) (i v : Z) : byteLength (i32_set b i v) = byteLength b.
Proof. unfold i32_set. destruct (in_view b 4 i); reflexivity. Qed.

Lemma maskBit_range (p : Z) : 0 <= p -> 0 <= maskBit p < 32.
Proof. intros Hp. unfold maskBit, maskWord. Z.div_mod_to_equations. lia. Qed.

Lemma maskWord_range (p : Z) : 0 <= p -> 0 <= maskWord p <= p.
Proof. intros Hp. unfold maskWord. Z.div_mod_to_equations. lia. Qed.

Lemma i32_operand_raw (b : buffer) (i : Z) :
  i32_operand (i32_get b i) = toInt32 (i32_raw b i).
Proof. unfold i32_operand, i32_get, i32_raw. destruct (in_view b 4 i); reflexivity. Qed.

Lemma i32_get_set_same (b : buffer) (i v : Z) :
  in_view b 4 i = true -> i32_get (i32_set b i v) i = Some (toInt32 v).
Proof.
  intros Hv. unfold i32_get, i32_set. rewrite Hv.
  replace (in_view (store_le b (4 * i) 4 v) 4 i) with true by (symmetry; exact Hv).
  rewrite load_store_same. f_equal. apply toInt32_congr. apply Z.mod_mod. lia.
Qed.

Lemma i32_raw_set_same (b : buffer) (i v : Z) :
  in_view b 4 i = true -> i32_raw (i32_set b i v) i = v mod 2 ^ 32.
Proof.
  intros Hv. unfold i32_raw, i32_set. rewrite Hv.
  replace (in_view (store_le b (4 * i) 4 v) 4 i) with true by (symmetry; exact Hv).
  rewrite load_store_same. reflexivity.
Qed.

Lemma isDirty_bit (bs : BufferStruct) (p : Z) : 0 <= p ->
  isDirty bs (Some p) = Z.testbit (i32_raw (buf bs) (DIRTY_INT32_INDEX + maskWord p)) (maskBit p).
Proof.
  intros Hp. unfold isDirty. rewrite i32_operand_raw, land_bit by (apply maskBit_range; lia).
  apply negb_involutive.
Qed.

Lemma isUndefined_bit (bs : BufferStruct) (p : Z) : 0 <= p ->
  isUndefined bs p =
  Z.testbit (i32_raw (buf bs) (UNDEFINED_INT32_INDEX + maskWord p)) (maskBit p).
Proof.
  intros Hp. unfold isUndefined. rewrite i32_operand_raw, land_bit by (apply maskBit_range; lia).
  apply negb_involutive.
Qed.

Lemma setDirty_agree (P : Z -> Prop) (bs : BufferStruct) (p : Z) :
  (forall j, P j -> j < 24 + 4 * maskWord p \/ 28 + 4 * maskWord p <= j) ->
  agree_on P (buf bs) (buf (setDirty bs p)).
Proof.
  intros HP. unfold setDirty. simpl. apply i32_set_agree.
  unfold DIRTY_INT32_INDEX. intros j Hj. specialize (HP j Hj). lia.
Qed.

Lemma setUndefined_agree (P : Z -> Prop) (bs : BufferStruct) (p : Z) (v : bool) :
  (forall j, P j -> j < 32 + 4 * maskWord p \/ 36 + 4 * maskWord p <= j) ->
  agree_on P (buf bs) (buf (setUndefined bs p v)).
Proof.
  intros HP. unfold setUndefined. simpl. apply i32_set_agree.
  unfold UNDEFINED_INT32_INDEX. intros j Hj. specialize (HP j Hj). lia.
Qed.

Lemma isDirty_agree (bs1 bs2 : BufferStruct) (p : Z) :
  agree_on (fun j => 24 <= j < 32) (buf bs1) (buf bs2) -> 0 <= p < 64 ->
  isDirty bs1 (Some p) = isDirty bs2 (Some p) /\ isDirty bs1 None = isDirty bs2 None.
Proof.
  intros Ha Hp. pose proof (maskWord_range p ltac:(lia)).
  assert (maskWord p < 2) by (unfold maskWord in *; Z.div_mod_to_equations; lia).
  unfold isDirty, DIRTY_INT32_INDEX.
  rewrite !(i32_get_agree _ (buf bs1) (buf bs2) _ Ha) by (intros j Hj; lia).
  split; reflexivity.
Qed.

Lemma isUndefined_agree (P : Z -> Prop) (bs1 bs2 : BufferStruct) (p : Z) :
  agree_on P (buf bs1) (buf bs2) ->
  (forall j, 32 + 4 * maskWord p <= j < 36 + 4 * maskWord p -> P j) ->
  isUndefined bs1 p = isUndefined bs2 p.
Proof.
  intros Ha HP. unfold isUndefined, UNDEFINED_INT32_INDEX.
  rewrite (i32_get_agree _ (buf bs1) (buf bs2) _ Ha); [reflexivity|].
  intros j Hj. apply HP. lia.
Qed.

Lemma isDirty_setDirty (bs : BufferStruct) (p : Z) :
  0 <= p < 64 -> 32 <= byteLength (buf bs) ->
  isDirty (setDirty bs p) (Some p) = true /\ isDirty (setDirty bs p) None = true.
Proof.
  intros Hp Hl. pose proof (maskWord_range p ltac:(lia)) as Hw.
  pose proof (maskBit_range p ltac:(lia)) as Hk.
  assert (Hw2 : maskWord p < 2) by (unfold maskWord in *; Z.div_mod_to_equations; lia).
  set (w := DIRTY_INT32_INDEX + maskWord p).
  assert (Hv : in_view (buf bs) 4 w = true).
  { unfold in_view, w, DIRTY_INT32_INDEX. apply andb_true_iff.
    split; [apply Z.leb_le|apply Z.leb_le]; lia. }
  set (x := js_or (i32_operand (i32_get (buf bs) w)) (js_shl 1 (maskBit p))).
  assert (Hx : Z.testbit x (maskBit p) = true).
  { unfold x, js_or. rewrite toInt32_testbit by lia. rewrite Z.lor_spec.
    rewrite (toInt32_testbit (js_shl 1 _)) by lia.
    rewrite js_shl_1_testbit by lia.
    rewrite (proj2 (Z.ltb_lt (maskBit p) 32)) by lia. rewrite Z.eqb_refl.
    apply orb_true_r. }
  assert (Hg : i32_get (buf (setDirty bs p)) w = Some (toInt32 x)).
  { unfold setDirty. simpl. fold w. fold x. apply i32_get_set_same. exact Hv. }
  assert (Hnz : negb (toInt32 x =? 0) = true).
  { apply negb_true_iff, Z.eqb_neq. intros H0.
    rewrite <- (toInt32_testbit x) in Hx by lia. rewrite H0, Z.bits_0 in Hx.
    discriminate. }
  split.
  - unfold isDirty. fold w. rewrite Hg. simpl.
    rewrite land_bit by lia. rewrite negb_involutive. exact Hx.
  - unfold isDirty. assert (maskWord p = 0 \/ maskWord p = 1) as [H0|H0] by lia.
    + replace DIRTY_INT32_INDEX with w by (unfold w; lia). rewrite Hg. simpl.
      rewrite Hnz. reflexivity.
    + replace (DIRTY_INT32_INDEX + 1) with w by (unfold w; lia). rewrite Hg. simpl.
      rewrite Hnz. apply orb_true_r.
Qed.

Lemma isUndefined_setUndefined_false (bs : BufferStruct) (p : Z) :
  0 <= p -> 4 * (UNDEFINED_INT32_INDEX + maskWord p) + 4 <= byteLength (buf bs) ->
  isUndefined (setUndefined bs p false) p = false.
Proof.
  intros Hp Hl. pose proof (maskWord_range p Hp) as Hw.
  pose proof (maskBit_range p Hp) as Hk.
  set (w := UNDEFINED_INT32_INDEX + maskWord p) in *.
  assert (Hv : in_view (buf bs) 4 w = true).
  { unfold in_view, w, UNDEFINED_INT32_INDEX in *. apply andb_true_iff.
    split; [apply Z.leb_le|apply Z.leb_le]; lia. }
  rewrite isUndefined_bit by exact Hp. fold w.
  unfold setUndefined. fold w. simpl. rewrite i32_raw_set_same by exact Hv.
  rewrite Z.mod_pow2_bits_low by lia.
  unfold js_and. rewrite toInt32_testbit by lia. rewrite Z.land_spec.
  rewrite (toInt32_testbit (js_not _)) by lia. unfold js_not.
  rewrite (toInt32_testbit (Z.lnot _)) by lia. rewrite Z.lnot_spec by lia.
  rewrite (toInt32_testbit (js_shl 1 _)) by lia. rewrite js_shl_1_testbit by lia.
  rewrite (proj2 (Z.ltb_lt (maskBit p) 32)) by lia. rewrite Z.eqb_refl.
  apply andb_false_r.
Qed.

Lemma resetDirty_clean (bs : BufferStruct) (p : Z) :
  0 <= p < 64 -> 32 <= byteLength (buf bs) ->
  isDirty (resetDirty bs) (Some p) = false /\ isDirty (resetDirty bs) None = false.
Proof.
  intros Hp Hl.
  assert (H6 : i32_get (buf (resetDirty bs)) DIRTY_INT32_INDEX = Some 0).
  { unfold resetDirty. simpl.
    rewrite <- (i32_get_agree (fun j => 24 <= j < 28)
                 (i32_set (i32_set (buf bs) NOTIFY_INT32_INDEX 0) DIRTY_INT32_INDEX 0)).
    - apply i32_get_set_same. apply in_view_intro; rewrite ?byteLength_i32_set;
        unfold DIRTY_INT32_INDEX; lia.
    - apply i32_set_agree. unfold DIRTY_INT32_INDEX. intros j Hj. lia.
    - unfold DIRTY_INT32_INDEX. intros j Hj. lia. }
  assert (H7 : i32_get (buf (resetDirty bs)) (DIRTY_INT32_INDEX + 1) = Some 0).
  { unfold resetDirty. simpl. apply i32_get_set_same.
    apply in_view_intro; rewrite ?byteLength_i32_set; unfold DIRTY_INT32_INDEX; lia. }
  pose proof (maskWord_range p ltac:(lia)) as Hw.
  assert (Hw2 : maskWord p < 2) by (unfold maskWord in *; Z.div_mod_to_equations; lia).
  split.
  - unfold isDirty. assert (maskWord p = 0 \/ maskWord p = 1) as [H0|H0] by lia;
      rewrite H0; [rewrite Z.add_0_r, H6|rewrite H7]; reflexivity.
  - unfold isDirty. rewrite H6, H7. reflexivity.
Qed.

(* ------------------------------------------------------------------ *)
(** ** Property writes *)

(** What [setTyped] does: nothing when the value is [===] to the current
    one, otherwise [setDirty] and writes at or above the slot. *)
Lemma setTyped_cases (bs bs1 : BufferStruct) (pd : PropDef) (v : jsval)
    (logs : list logmsg) :
  byteOffset pd = offset pd * propAlign (type pd) ->
  setTyped bs pd v = Ok (bs1, logs) ->
  exists cur, getProp bs pd = Ok cur /\
    if jsStrictEq v cur then bs1 = bs /\ logs = []
    else agree_on (fun j => j < byteOffset pd) (buf (setDirty bs (propNum pd))) (buf bs1) /\
         bs_class bs1 = bs_class bs.
Proof.
  intros Hbo. unfold setTyped.
  destruct (type pd) eqn:Ht, v as [|x|x|x]; try discriminate;
    destruct (getProp bs pd) as [cur|e]; cbn [bind]; try discriminate;
    intros H; exists cur; split; try reflexivity;
    destruct (jsStrictEq _ cur); try (inversion H; subst; auto; fail);
    simpl in Hbo.
  - destruct (MAX_STRING_SIZE <? Z.of_nat (length x)); cbv beta iota zeta in H;
      inversion H; subst; cbn [buf with_buf bs_class]; (split; [|reflexivity]);
      (eapply agree_on_trans;
       [|apply u16_write_chars_agree; intros j Hj; cbv beta in Hj; lia];
       apply u16_set_agree; intros j Hj; cbv beta in Hj; lia).
  - inversion H; subst; cbn [buf with_buf bs_class]. split; [|reflexivity].
    apply f64_set_agree. intros j Hj. cbv beta in Hj. lia.
  - inversion H; subst; cbn [buf with_buf bs_class]. split; [|reflexivity].
    apply i32_set_agree. intros j Hj. cbv beta in Hj. lia.
  - inversion H; subst; cbn [buf with_buf bs_class]. split; [|reflexivity].
    apply i32_set_agree. intros j Hj. cbv beta in Hj. lia.
Qed.

Lemma byteLength_setDirty (bs : BufferStruct) (p : Z) :
  byteLength (buf (setDirty bs p)) = byteLength (buf bs).
Proof. apply byteLength_i32_set. Qed.

Lemma byteLength_setUndefined (bs : BufferStruct) (p : Z) (v : bool) :
  byteLength (buf (setUndefined bs p v)) = byteLength (buf bs).
Proof. apply byteLength_i32_set. Qed.

(** [setUndefined] leaves the dirty words alone. *)
Lemma isDirty_setUndefined (bs : BufferStruct) (p q : Z) (v : bool) :
  0 <= p -> 0 <= q < 64 ->
  isDirty (setUndefined bs p v) (Some q) = isDirty bs (Some q) /\
  isDirty (setUndefined bs p v) None = isDirty bs None.
Proof.
  intros Hp Hq. pose proof (maskWord_range p Hp).
  destruct (isDirty_agree bs (setUndefined bs p v) q) as [H1 H2]; [|lia|auto].
  apply setUndefined_agree. intros j Hj. lia.
Qed.

Lemma setTyped_dirty (bs bs1 : BufferStruct) (pd : PropDef) (v : jsval)
    (logs : list logmsg) :
  0 <= propNum pd < 64 -> 32 <= byteOffset pd ->
  byteOffset pd = offset pd * propAlign (type pd) ->
  32 <= byteLength (buf bs) ->
  setTyped bs pd v = Ok (bs1, logs) ->
  (forall cur, getProp bs pd = Ok cur -> jsStrictEq v cur = true ->
     isDirty bs (Some (propNum pd)) = true /\ isDirty bs None = true) ->
  isDirty bs1 (Some (propNum pd)) = true /\ isDirty bs1 None = true /\
  byteLength (buf bs1) = byteLength (buf bs).
Proof.
  intros Hp Hbo Hal Hl Hset Hsame.
  destruct (setTyped_cases _ _ _ _ _ Hal Hset) as (cur & Hcur & Hc).
  destruct (jsStrictEq v cur) eqn:He.
  - destruct Hc as [-> ->]. destruct (Hsame cur Hcur He). auto.
  - destruct Hc as [Ha _].
    destruct (isDirty_setDirty bs (propNum pd) Hp Hl) as [H1 H2].
    destruct (isDirty_agree (setDirty bs (propNum pd)) bs1 (propNum pd)) as [E1 E2];
      [|exact Hp|].
    + apply (agree_on_weaken (fun j => j < byteOffset pd)); [intros j Hj; lia|exact Ha].
    + destruct Ha as [Hlen _]. rewrite byteLength_setDirty in Hlen.
      rewrite <- E1, <- E2. auto.
Qed.

Lemma example_struct_class : bs_class example_struct = example_class.
Proof. vm_compute. reflexivity. Qed.

Lemma u16_get_set_same (b : buffer) (i v : Z) :
  in_view b 2 i = true -> u16_get (u16_set b i v) i = Some (v mod 2 ^ 16).
Proof.
  intros Hv. unfold u16_get, u16_set. rewrite Hv.
  replace (in_view (store_le b (2 * i) 2 v) 2 i) with true by (symmetry; exact Hv).
  rewrite load_store_same. reflexivity.
Qed.

Lemma byteLength_u16_set (b : buffer) (i v : Z) : byteLength (u16_set b i v) = byteLength b.
Proof.
  symmetry. apply (u16_set_agree (fun _ => False)). intros j [].
Qed.

Lemma byteLength_u16_write_chars (b : buffer) (i : Z) (cs : jsstring) :
  byteLength (u16_write_chars b i cs) = byteLength b.
Proof.
  symmetry. apply (u16_write_chars_agree (fun _ => False)). intros j [].
Qed.

Lemma u16_slice_length (b : buffer) (start : Z) (n : nat) :
  (length (u16_slice b start n) <= n)%nat.
Proof.
  revert start. induction n as [|n IH]; intros start; simpl; [lia|].
  destruct (u16_get b start); simpl; [specialize (IH (start + 1))|]; lia.
Qed.

(** Code units written by [u16_write_chars] are read back by [u16_slice]. *)
Lemma u16_slice_write (b : buffer) (i : Z) (cs : jsstring) :
  Forall (fun c => 0 <= c < 65536) cs -> 0 <= i ->
  2 * (i + Z.of_nat (length cs)) <= byteLength b ->
  u16_slice (u16_write_chars b i cs) i (length cs) = cs.
Proof.
  revert b i. induction cs as [|c cs IH]; intros b i Hcs Hi Hl; [reflexivity|].
  inversion Hcs as [|? ? Hc Hcs']; subst. simpl length in Hl.
  cbn [u16_slice length u16_write_chars].
  assert (Hv : in_view b 2 i = true) by (apply in_view_intro; lia).
  rewrite <- (u16_get_agree (fun j => j < 2 * (i + 1)) (u16_set b i c)).
  - rewrite u16_get_set_same by exact Hv. rewrite Z.mod_small by (simpl; lia).
    f_equal. apply IH; [exact Hcs'|lia|]. rewrite byteLength_u16_set. lia.
  - apply u16_write_chars_agree. intros j Hj. exact Hj.
  - intros j Hj. lia.
Qed.

Lemma getProp_string_length (bs : BufferStruct) (pd : PropDef) (s : jsstring) :
  type pd = PString -> getProp bs pd = Ok (JStr s) -> (length s <= 255)%nat.
Proof.
  intros Ht. unfold getProp.
  destruct (allowUndefined pd && isUndefined bs (propNum pd)); [discriminate|].
  rewrite Ht. destruct (u16_get (buf bs) (offset pd)) as [len|];
    [|intros H; inversion H; simpl; lia].
  destruct (len =? 0); [intros H; inversion H; simpl; lia|].
  destruct (MAX_STRING_SIZE <? len) eqn:Hm; [discriminate|].
  unfold MAX_STRING_SIZE in Hm. apply Z.ltb_ge in Hm.
  intros H. inversion H.
  pose proof (u16_slice_length (buf bs) (offset pd + 1) (Z.to_nat len)). lia.
Qed.

(** The buffer left by the string branch of [setTyped] reads back the
    written code units. *)
Lemma string_write_get (bs : BufferStruct) (pd : PropDef) (cs : jsstring) (L : Z) :
  type pd = PString -> 0 <= propNum pd ->
  40 + 4 * propNum pd <= byteOffset pd -> byteOffset pd = offset pd * 2 ->
  byteOffset pd + 512 <= byteLength (buf bs) ->
  L = Z.of_nat (length cs) -> L <= 255 ->
  Forall (fun c => 0 <= c < 65536) cs ->
  (allowUndefined pd && isUndefined bs (propNum pd)) = false ->
  getProp (with_buf (setDirty bs (propNum pd))
             (u16_write_chars (u16_set (buf (setDirty bs (propNum pd))) (offset pd) L)
                (offset pd + 1) cs)) pd = Ok (JStr cs).
Proof.
  intros Ht Hp Hbo Hal Hlen HL HL255 Hcs HU.
  pose proof (maskWord_range _ Hp) as Hw.
  set (b1 := buf (setDirty bs (propNum pd))).
  set (b2 := u16_set b1 (offset pd) L).
  assert (Hl1 : byteLength b1 = byteLength (buf bs)) by apply byteLength_setDirty.
  assert (Hl2 : byteLength b2 = byteLength (buf bs)) by (unfold b2; rewrite byteLength_u16_set; exact Hl1).
  unfold getProp.
  rewrite (isUndefined_agree (fun j => 32 + 4 * maskWord (propNum pd) <= j < 36 + 4 * maskWord (propNum pd))
             _ bs (propNum pd)); [rewrite HU; rewrite Ht| |intros j Hj; exact Hj].
  - cbn [buf with_buf].
    rewrite <- (u16_get_agree (fun j => j < 2 * (offset pd + 1)) b2).
    + unfold b2. rewrite u16_get_set_same by (apply in_view_intro; lia).
      rewrite Z.mod_small by (simpl; lia).
      destruct (L =? 0) eqn:H0.
      * apply Z.eqb_eq in H0. destruct cs; [reflexivity|simpl in HL; lia].
      * destruct (MAX_STRING_SIZE <? L) eqn:Hm; [unfold MAX_STRING_SIZE in Hm; apply Z.ltb_lt in Hm; lia|].
        rewrite HL, Nat2Z.id. rewrite u16_slice_write; [reflexivity|exact Hcs|lia|rewrite byteLength_u16_set; lia].
    + apply u16_write_chars_agree. intros j Hj. exact Hj.
    + intros j Hj. lia.
  - cbn [buf with_buf]. apply agree_on_sym.
    apply (agree_on_trans _ _ b1).
    { apply setDirty_agree. intros j Hj. lia. }
    apply (agree_on_trans _ _ b2).
    { apply u16_set_agree. intros j Hj. lia. }
    apply u16_write_chars_agree. intros j Hj. lia.
Qed.

Lemma setTyped_string_get (bs bs1 : BufferStruct) (pd : PropDef) (s : jsstring)
    (logs : list logmsg) :
  type pd = PString -> 0 <= propNum pd ->
  40 + 4 * propNum pd <= byteOffset pd -> byteOffset pd = offset pd * 2 ->
  byteOffset pd + 512 <= byteLength (buf bs) ->
  Forall (fun c => 0 <= c < 65536) s ->
  (allowUndefined pd && isUndefined bs (propNum pd)) = false ->
  setTyped bs pd (JStr s) = Ok (bs1, logs) ->
  getProp bs1 pd = Ok (JStr (firstn 255 s)) /\
  logs = (if 255 <? Z.of_nat (length s) then [LogTextTooLong (Z.of_nat (length s))] else []).
Proof.
  intros Ht Hp Hbo Hal Hlen Hs HU Hset.
  unfold setTyped in Hset. rewrite Ht in Hset.
  destruct (getProp bs pd) as [cur|e] eqn:Hcur; cbn [bind] in Hset; [|discriminate].
  destruct (jsStrictEq (JStr s) cur) eqn:He.
  - inversion Hset; subst. destruct cur; try discriminate. simpl in He.
    apply bool_decide_eq_true in He. subst.
    pose proof (getProp_string_length _ _ _ Ht Hcur).
    rewrite firstn_all2 by lia. split; [exact Hcur|].
    destruct (255 <? _) eqn:Hm; [apply Z.ltb_lt in Hm; lia|reflexivity].
  - unfold MAX_STRING_SIZE in Hset.
    destruct (255 <? Z.of_nat (length s)) eqn:Hm; cbv beta iota zeta in Hset;
      inversion Hset; subst; clear Hset; (split; [|reflexivity]).
    + apply Z.ltb_lt in Hm.
      apply string_write_get; auto.
      * rewrite length_firstn. lia.
      * lia.
      * apply Forall_take. exact Hs.
    + apply Z.ltb_ge in Hm. rewrite !firstn_all2 by lia.
      apply string_write_get; auto.
Qed.

(** A write of a non-undefined value [===] to the current one, on a
    property not in the undefined state, returns the struct as it was. *)
Lemma setProp_same_typed (bs : BufferStruct) (pd : PropDef) (v cur : jsval) :
  (allowUndefined pd && isUndefined bs (propNum pd)) = false -> v <> JUndef ->
  getProp bs pd = Ok cur -> jsStrictEq v cur = true ->
  setProp bs pd v = Ok (bs, []).
Proof.
  intros HU Hv Hcur He.
  assert (Hst : setTyped bs pd v = Ok (bs, [])).
  { unfold setTyped.
    destruct (type pd) eqn:Ht, v as [|x|x|x]; try contradiction;
      try (rewrite Hcur; cbn [bind]; rewrite He; reflexivity);
      unfold getProp in Hcur; rewrite HU, Ht in Hcur;
      repeat match type of Hcur with
             | context [match ?e with _ => _ end] => destruct e
             | context [if ?e then _ else _] => destruct e
             end;
      inversion Hcur; subst; discriminate. }
  unfold setProp. destruct (allowUndefined pd) eqn:Hu; [|exact Hst].
  simpl in HU. cbv zeta. rewrite HU. destruct v; [contradiction|exact Hst..].
Qed.

Lemma setProp_marks_dirty_changed (bs : BufferStruct) (i : nat) (pd : PropDef)
    (v cur : jsval) (bs1 : BufferStruct) (logs : list logmsg) :
  built_class (bs_class bs) ->
  cls_size (bs_class bs) <= byteLength (buf bs) ->
  cls_propDefs (bs_class bs) !! i = Some pd -> (i < 64)%nat ->
  getProp bs pd = Ok cur -> jsStrictEq v cur = false ->
  setProp bs pd v = Ok (bs1, logs) ->
  isDirty bs1 (Some (propNum pd)) = true /\ isDirty bs1 None = true /\
  isDirty (resetDirty bs1) (Some (propNum pd)) = false /\
  isDirty (resetDirty bs1) None = false.
Proof.
  intros Hb Hcov Hpd Hi Hcur Hne Hset.
  pose proof (built_class_layout_inv _ Hb) as Hli.
  destruct (li_prop _ Hli i pd Hpd) as (Hpn & Hbo & Hal & _ & _).
  pose proof (li_size_min _ Hli) as Hmin.
  assert (Hp : 0 <= propNum pd < 64) by lia.
  assert (Hl : 32 <= byteLength (buf bs)) by lia.
  cut (isDirty bs1 (Some (propNum pd)) = true /\ isDirty bs1 None = true /\
       byteLength (buf bs1) = byteLength (buf bs)).
  { intros (H1 & H2 & H3).
    destruct (resetDirty_clean bs1 (propNum pd) Hp ltac:(lia)). auto. }
  assert (Hother : forall b, setTyped bs pd v = Ok (bs1, logs) -> b = bs ->
    isDirty bs1 (Some (propNum pd)) = true /\ isDirty bs1 None = true /\
    byteLength (buf bs1) = byteLength (buf bs)).
  { intros b Hs _. apply (setTyped_dirty bs bs1 pd v logs Hp ltac:(lia) Hal Hl Hs).
    intros cur' Hcur' He. rewrite Hcur in Hcur'. inversion Hcur'; subst.
    rewrite Hne in He. discriminate. }
  pose proof (maskWord_range (propNum pd) ltac:(lia)) as Hw.
  destruct (isDirty_setDirty bs (propNum pd) Hp Hl) as [D1 D2].
  unfold setProp in Hset.
  destruct (allowUndefined pd) eqn:Hu; [|exact (Hother bs Hset eq_refl)].
  destruct (isUndefined bs (propNum pd)) eqn:HisU.
  - assert (Hv : v <> JUndef).
    { intros ->. unfold getProp in Hcur. rewrite Hu, HisU in Hcur.
      simpl in Hcur. inversion Hcur; subst. discriminate. }
    set (bs' := setUndefined (setDirty bs (propNum pd)) (propNum pd) false).
    assert (Hl' : byteLength (buf bs') = byteLength (buf bs)).
    { unfold bs'. rewrite byteLength_setUndefined. apply byteLength_setDirty. }
    destruct (isDirty_setUndefined (setDirty bs (propNum pd)) (propNum pd) (propNum pd) false
      ltac:(lia) Hp) as [U1 U2].
    assert (Hs : setTyped bs' pd v = Ok (bs1, logs)) by (destruct v; [congruence|..]; exact Hset).
    destruct (setTyped_dirty bs' bs1 pd v logs Hp ltac:(lia) Hal ltac:(lia) Hs) as (H1 & H2 & H3).
    + intros _ _ _. unfold bs'. rewrite U1, U2. auto.
    + rewrite H3 in *. auto.
  - destruct v; [|exact (Hother bs Hset eq_refl)..].
    inversion Hset; subst.
    destruct (isDirty_setUndefined (setDirty bs (propNum pd)) (propNum pd) (propNum pd) true
      ltac:(lia) Hp) as [U1 U2].
    rewrite U1, U2, byteLength_setUndefined, byteLength_setDirty. auto.
Qed.

Lemma getProp_defined (bs : BufferStruct) (i : nat) (pd : PropDef) :
  built_class (bs_class bs) -> cls_size (bs_class bs) <= byteLength (buf bs) ->
  cls_propDefs (bs_class bs) !! i = Some pd ->
  (allowUndefined pd && isUndefined bs (propNum pd)) = false ->
  getProp bs pd <> Ok JUndef.
Proof.
  intros Hb Hcov Hpd HU.
  pose proof (built_class_layout_inv _ Hb) as Hli.
  destruct (li_prop _ Hli i pd Hpd) as (_ & Hbo & Hal & Hsz & Hend).
  unfold propEnd in Hend.
  unfold getProp. rewrite HU.
  destruct (type pd) eqn:Ht; simpl in Hal, Hsz.
  - destruct (u16_get _ _) as [len|]; [|discriminate].
    destruct (len =? 0); [discriminate|]. destruct (MAX_STRING_SIZE <? len); discriminate.
  - unfold f64_get. rewrite in_view_intro by lia. discriminate.
  - discriminate.
  - unfold i32_get. rewrite in_view_intro by lia. discriminate.
Qed.

Lemma setProp_same_value_early (bs : BufferStruct) (i : nat) (pd : PropDef) (v cur : jsval) :
  built_class (bs_class bs) -> cls_size (bs_class bs) <= byteLength (buf bs) ->
  cls_propDefs (bs_class bs) !! i = Some pd ->
  getProp bs pd = Ok cur -> jsStrictEq v cur = true ->
  setProp bs pd v = Ok (bs, []).
Proof.
  intros Hb Hcov Hpd Hcur He.
  destruct (allowUndefined pd && isUndefined bs (propNum pd)) eqn:HU.
  - apply andb_prop in HU as [Hu HisU].
    unfold getProp in Hcur. rewrite Hu, HisU in Hcur. simpl in Hcur.
    inversion Hcur; subst cur.
    destruct v; try discriminate.
    unfold setProp. cbv zeta. rewrite Hu, HisU. reflexivity.
  - destruct v as [|x|x|x].
    + destruct cur; try discriminate.
      exfalso. exact (getProp_defined bs i pd Hb Hcov Hpd HU Hcur).
    + apply (setProp_same_typed bs pd (JNum x) cur HU ltac:(discriminate) Hcur He).
    + apply (setProp_same_typed bs pd (JBool x) cur HU ltac:(discriminate) Hcur He).
    + apply (setProp_same_typed bs pd (JStr x) cur HU ltac:(discriminate) Hcur He).
Qed.

(** C1: on a struct of a built class whose buffer covers the class size,
    for a property among the first 64 that currently reads [cur]: a
    successful write of a value not [===] to [cur] sets the property's
    dirty bit and makes [isDirty()] true, and after [resetDirty()] both
    read false; a write of a value [===] to [cur] returns early and leaves
    the struct (its dirty bits included) unchanged. *)
Theorem setProp_marks_dirty (bs : BufferStruct) (i : nat) (pd : PropDef) (cur : jsval) :
  built_class (bs_class bs) ->
  cls_size (bs_class bs) <= byteLength (buf bs) ->
  cls_propDefs (bs_class bs) !! i = Some pd -> (i < 64)%nat ->
  getProp bs pd = Ok cur ->
  (forall v bs1 logs, jsStrictEq v cur = false -> setProp bs pd v = Ok (bs1, logs) ->
     isDirty bs1 (Some (propNum pd)) = true /\ isDirty bs1 None = true /\
     isDirty (resetDirty bs1) (Some (propNum pd)) = false /\
     isDirty (resetDirty bs1) None = false) /\
  (forall v, jsStrictEq v cur = true -> setProp bs pd v = Ok (bs, [])).
Proof.
  intros Hb Hcov Hpd Hi Hcur. split.
  - intros v bs1 logs Hne Hset.
    exact (setProp_marks_dirty_changed bs i pd v cur bs1 logs Hb Hcov Hpd Hi Hcur Hne Hset).
  - intros v He. exact (setProp_same_value_early bs i pd v cur Hb Hcov Hpd Hcur He).
Qed.


Lemma setProp_marks_dirty_witness : exists bs1 logs,
  setProp example_struct (example_prop 0) (JNum (int_to_f64bits 5)) = Ok (bs1, logs) /\
  isDirty bs1 (Some (propNum (example_prop 0))) = true /\
  isDirty bs1 None = true /\
  isDirty (resetDirty bs1) (Some (propNum (example_prop 0))) = false /\
  isDirty (resetDirty bs1) None = false /\
  setProp example_struct (example_prop 0) (JNum 0) = Ok (example_struct, []).
Proof.
  destruct (res_ok_check (setProp example_struct (example_prop 0) (JNum (int_to_f64bits 5)))
    (fun _ => true)) as [[bs1 logs] [Es _]]; [vm_compute; reflexivity|].
  assert (Hb : built_class (bs_class example_struct))
    by (rewrite example_struct_class; apply example_class_built).
  assert (Hcov : cls_size (bs_class example_struct) <= byteLength (buf example_struct))
    by (vm_compute; discriminate).
  assert (Hpd : cls_propDefs (bs_class example_struct) !! 0%nat = Some (example_prop 0))
    by (vm_compute; reflexivity).
  assert (Hcur : getProp example_struct (example_prop 0) = Ok (JNum 0))
    by (vm_compute; reflexivity).
  destruct (setProp_marks_dirty example_struct 0 (example_prop 0) (JNum 0) Hb Hcov Hpd
              ltac:(lia) Hcur) as [Hch Hsame].
  exists bs1, logs. split; [exact Es|].
  destruct (Hch (JNum (int_to_f64bits 5)) bs1 logs ltac:(vm_compute; reflexivity) Es)
    as (H1 & H2 & H3 & H4).
  split; [exact H1|]. split; [exact H2|]. split; [exact H3|]. split; [exact H4|].
  apply Hsame. vm_compute. reflexivity.
Defined.

(** C1, as worded: on the fresh struct, writing 0 to the number property
    [a] (which already reads 0) succeeds and leaves no dirty bit. *)
Lemma setProp_same_value_clean_cex : exists cls',
  construct example_class None 1 7 = Ok (cls', example_struct) /\
  setProp example_struct (example_prop 0) (JNum 0) = Ok (example_struct, []) /\
  isDirty example_struct (Some (propNum (example_prop 0))) = false /\
  isDirty example_struct None = false.
Proof.
  destruct (res_ok_check (construct example_class None 1 7) (fun _ => true))
    as [[cls' bs] [Ec _]]; [vm_compute; reflexivity|].
  exists cls'. split.
  - unfold example_struct. rewrite Ec. reflexivity.
  - split; [|split; vm_compute; reflexivity].
    apply (setProp_same_typed _ _ _ (JNum 0)).
    + vm_compute. reflexivity.
    + discriminate.
    + vm_compute. reflexivity.
    + vm_compute. reflexivity.
Qed.

Lemma string_prop_set_get_ok (bs : BufferStruct) (i : nat) (pd : PropDef)
    (s : jsstring) (bs1 : BufferStruct) (logs : list logmsg) :
  built_class (bs_class bs) ->
  cls_size (bs_class bs) <= byteLength (buf bs) ->
  cls_propDefs (bs_class bs) !! i = Some pd -> type pd = PString ->
  Forall (fun c => 0 <= c < 65536) s ->
  setProp bs pd (JStr s) = Ok (bs1, logs) ->
  getProp bs1 pd = Ok (JStr (firstn 255 s)) /\
  logs = (if 255 <? Z.of_nat (length s) then [LogTextTooLong (Z.of_nat (length s))] else []).
Proof.
  intros Hb Hcov Hpd Ht Hs Hset.
  pose proof (built_class_layout_inv _ Hb) as Hli.
  destruct (li_prop _ Hli i pd Hpd) as (Hpn & Hbo & Hal & Hsz & Hend).
  rewrite Ht in Hal, Hsz. simpl in Hal.
  unfold propEnd in Hend. rewrite Hsz in Hend.
  assert (Hp : 0 <= propNum pd) by lia.
  pose proof (maskWord_range _ Hp) as Hw.
  unfold setProp in Hset.
  destruct (allowUndefined pd) eqn:Hu;
    [|apply (setTyped_string_get bs); auto; try lia; rewrite Hu; reflexivity].
  destruct (isUndefined bs (propNum pd)) eqn:HisU;
    [|apply (setTyped_string_get bs); auto; try lia; rewrite Hu, HisU; reflexivity].
  apply (setTyped_string_get (setUndefined (setDirty bs (propNum pd)) (propNum pd) false)); auto; try lia.
  - rewrite byteLength_setUndefined, byteLength_setDirty. lia.
  - rewrite isUndefined_setUndefined_false; [apply andb_false_r|lia|].
    rewrite byteLength_setDirty. unfold UNDEFINED_INT32_INDEX. lia.
Qed.

Lemma getProp_string_err (bs : BufferStruct) (pd : PropDef) :
  type pd = PString -> (allowUndefined pd && isUndefined bs (propNum pd)) = false ->
  ((exists e, getProp bs pd = Err e) <->
   exists len, u16_get (buf bs) (offset pd) = Some len /\ MAX_STRING_SIZE < len).
Proof.
  intros Ht HU. unfold getProp. rewrite HU, Ht.
  destruct (u16_get (buf bs) (offset pd)) as [len|].
  - destruct (Z.eqb_spec len 0) as [H0|H0].
    + split; [intros [e He]; discriminate|]. intros (l & [= <-] & Hl).
      unfold MAX_STRING_SIZE in Hl. lia.
    + destruct (Z.ltb_spec MAX_STRING_SIZE len) as [Hl|Hl].
      * split; [intros _; eauto|intros _; eauto].
      * split; [intros [e He]; discriminate|]. intros (l & [= <-] & Hl'). lia.
  - split; [intros [e He]; discriminate|]. intros (l & Hl & _). discriminate.
Qed.

Lemma setTyped_string_err (bs : BufferStruct) (pd : PropDef) (s : jsstring) :
  type pd = PString ->
  ((exists e, setTyped bs pd (JStr s) = Err e) <-> (exists e, getProp bs pd = Err e)).
Proof.
  intros Ht. unfold setTyped. rewrite Ht.
  destruct (getProp bs pd) as [cur|e]; cbn [bind].
  - split; [|intros [e He]; discriminate]. intros [e He].
    destruct (jsStrictEq (JStr s) cur); [discriminate|].
    destruct (MAX_STRING_SIZE <? Z.of_nat (length s)); discriminate.
  - split; intros _; eauto.
Qed.

(** C7: for a string property of a struct of a built class whose buffer
    covers the class size, and a string [s] of UTF-16 code units: after a
    successful assignment of [s] the property reads the first
    min(length s, 255) code units of [s], and a [TextTooLong] warning is
    logged exactly when [s] is longer than 255; the assignment fails
    exactly when the slot's 16-bit length word exceeds 255 (the getter the
    setter's [===] comparison calls throws on it). *)
Theorem string_prop_set_get (bs : BufferStruct) (i : nat) (pd : PropDef) (s : jsstring) :
  built_class (bs_class bs) ->
  cls_size (bs_class bs) <= byteLength (buf bs) ->
  cls_propDefs (bs_class bs) !! i = Some pd -> type pd = PString ->
  Forall (fun c => 0 <= c < 65536) s ->
  (forall bs1 logs, setProp bs pd (JStr s) = Ok (bs1, logs) ->
     getProp bs1 pd = Ok (JStr (firstn 255 s)) /\
     logs = (if 255 <? Z.of_nat (length s) then [LogTextTooLong (Z.of_nat (length s))] else [])) /\
  ((exists e, setProp bs pd (JStr s) = Err e) <->
   exists len, u16_get (buf bs) (offset pd) = Some len /\ MAX_STRING_SIZE < len).
Proof.
  intros Hb Hcov Hpd Ht Hs. split.
  - intros bs1 logs. exact (string_prop_set_get_ok bs i pd s bs1 logs Hb Hcov Hpd Ht Hs).
  - pose proof (built_class_layout_inv _ Hb) as Hli.
    destruct (li_prop _ Hli i pd Hpd) as (Hpn & Hbo & Hal & Hsz & Hend).
    rewrite Ht in Hal, Hsz. simpl in Hal.
    unfold propEnd in Hend. rewrite Hsz in Hend.
    assert (Hp : 0 <= propNum pd) by lia.
    pose proof (maskWord_range _ Hp) as Hw.
    unfold setProp. cbv zeta.
    destruct (allowUndefined pd) eqn:Hu.
    + destruct (isUndefined bs (propNum pd)) eqn:HisU.
      * set (bs' := setUndefined (setDirty bs (propNum pd)) (propNum pd) false).
        rewrite (setTyped_string_err bs' pd s Ht).
        rewrite (getProp_string_err bs' pd Ht).
        2:{ rewrite Hu. unfold bs'. rewrite isUndefined_setUndefined_false; [reflexivity|lia|].
            rewrite byteLength_setDirty. unfold UNDEFINED_INT32_INDEX. lia. }
        replace (u16_get (buf bs') (offset pd)) with (u16_get (buf bs) (offset pd));
          [reflexivity|].
        apply (u16_get_agree (fun j => 40 + 4 * propNum pd <= j)).
        -- apply (agree_on_trans _ _ (buf (setDirty bs (propNum pd)))); unfold bs'.
           ++ apply setDirty_agree. intros j Hj. cbv beta in Hj. right. unfold maskWord in *.
              Z.div_mod_to_equations. lia.
           ++ apply setUndefined_agree. intros j Hj. cbv beta in Hj. right. unfold maskWord in *.
              Z.div_mod_to_equations. lia.
        -- intros j Hj. lia.
      * rewrite (setTyped_string_err bs pd s Ht).
        apply getProp_string_err; [exact Ht|rewrite Hu, HisU; reflexivity].
    + rewrite (setTyped_string_err bs pd s Ht).
      apply getProp_string_err; [exact Ht|rewrite Hu; reflexivity].
Qed.


Lemma string_prop_set_get_witness : exists bs1 logs,
  setProp example_struct (example_prop 1) (JStr (repeat 65 300)) = Ok (bs1, logs) /\
  getProp bs1 (example_prop 1) = Ok (JStr (firstn 255 (repeat 65 300))) /\
  logs = [LogTextTooLong 300].
Proof.
  destruct (res_ok_check (setProp example_struct (example_prop 1) (JStr (repeat 65 300)))
    (fun _ => true)) as [[bs1 logs] [Es _]]; [vm_compute; reflexivity|].
  exists bs1, logs. split; [exact Es|].
  apply (proj1 (string_prop_set_get example_struct 1 (example_prop 1) (repeat 65 300)
    ltac:(rewrite example_struct_class; apply example_class_built)
    ltac:(vm_compute; discriminate) ltac:(vm_compute; reflexivity)
    ltac:(vm_compute; reflexivity)
    ltac:(apply List.Forall_forall; intros x Hx; apply repeat_spec in Hx; subst; lia))
    bs1 logs Es).
Defined.

Lemma res_err_check {A} (r : res A) :
  match r with Err ETextTooLong => true | _ => false end = true -> r = Err ETextTooLong.
Proof. destruct r as [a|[]]; simpl; congruence. Qed.

(** C7, as worded: over an existing 56-byte buffer (a multiple of 8, at
    least 40, with the right type id) the slot of [s] has room for 3 code
    units only; writing "HELLO" reads back "HEL".  And over an existing
    568-byte buffer (covering the class) whose length word for [s] holds
    300, both reading [s] and assigning it fail with [TextTooLong]. *)
Lemma string_prop_short_buffer_cex : exists cls' bs1 logs,
  construct example_class (Some (i32_set (newBuffer 56) 0 1145258561)) 1 7 =
    Ok (cls', short_struct) /\
  type (example_prop 1) = PString /\
  getProp short_struct (example_prop 1) = Ok (JStr []) /\
  setProp short_struct (example_prop 1) (JStr [72; 69; 76; 76; 79]) = Ok (bs1, logs) /\
  logs = [] /\
  getProp bs1 (example_prop 1) = Ok (JStr [72; 69; 76]) /\
  exists cls2 bs2,
    construct example_class
      (Some (u16_set (i32_set (newBuffer 568) 0 1145258561) (offset (example_prop 1)) 300)) 1 7
      = Ok (cls2, bs2) /\
    cls_size cls2 <= byteLength (buf bs2) /\
    getProp bs2 (example_prop 1) = Err ETextTooLong /\
    setProp bs2 (example_prop 1) (JStr [72]) = Err ETextTooLong.
Proof.
  destruct (res_ok_check (construct example_class (Some (i32_set (newBuffer 56) 0 1145258561)) 1 7)
    (fun _ => true)) as [[cls' bs] [Ec _]]; [vm_compute; reflexivity|].
  destruct (res_ok_check (setProp short_struct (example_prop 1) (JStr [72; 69; 76; 76; 79]))
    (fun '(b, logs) => bool_decide (logs = []) &&
       bool_decide (getProp b (example_prop 1) = Ok (JStr [72; 69; 76]))))
    as [[bs1 logs] [Es Hc]]; [vm_compute; reflexivity|].
  apply andb_prop in Hc as [Hl Hg]. apply bool_decide_eq_true in Hl, Hg.
  exists cls', bs1, logs. split; [unfold short_struct; rewrite Ec; reflexivity|].
  split; [vm_compute; reflexivity|]. split; [vm_compute; reflexivity|].
  split; [exact Es|]. split; [exact Hl|]. split; [exact Hg|].
  clear Ec Es Hl Hg.
  destruct (res_ok_check (construct example_class
    (Some (u16_set (i32_set (newBuffer 568) 0 1145258561) (offset (example_prop 1)) 300)) 1 7)
    (fun '(c, b) => (cls_size c <=? byteLength (buf b)) &&
       bool_decide (getProp b (example_prop 1) = Err ETextTooLong) &&
       match setProp b (example_prop 1) (JStr [72]) with Err ETextTooLong => true | _ => false end))
    as [[cls2 bs2] [Ec2 Hc]]; [vm_compute; reflexivity|].
  apply andb_prop in Hc as [Hc H3]. apply andb_prop in Hc as [H1 H2].
  apply Z.leb_le in H1. apply bool_decide_eq_true in H2.
  exists cls2, bs2. split; [exact Ec2|]. split; [exact H1|]. split; [exact H2|].
  exact (res_err_check _ H3).
Qed.

Lemma nan_redirty (bs : BufferStruct) (i : nat) (pd : PropDef) (y x : Z) :
  built_class (bs_class bs) -> cls_size (bs_class bs) <= byteLength (buf bs) ->
  cls_propDefs (bs_class bs) !! i = Some pd -> (i < 64)%nat -> type pd = PNumber ->
  getProp bs pd = Ok (JNum y) -> f64_isNaN y = true ->
  exists bs1 logs, setProp bs pd (JNum x) = Ok (bs1, logs) /\
    isDirty bs1 (Some (propNum pd)) = true /\ isDirty bs1 None = true.
Proof.
  intros Hb Hcov Hpd Hi Ht Hcur Hnan.
  assert (Hne : jsStrictEq (JNum x) (JNum y) = false).
  { simpl. unfold f64_eqb. rewrite Hnan. simpl. rewrite andb_false_r. reflexivity. }
  assert (HU : (allowUndefined pd && isUndefined bs (propNum pd)) = false).
  { destruct (allowUndefined pd && isUndefined bs (propNum pd)) eqn:HU; [|reflexivity].
    unfold getProp in Hcur. rewrite HU in Hcur. discriminate. }
  assert (Hs : exists r, setProp bs pd (JNum x) = Ok r).
  { unfold setProp. cbv zeta.
    destruct (allowUndefined pd) eqn:Hu.
    - simpl in HU. rewrite HU. unfold setTyped. rewrite Ht, Hcur. cbn [bind].
      rewrite Hne. eauto.
    - unfold setTyped. rewrite Ht, Hcur. cbn [bind]. rewrite Hne. eauto. }
  destruct Hs as [[bs1 logs] Hs]. exists bs1, logs. split; [exact Hs|].
  destruct (setProp_marks_dirty_changed bs i pd (JNum x) (JNum y) bs1 logs Hb Hcov Hpd Hi Hcur Hne Hs)
    as (H1 & H2 & _). auto.
Qed.

(** C8: a write of a non-undefined value that is [===] to the value the
    getter returns, on a property not in the undefined state, leaves the
    struct (dirty words included) unchanged; writing undefined to a
    nullable property in the undefined state leaves it unchanged too.  A
    stored NaN is not [===] to anything: on a struct of a built class
    whose buffer covers the class size, when a number property among the
    first 64 reads a NaN, every number write to it, the same NaN included,
    succeeds and sets its dirty bit and [isDirty()]. *)
Theorem setProp_same_value_noop (bs : BufferStruct) (pd : PropDef) :
  (forall v cur,
     (allowUndefined pd && isUndefined bs (propNum pd)) = false -> v <> JUndef ->
     getProp bs pd = Ok cur -> jsStrictEq v cur = true ->
     setProp bs pd v = Ok (bs, [])) /\
  ((allowUndefined pd && isUndefined bs (propNum pd)) = true ->
     setProp bs pd JUndef = Ok (bs, [])) /\
  (forall (i : nat) (y x : Z),
     built_class (bs_class bs) -> cls_size (bs_class bs) <= byteLength (buf bs) ->
     cls_propDefs (bs_class bs) !! i = Some pd -> (i < 64)%nat -> type pd = PNumber ->
     getProp bs pd = Ok (JNum y) -> f64_isNaN y = true ->
     exists bs1 logs, setProp bs pd (JNum x) = Ok (bs1, logs) /\
       isDirty bs1 (Some (propNum pd)) = true /\ isDirty bs1 None = true).
Proof.
  split; [|split].
  - intros v cur. apply setProp_same_typed.
  - intros H. apply andb_prop in H as [Hu HisU].
    unfold setProp. cbv zeta. rewrite Hu, HisU. reflexivity.
  - intros i y x. apply nan_redirty.
Qed.

Lemma setProp_same_value_noop_witness :
  setProp example_struct (example_prop 2) (JNum (int_to_f64bits 0)) = Ok (example_struct, []) /\
  (exists bs1 logs, setProp example_struct (example_prop 1) JUndef = Ok (bs1, logs) /\
     setProp bs1 (example_prop 1) JUndef = Ok (bs1, [])).
Proof.
  split.
  - apply (proj1 (setProp_same_value_noop example_struct (example_prop 2))
             _ (JNum (int_to_f64bits 0)));
      [vm_compute; reflexivity|discriminate|vm_compute; reflexivity|vm_compute; reflexivity].
  - destruct (res_ok_check (setProp example_struct (example_prop 1) JUndef)
      (fun '(b, _) => allowUndefined (example_prop 1) && isUndefined b (propNum (example_prop 1))))
      as [[bs1 logs] [Es Hc]]; [vm_compute; reflexivity|].
    exists bs1, logs. split; [exact Es|].
    apply (proj1 (proj2 (setProp_same_value_noop bs1 (example_prop 1)))). exact Hc.
Defined.

(** C8, as worded: a NaN stored in the number property [a] reads back as
    the same NaN, yet writing that NaN again sets the dirty bit (NaN is not
    [===] to itself). *)
Lemma setProp_nan_redirty_cex : exists bs1 logs1 bs2 logs2,
  setProp example_struct (example_prop 0) (JNum nan_bits) = Ok (bs1, logs1) /\
  getProp (resetDirty bs1) (example_prop 0) = Ok (JNum nan_bits) /\
  isDirty (resetDirty bs1) (Some (propNum (example_prop 0))) = false /\
  setProp (resetDirty bs1) (example_prop 0) (JNum nan_bits) = Ok (bs2, logs2) /\
  isDirty bs2 (Some (propNum (example_prop 0))) = true.
Proof.
  destruct (res_ok_check (setProp example_struct (example_prop 0) (JNum nan_bits))
    (fun '(b, _) =>
       bool_decide (getProp (resetDirty b) (example_prop 0) = Ok (JNum nan_bits)) &&
       negb (isDirty (resetDirty b) (Some (propNum (example_prop 0)))) &&
       match setProp (resetDirty b) (example_prop 0) (JNum nan_bits) with
       | Ok (b2, _) => isDirty b2 (Some (propNum (example_prop 0)))
       | Err _ => false
       end))
    as [[bs1 logs1] [Es Hc]]; [vm_compute; reflexivity|].
  apply andb_prop in Hc as [Hc H3]. apply andb_prop in Hc as [H1 H2].
  apply bool_decide_eq_true in H1. apply negb_true_iff in H2.
  destruct (res_ok_check _ (fun '(b2, _) => isDirty b2 (Some (propNum (example_prop 0)))) H3)
    as [[bs2 logs2] [Es2 H4]].
  exists bs1, logs1, bs2, logs2. auto.
Qed.

(* ------------------------------------------------------------------ *)
(** ** Further properties of the struct and the shared object *)

Lemma u16_write_chars_frame (P : Z -> Prop) (b : buffer) (i : Z) (cs : jsstring) :
  (forall j, P j -> j < 2 * i \/ 2 * (i + Z.of_nat (length cs)) <= j) ->
  agree_on P b (u16_write_chars b i cs).
Proof.
  revert b i. induction cs as [|c cs IH]; intros b i HP; simpl; simpl length in HP.
  - apply agree_on_refl.
  - apply agree_on_trans with (u16_set b i c).
    + apply u16_set_agree. intros j Hj. specialize (HP j Hj). lia.
    + apply IH. intros j Hj. specialize (HP j Hj). lia.
Qed.

Lemma getProp_agree (bs1 bs2 : BufferStruct) (pd : PropDef) :
  slot_ok pd ->
  agree_on (fun j => byteOffset pd <= j < propEnd pd) (buf bs1) (buf bs2) ->
  (allowUndefined pd = true -> isUndefined bs1 (propNum pd) = isUndefined bs2 (propNum pd)) ->
  getProp bs1 pd = getProp bs2 pd.
Proof.
  intros [Hal Hsz] Ha HU. unfold getProp.
  assert (E : allowUndefined pd && isUndefined bs1 (propNum pd) =
              allowUndefined pd && isUndefined bs2 (propNum pd)).
  { destruct (allowUndefined pd); [rewrite HU|]; reflexivity. }
  rewrite E. destruct (allowUndefined pd && isUndefined bs2 (propNum pd)); [reflexivity|].
  unfold propEnd in Ha. rewrite Hsz in Ha.
  destruct (type pd); simpl in Hal, Ha.
  - rewrite (u16_get_agree _ _ _ (offset pd) Ha) by (intros j Hj; lia).
    destruct (u16_get (buf bs2) (offset pd)) as [len|]; [|reflexivity].
    destruct (len =? 0) eqn:H0; [reflexivity|].
    destruct (MAX_STRING_SIZE <? len) eqn:Hm; [reflexivity|].
    unfold MAX_STRING_SIZE in Hm. apply Z.ltb_ge in Hm.
    rewrite (u16_slice_agree _ _ _ _ _ Ha); [reflexivity|].
    intros j Hj. destruct (Z.le_gt_cases 0 len); [|assert (Z.to_nat len = 0%nat) as Hz by lia; rewrite Hz in Hj; simpl in Hj; lia].
    rewrite Z2Nat.id in Hj by lia. lia.
  - rewrite (f64_get_agree _ _ _ (offset pd) Ha) by (intros j Hj; lia). reflexivity.
  - rewrite (i32_get_agree _ _ _ (offset pd) Ha) by (intros j Hj; lia). reflexivity.
  - rewrite (i32_get_agree _ _ _ (offset pd) Ha) by (intros j Hj; lia). reflexivity.
Qed.

(** Same-word bit update of the undefined mask. *)
Lemma isUndefined_setUndefined (bs : BufferStruct) (p q : Z) (v : bool) :
  0 <= p < 64 -> 0 <= q < 64 -> 40 <= byteLength (buf bs) ->
  isUndefined (setUndefined bs p v) q = if p =? q then v else isUndefined bs q.
Proof.
  intros Hp Hq Hl.
  pose proof (maskWord_range p ltac:(lia)). pose proof (maskWord_range q ltac:(lia)).
  pose proof (maskBit_range p ltac:(lia)). pose proof (maskBit_range q ltac:(lia)).
  assert (Hwp : maskWord p < 2) by (unfold maskWord in *; Z.div_mod_to_equations; lia).
  assert (Hwq : maskWord q < 2) by (unfold maskWord in *; Z.div_mod_to_equations; lia).
  destruct (Z.eq_dec (maskWord p) (maskWord q)) as [Hw|Hw].
  - rewrite !isUndefined_bit by lia.
    unfold setUndefined. cbn [buf with_buf].
    rewrite <- Hw. set (w := UNDEFINED_INT32_INDEX + maskWord p).
    assert (Hv : in_view (buf bs) 4 w = true).
    { apply in_view_intro; unfold w, UNDEFINED_INT32_INDEX; lia. }
    rewrite i32_raw_set_same by exact Hv.
    rewrite Z.mod_pow2_bits_low by lia.
    rewrite i32_operand_raw. fold w.
    assert (Hbit : Z.testbit (js_shl 1 (maskBit p)) (maskBit q) = (p =? q)).
    { rewrite js_shl_1_testbit by lia. rewrite (proj2 (Z.ltb_lt _ 32)) by lia.
      unfold maskBit. rewrite <- Hw.
      destruct (Z.eqb_spec p q); destruct (Z.eqb_spec (p - maskWord p * 32) (q - maskWord p * 32));
        auto; lia. }
    set (m := js_shl 1 (maskBit p)) in *. clearbody m.
    unfold js_and, js_not, js_or. destruct v;
    repeat first [rewrite toInt32_testbit by lia | rewrite Z.land_spec | rewrite Z.lor_spec
                 | rewrite Z.lnot_spec by lia].
    all: rewrite Hbit; destruct (p =? q); simpl;
      rewrite ?andb_true_r, ?andb_false_r, ?orb_true_r, ?orb_false_r; reflexivity.
  - replace (p =? q) with false by (symmetry; apply Z.eqb_neq; intros ->; auto).
    symmetry. apply (isUndefined_agree (fun j => 32 + 4 * maskWord q <= j < 36 + 4 * maskWord q)).
    + apply setUndefined_agree. intros j Hj. lia.
    + auto.
Qed.

Lemma isDirty_setDirty_gen (bs : BufferStruct) (p q : Z) :
  0 <= p < 64 -> 0 <= q < 64 -> 32 <= byteLength (buf bs) ->
  isDirty (setDirty bs p) (Some q) = (p =? q) || isDirty bs (Some q).
Proof.
  intros Hp Hq Hl.
  pose proof (maskWord_range p ltac:(lia)). pose proof (maskWord_range q ltac:(lia)).
  pose proof (maskBit_range p ltac:(lia)). pose proof (maskBit_range q ltac:(lia)).
  assert (Hwp : maskWord p < 2) by (unfold maskWord in *; Z.div_mod_to_equations; lia).
  assert (Hwq : maskWord q < 2) by (unfold maskWord in *; Z.div_mod_to_equations; lia).
  destruct (Z.eq_dec (maskWord p) (maskWord q)) as [Hw|Hw].
  - rewrite !isDirty_bit by lia.
    unfold setDirty. cbn [buf with_buf].
    rewrite <- Hw. set (w := DIRTY_INT32_INDEX + maskWord p).
    assert (Hv : in_view (buf bs) 4 w = true).
    { apply in_view_intro; unfold w, DIRTY_INT32_INDEX; lia. }
    rewrite i32_raw_set_same by exact Hv.
    rewrite Z.mod_pow2_bits_low by lia.
    rewrite i32_operand_raw. fold w.
    assert (Hbit : Z.testbit (js_shl 1 (maskBit p)) (maskBit q) = (p =? q)).
    { rewrite js_shl_1_testbit by lia. rewrite (proj2 (Z.ltb_lt _ 32)) by lia.
      unfold maskBit. rewrite <- Hw.
      destruct (Z.eqb_spec p q); destruct (Z.eqb_spec (p - maskWord p * 32) (q - maskWord p * 32));
        auto; lia. }
    set (m := js_shl 1 (maskBit p)) in *. clearbody m.
    unfold js_or.
    repeat first [rewrite toInt32_testbit by lia | rewrite Z.lor_spec].
    rewrite Hbit. apply orb_comm.
  - replace (p =? q) with false by (symmetry; apply Z.eqb_neq; intros ->; auto).
    simpl. unfold isDirty, DIRTY_INT32_INDEX.
    rewrite <- (i32_get_agree (fun j => 24 + 4 * maskWord q <= j < 28 + 4 * maskWord q) (buf bs));
      [reflexivity| |intros j Hj; lia].
    apply setDirty_agree. intros j Hj. lia.
Qed.

(** The bytes a property write may change: the dirty word of the
    property and its slot. *)
Lemma setTyped_frame (bs bs1 : BufferStruct) (pd : PropDef) (v : jsval)
    (logs : list logmsg) :
  slot_ok pd ->
  setTyped bs pd v = Ok (bs1, logs) ->
  bs1 = with_buf bs (buf bs1) /\
  agree_on (fun j => (j < 24 + 4 * maskWord (propNum pd) \/ 28 + 4 * maskWord (propNum pd) <= j) /\
                     (j < byteOffset pd \/ propEnd pd <= j)) (buf bs) (buf bs1).
Proof.
  intros [Hbo Hsz]. unfold propEnd. rewrite Hsz. unfold setTyped.
  destruct (type pd) eqn:Ht, v as [|x|x|x]; try discriminate;
    destruct (getProp bs pd) as [cur|e]; cbn [bind]; try discriminate;
    intros H; destruct (jsStrictEq _ cur);
    try (inversion H; subst; split; [destruct bs1; reflexivity|apply agree_on_refl]);
    simpl in Hbo.
  - destruct (MAX_STRING_SIZE <? Z.of_nat (length x)) eqn:Hm; cbv beta iota zeta in H;
      inversion H; subst; cbn [buf with_buf]; (split; [reflexivity|]);
      (apply agree_on_trans with (buf (setDirty bs (propNum pd))); [apply setDirty_agree; intros j Hj; lia|]);
      (eapply agree_on_trans;
       [|apply u16_write_chars_frame; intros j Hj; rewrite ?length_firstn; cbv beta in Hj;
         unfold MAX_STRING_SIZE in *;
         first [apply Z.ltb_lt in Hm | apply Z.ltb_ge in Hm]; lia];
       apply u16_set_agree; intros j Hj; cbn [propAlign] in Hj; lia).
  - inversion H; subst; cbn [buf with_buf]. split; [reflexivity|].
    apply agree_on_trans with (buf (setDirty bs (propNum pd))); [apply setDirty_agree; intros j Hj; lia|].
    apply f64_set_agree. intros j Hj. cbn [propAlign] in Hj. lia.
  - inversion H; subst; cbn [buf with_buf]. split; [reflexivity|].
    apply agree_on_trans with (buf (setDirty bs (propNum pd))); [apply setDirty_agree; intros j Hj; lia|].
    apply i32_set_agree. intros j Hj. cbn [propAlign] in Hj. lia.
  - inversion H; subst; cbn [buf with_buf]. split; [reflexivity|].
    apply agree_on_trans with (buf (setDirty bs (propNum pd))); [apply setDirty_agree; intros j Hj; lia|].
    apply i32_set_agree. intros j Hj. cbn [propAlign] in Hj. lia.
Qed.

Lemma write_frame_refl (pd : PropDef) (bs : BufferStruct) : write_frame pd bs bs.
Proof. split; [destruct bs; reflexivity|]. split; [apply agree_on_refl|auto]. Qed.

Lemma write_frame_trans (pd : PropDef) (bs1 bs2 bs3 : BufferStruct) :
  write_frame pd bs1 bs2 -> write_frame pd bs2 bs3 -> write_frame pd bs1 bs3.
Proof.
  intros (E1 & A1 & B1) (E2 & A2 & B2). split; [|split].
  - rewrite E2, E1. reflexivity.
  - eapply agree_on_trans; eauto.
  - intros q Hq Hne. destruct (B1 q Hq Hne), (B2 q Hq Hne). split; congruence.
Qed.

Lemma write_frame_setDirty (pd : PropDef) (bs : BufferStruct) :
  0 <= propNum pd < 64 -> 40 <= byteLength (buf bs) ->
  write_frame pd bs (setDirty bs (propNum pd)).
Proof.
  intros Hp Hl. pose proof (maskWord_range (propNum pd) ltac:(lia)).
  assert (maskWord (propNum pd) < 2) by (unfold maskWord in *; Z.div_mod_to_equations; lia).
  split; [reflexivity|split].
  - apply setDirty_agree. intros j Hj. lia.
  - intros q Hq Hne. split.
    + apply (isUndefined_agree (fun j => 32 <= j < 40)).
      * apply agree_on_sym, setDirty_agree. intros j Hj. lia.
      * pose proof (maskWord_range q ltac:(lia)).
        assert (maskWord q < 2) by (unfold maskWord in *; Z.div_mod_to_equations; lia).
        intros j Hj. lia.
    + rewrite isDirty_setDirty_gen by lia.
      replace (propNum pd =? q) with false by (symmetry; apply Z.eqb_neq; auto). reflexivity.
Qed.

Lemma write_frame_setUndefined (pd : PropDef) (bs : BufferStruct) (v : bool) :
  0 <= propNum pd < 64 -> 40 <= byteLength (buf bs) ->
  write_frame pd bs (setUndefined bs (propNum pd) v).
Proof.
  intros Hp Hl. pose proof (maskWord_range (propNum pd) ltac:(lia)).
  assert (maskWord (propNum pd) < 2) by (unfold maskWord in *; Z.div_mod_to_equations; lia).
  split; [reflexivity|split].
  - apply setUndefined_agree. intros j Hj. lia.
  - intros q Hq Hne. split.
    + rewrite isUndefined_setUndefined by lia.
      replace (propNum pd =? q) with false by (symmetry; apply Z.eqb_neq; auto). reflexivity.
    + apply isDirty_setUndefined; lia.
Qed.

Lemma write_frame_setTyped (pd : PropDef) (bs bs1 : BufferStruct) (v : jsval)
    (logs : list logmsg) :
  slot_ok pd -> 40 <= byteOffset pd -> 0 <= propNum pd < 64 -> 40 <= byteLength (buf bs) ->
  setTyped bs pd v = Ok (bs1, logs) -> write_frame pd bs bs1.
Proof.
  intros Hs Hbo Hp Hl Hset.
  destruct (setTyped_frame _ _ _ _ _ Hs Hset) as [E A].
  pose proof (maskWord_range (propNum pd) ltac:(lia)).
  assert (maskWord (propNum pd) < 2) by (unfold maskWord in *; Z.div_mod_to_equations; lia).
  destruct (setTyped_cases _ _ _ _ _ (proj1 Hs) Hset) as (cur & _ & Hc).
  destruct (jsStrictEq v cur).
  { destruct Hc as [-> _]. apply write_frame_refl. }
  destruct Hc as [A' _].
  split; [exact E|split].
  - eapply agree_on_weaken; [|exact A]. intros j Hj. cbv beta. lia.
  - intros q Hq Hne.
    pose proof (maskWord_range q ltac:(lia)).
    assert (maskWord q < 2) by (unfold maskWord in *; Z.div_mod_to_equations; lia).
    destruct (write_frame_setDirty pd bs Hp Hl) as (_ & _ & B).
    destruct (B q Hq Hne) as [B1 B2].
    split.
    + rewrite <- B1. symmetry. apply (isUndefined_agree (fun j => j < byteOffset pd)); [exact A'|].
      intros j Hj. lia.
    + rewrite <- B2. symmetry. unfold isDirty, DIRTY_INT32_INDEX.
      rewrite (i32_get_agree (fun j => j < byteOffset pd) _ _ _ A'); [reflexivity|].
      intros j Hj. lia.
Qed.

Lemma write_frame_setProp (pd : PropDef) (bs bs1 : BufferStruct) (v : jsval)
    (logs : list logmsg) :
  slot_ok pd -> 40 <= byteOffset pd -> 0 <= propNum pd < 64 -> 40 <= byteLength (buf bs) ->
  setProp bs pd v = Ok (bs1, logs) -> write_frame pd bs bs1.
Proof.
  intros Hs Hbo Hp Hl Hset. unfold setProp in Hset.
  destruct (allowUndefined pd); [|exact (write_frame_setTyped _ _ _ _ _ Hs Hbo Hp Hl Hset)].
  cbv zeta in Hset.
  assert (Hu : forall v', write_frame pd bs (setUndefined (setDirty bs (propNum pd)) (propNum pd) v')).
  { intros v'. eapply write_frame_trans; [apply write_frame_setDirty; auto|].
    apply write_frame_setUndefined; [auto|rewrite byteLength_setDirty; auto]. }
  destruct (isUndefined bs (propNum pd)).
  - destruct v; [inversion Hset; subst; apply write_frame_refl|..];
      (eapply write_frame_trans; [apply (Hu false)|]);
      (eapply write_frame_setTyped; [exact Hs|exact Hbo|exact Hp| |exact Hset]);
      rewrite byteLength_setUndefined, byteLength_setDirty; exact Hl.
  - destruct v; [inversion Hset; subst; apply Hu|..];
      exact (write_frame_setTyped _ _ _ _ _ Hs Hbo Hp Hl Hset).
Qed.

Lemma layout_slot_ok (cls : StructClass) (i : nat) (pd : PropDef) :
  layout_inv cls -> cls_propDefs cls !! i = Some pd -> slot_ok pd.
Proof.
  intros Hli Hpd. destruct (li_prop _ Hli i pd Hpd) as (_ & _ & H1 & H2 & _). split; auto.
Qed.

Lemma toInt32_id (x : Z) : -2 ^ 31 <= x < 2 ^ 31 -> toInt32 x = x.
Proof.
  intros Hx. destruct (Z.le_gt_cases 0 x); [apply toInt32_small; lia|].
  unfold toInt32. rewrite <- (Z.mod_unique x (2 ^ 32) (-1) (x + 2 ^ 32)) by lia.
  replace (x + 2 ^ 32 <? 2 ^ 31) with false by (symmetry; apply Z.ltb_ge; lia). lia.
Qed.

Lemma f64_toInt32_int (n : Z) :
  -2 ^ 31 <= n < 2 ^ 31 -> f64_toInt32 (int_to_f64bits n) = n.
Proof.
  intros Hn. unfold int_to_f64bits.
  destruct (Z.eqb_spec n 0) as [->|Hn0]; [reflexivity|].
  set (s := if n <? 0 then 1 else 0).
  set (a := Z.abs n). set (k := Z.log2 a).
  assert (Ha : 0 < a <= 2 ^ 31) by (unfold a; lia).
  assert (Hk : 0 <= k <= 31).
  { unfold k. split; [apply Z.log2_nonneg|].
    rewrite <- (Z.log2_pow2 31) by lia. apply Z.log2_le_mono. lia. }
  destruct (Z.log2_spec a ltac:(lia)) as [Hk1 Hk2]. fold k in Hk1, Hk2.
  rewrite Z.pow_succ_r in Hk2 by lia.
  set (P := 2 ^ (52 - k)).
  assert (HP : 2 ^ k * P = 2 ^ 52).
  { unfold P. rewrite <- Z.pow_add_r by lia. f_equal. lia. }
  assert (HP0 : 0 < P) by (unfold P; apply Z.pow_pos_nonneg; lia).
  assert (Hs : s = 0 \/ s = 1) by (unfold s; destruct (n <? 0); auto).
  set (f := (a - 2 ^ k) * P).
  assert (Hf : 0 <= f < 2 ^ 52) by (unfold f; nia).
  set (bits := s * 2 ^ 63 + (1023 + k) * 2 ^ 52 + f).
  assert (Hd52 : bits / 2 ^ 52 = s * 2 ^ 11 + (1023 + k)).
  { symmetry. apply (Z.div_unique _ _ _ f); [lia|]. unfold bits.
    change (2 ^ 63) with (2 ^ 11 * 2 ^ 52). ring. }
  assert (He : f64_exp bits = 1023 + k).
  { unfold f64_exp. rewrite Hd52.
    replace (s * 2 ^ 11 + (1023 + k)) with ((1023 + k) + s * 2 ^ 11) by ring.
    rewrite Z.mod_add by lia. apply Z.mod_small. lia. }
  assert (Hfr : f64_frac bits = f).
  { unfold f64_frac, bits. rewrite <- Z.add_mod_idemp_l by lia.
    replace ((s * 2 ^ 63 + (1023 + k) * 2 ^ 52) mod 2 ^ 52) with 0.
    - rewrite Z.add_0_l. apply Z.mod_small. lia.
    - symmetry. apply Z.mod_divide; [lia|].
      exists (s * 2 ^ 11 + 1023 + k). change (2 ^ 63) with (2 ^ 11 * 2 ^ 52). ring. }
  assert (Hsg : (bits / 2 ^ 63) mod 2 = s).
  { replace (bits / 2 ^ 63) with s.
    - apply Z.mod_small. lia.
    - apply (Z.div_unique _ _ _ ((1023 + k) * 2 ^ 52 + f)); [|unfold bits; ring].
      change (2 ^ 63) with (2048 * 2 ^ 52) in *. lia. }
  unfold f64_toInt32. fold bits. rewrite He, Hfr, Hsg.
  replace (1023 + k =? 2047) with false by (symmetry; apply Z.eqb_neq; lia).
  replace (1023 + k =? 0) with false by (symmetry; apply Z.eqb_neq; lia).
  replace (1075 <=? 1023 + k) with false by (symmetry; apply Z.leb_gt; lia).
  replace (1075 - (1023 + k)) with (52 - k) by lia. fold P.
  replace ((2 ^ 52 + f) / P) with a.
  2:{ apply (Z.div_unique _ _ _ 0); [lia|]. unfold f. rewrite <- HP. ring. }
  unfold s, a. destruct (Z.ltb_spec n 0).
  - rewrite Z.eqb_refl. rewrite toInt32_id by lia. lia.
  - simpl. rewrite toInt32_small by lia. lia.
Qed.

Lemma f64_toInt32_zero (b : Z) : f64_isZero b = true -> f64_toInt32 b = 0.
Proof.
  unfold f64_isZero. intros Hz. apply Z.eqb_eq in Hz.
  apply Z.mod_divide in Hz as [t Ht]; [|lia].
  assert (He : f64_exp b = 0).
  { unfold f64_exp. rewrite Ht. change (2 ^ 63) with (2 ^ 11 * 2 ^ 52).
    rewrite Z.mul_assoc, Z.div_mul by lia. apply Z.mod_mul. lia. }
  unfold f64_toInt32. rewrite He. simpl.
  destruct ((b / 2 ^ 63) mod 2 =? 1); reflexivity.
Qed.

Lemma f64_eqb_int (x n : Z) :
  -2 ^ 31 <= n < 2 ^ 31 -> f64_eqb x (int_to_f64bits n) = true -> f64_toInt32 x = n.
Proof.
  intros Hn Heq. unfold f64_eqb in Heq.
  apply andb_prop in Heq as [_ Heq]. apply orb_prop in Heq as [Heq|Heq].
  - apply Z.eqb_eq in Heq. subst x. apply f64_toInt32_int. exact Hn.
  - apply andb_prop in Heq as [Hx Hb].
    rewrite f64_toInt32_zero by exact Hx.
    rewrite <- (f64_toInt32_int n Hn). symmetry. apply f64_toInt32_zero. exact Hb.
Qed.

Lemma f64_toInt32_range (x : Z) : -2 ^ 31 <= f64_toInt32 x < 2 ^ 31.
Proof.
  unfold f64_toInt32. destruct (f64_exp x =? 2047); [lia|]. apply toInt32_range.
Qed.

Lemma f64_get_set_same (b : buffer) (i x : Z) :
  in_view b 8 i = true -> f64_get (f64_set b i x) i = Some (x mod 2 ^ 64).
Proof.
  intros Hv. unfold f64_get, f64_set. rewrite Hv.
  replace (in_view (store_le b (8 * i) 8 x) 8 i) with true by (symmetry; exact Hv).
  rewrite load_store_same. reflexivity.
Qed.

(** A write of a non-undefined value goes through [setTyped], on the struct
    with the undefined flag of the property cleared if it was set. *)
Lemma setProp_typed_path (bs bs1 : BufferStruct) (pd : PropDef) (v : jsval)
    (logs : list logmsg) :
  0 <= propNum pd < 64 -> 40 <= byteLength (buf bs) -> v <> JUndef ->
  setProp bs pd v = Ok (bs1, logs) ->
  exists bs0, setTyped bs0 pd v = Ok (bs1, logs) /\
    (allowUndefined pd && isUndefined bs0 (propNum pd)) = false /\
    byteLength (buf bs0) = byteLength (buf bs) /\
    (0 <= byteOffset pd -> 40 <= byteOffset pd -> slot_ok pd ->
     agree_on (fun j => byteOffset pd <= j) (buf bs) (buf bs0)).
Proof.
  intros Hp Hl Hv Hset. pose proof (maskWord_range (propNum pd) ltac:(lia)).
  assert (maskWord (propNum pd) < 2) by (unfold maskWord in *; Z.div_mod_to_equations; lia).
  unfold setProp in Hset. destruct (allowUndefined pd) eqn:Hu.
  - cbv zeta in Hset. destruct (isUndefined bs (propNum pd)) eqn:HisU.
    + exists (setUndefined (setDirty bs (propNum pd)) (propNum pd) false).
      split; [destruct v; [contradiction|exact Hset..]|].
      split; [|split].
      * rewrite isUndefined_setUndefined, Z.eqb_refl by (rewrite ?byteLength_setDirty; lia).
        reflexivity.
      * rewrite byteLength_setUndefined, byteLength_setDirty. reflexivity.
      * intros _ Hbo _. apply agree_on_trans with (buf (setDirty bs (propNum pd))).
        -- apply setDirty_agree. intros j Hj. lia.
        -- apply setUndefined_agree. intros j Hj. lia.
    + exists bs. split; [destruct v; [contradiction|exact Hset..]|].
      split; [rewrite HisU; reflexivity|]. split; [reflexivity|]. intros; apply agree_on_refl.
  - exists bs. split; [exact Hset|]. split; [reflexivity|]. split; [reflexivity|].
    intros; apply agree_on_refl.
Qed.

Lemma isUndefined_after_slot_write (bs : BufferStruct) (pd : PropDef) (b : buffer) :
  0 <= propNum pd < 64 -> 40 <= byteOffset pd ->
  agree_on (fun j => j < byteOffset pd) (buf (setDirty bs (propNum pd))) b ->
  isUndefined (with_buf (setDirty bs (propNum pd)) b) (propNum pd) = isUndefined bs (propNum pd).
Proof.
  intros Hp Hbo Ha. pose proof (maskWord_range (propNum pd) ltac:(lia)).
  assert (maskWord (propNum pd) < 2) by (unfold maskWord in *; Z.div_mod_to_equations; lia).
  transitivity (isUndefined (setDirty bs (propNum pd)) (propNum pd)).
  - symmetry. apply (isUndefined_agree (fun j => j < byteOffset pd)); [exact Ha|].
    intros j Hj. lia.
  - symmetry. apply (isUndefined_agree (fun j => 32 <= j < 40)); [|intros j Hj; lia].
    apply setDirty_agree. intros j Hj. lia.
Qed.

Lemma setTyped_number_get (bs bs1 : BufferStruct) (pd : PropDef) (x : Z)
    (logs : list logmsg) :
  type pd = PNumber -> slot_ok pd -> 40 <= byteOffset pd ->
  propEnd pd <= byteLength (buf bs) -> 0 <= propNum pd < 64 ->
  (allowUndefined pd && isUndefined bs (propNum pd)) = false ->
  0 <= x < 2 ^ 64 -> setTyped bs pd (JNum x) = Ok (bs1, logs) ->
  logs = [] /\
  exists y, getProp bs1 pd = Ok (JNum y) /\ (y = x \/ f64_isZero x && f64_isZero y = true).
Proof.
  intros Ht [Hal Hsz] Hbo Hend Hp HU Hx Hset.
  rewrite Ht in Hal, Hsz. simpl in Hal, Hsz. unfold propEnd in Hend.
  assert (Hv : in_view (buf bs) 8 (offset pd) = true) by (apply in_view_intro; lia).
  assert (Hcur : getProp bs pd = Ok (JNum (load_le (buf bs) (8 * offset pd) 8))).
  { unfold getProp. rewrite HU, Ht. unfold f64_get. rewrite Hv. reflexivity. }
  unfold setTyped in Hset. rewrite Ht, Hcur in Hset. cbn [bind] in Hset.
  set (y := load_le (buf bs) (8 * offset pd) 8) in *.
  destruct (jsStrictEq (JNum x) (JNum y)) eqn:He.
  - inversion Hset; subst. split; [reflexivity|]. exists y. split; [exact Hcur|].
    simpl in He. unfold f64_eqb in He. apply andb_prop in He as [_ He].
    apply orb_prop in He as [He|He]; [left; symmetry; apply Z.eqb_eq; exact He|right; exact He].
  - inversion Hset; subst. split; [reflexivity|]. exists x. split; [|left; reflexivity].
    unfold getProp. cbn [buf with_buf].
    rewrite isUndefined_after_slot_write; [|exact Hp|exact Hbo|].
    + rewrite HU, Ht. rewrite f64_get_set_same.
      * rewrite Z.mod_small by exact Hx. reflexivity.
      * apply in_view_intro; rewrite ?byteLength_i32_set; lia.
    + apply f64_set_agree. intros j Hj. lia.
Qed.

Lemma setTyped_int32_get (bs bs1 : BufferStruct) (pd : PropDef) (x : Z)
    (logs : list logmsg) :
  type pd = PInt32 -> slot_ok pd -> 40 <= byteOffset pd ->
  propEnd pd <= byteLength (buf bs) -> 0 <= propNum pd < 64 ->
  (allowUndefined pd && isUndefined bs (propNum pd)) = false ->
  setTyped bs pd (JNum x) = Ok (bs1, logs) ->
  logs = [] /\ getProp bs1 pd = Ok (JNum (int_to_f64bits (f64_toInt32 x))).
Proof.
  intros Ht [Hal Hsz] Hbo Hend Hp HU Hset.
  rewrite Ht in Hal, Hsz. simpl in Hal, Hsz. unfold propEnd in Hend.
  assert (Hv : in_view (buf bs) 4 (offset pd) = true) by (apply in_view_intro; lia).
  assert (Hcur : getProp bs pd =
    Ok (JNum (int_to_f64bits (toInt32 (load_le (buf bs) (4 * offset pd) 4))))).
  { unfold getProp. rewrite HU, Ht. unfold i32_get. rewrite Hv. reflexivity. }
  unfold setTyped in Hset. rewrite Ht, Hcur in Hset. cbn [bind] in Hset.
  set (n := toInt32 (load_le (buf bs) (4 * offset pd) 4)) in *.
  destruct (jsStrictEq (JNum x) (JNum (int_to_f64bits n))) eqn:He.
  - inversion Hset; subst. split; [reflexivity|].
    simpl in He. rewrite (f64_eqb_int x n) by (auto; apply toInt32_range). exact Hcur.
  - inversion Hset; subst. split; [reflexivity|].
    unfold getProp. cbn [buf with_buf].
    rewrite isUndefined_after_slot_write; [|exact Hp|exact Hbo|].
    + rewrite HU, Ht. rewrite i32_get_set_same.
      * rewrite toInt32_id by apply f64_toInt32_range. reflexivity.
      * apply in_view_intro; rewrite ?byteLength_i32_set; lia.
    + apply i32_set_agree. intros j Hj. lia.
Qed.

Lemma setTyped_boolean_get (bs bs1 : BufferStruct) (pd : PropDef) (x : bool)
    (logs : list logmsg) :
  type pd = PBoolean -> slot_ok pd -> 40 <= byteOffset pd ->
  propEnd pd <= byteLength (buf bs) -> 0 <= propNum pd < 64 ->
  (allowUndefined pd && isUndefined bs (propNum pd)) = false ->
  setTyped bs pd (JBool x) = Ok (bs1, logs) ->
  logs = [] /\ getProp bs1 pd = Ok (JBool x).
Proof.
  intros Ht [Hal Hsz] Hbo Hend Hp HU Hset.
  rewrite Ht in Hal, Hsz. simpl in Hal, Hsz. unfold propEnd in Hend.
  assert (Hv : in_view (buf bs) 4 (offset pd) = true) by (apply in_view_intro; lia).
  assert (Hcur : getProp bs pd = Ok (JBool (truthy_i32 (i32_get (buf bs) (offset pd))))).
  { unfold getProp. rewrite HU, Ht. reflexivity. }
  unfold setTyped in Hset. rewrite Ht, Hcur in Hset. cbn [bind] in Hset.
  destruct (jsStrictEq (JBool x) (JBool (truthy_i32 (i32_get (buf bs) (offset pd))))) eqn:He.
  - inversion Hset; subst. split; [reflexivity|].
    simpl in He. apply Bool.eqb_prop in He. rewrite He. exact Hcur.
  - inversion Hset; subst. split; [reflexivity|].
    unfold getProp. cbn [buf with_buf].
    rewrite isUndefined_after_slot_write; [|exact Hp|exact Hbo|].
    + rewrite HU, Ht. rewrite i32_get_set_same.
      * destruct x; reflexivity.
      * apply in_view_intro; rewrite ?byteLength_i32_set; lia.
    + apply i32_set_agree. intros j Hj. lia.
Qed.

Ltac prop_facts Hb Hpd :=
  let Hli := fresh "Hli" in
  pose proof (built_class_layout_inv _ Hb) as Hli;
  pose proof (layout_slot_ok _ _ _ Hli Hpd);
  pose proof (li_size_min _ Hli);
  destruct (li_prop _ Hli _ _ Hpd) as (? & ? & _ & _ & ?).

(** X2: on a struct of a built class whose buffer covers the class size,
    after a successful assignment of a float64 bit pattern [x] to a number
    property among the first 64, nothing is logged and the property reads a number:
    [x] itself, or a zero when [x] is a zero (the [===] check treats +0
    and -0 as equal and keeps the stored zero). *)
Theorem number_prop_set_get (bs : BufferStruct) (i : nat) (pd : PropDef) (x : Z)
    (bs1 : BufferStruct) (logs : list logmsg) :
  built_class (bs_class bs) -> cls_size (bs_class bs) <= byteLength (buf bs) ->
  cls_propDefs (bs_class bs) !! i = Some pd -> (i < 64)%nat -> type pd = PNumber ->
  0 <= x < 2 ^ 64 ->
  setProp bs pd (JNum x) = Ok (bs1, logs) ->
  logs = [] /\
  exists y, getProp bs1 pd = Ok (JNum y) /\ (y = x \/ f64_isZero x && f64_isZero y = true).
Proof.
  intros Hb Hcov Hpd Hi Ht Hx Hset. prop_facts Hb Hpd.
  destruct (setProp_typed_path bs bs1 pd (JNum x) logs ltac:(lia) ltac:(lia)
              ltac:(discriminate) Hset) as (bs0 & Hs0 & HU & Hl0 & _).
  apply (setTyped_number_get bs0); auto; lia.
Qed.

(** X3: on a struct of a built class whose buffer covers the class size,
    after a successful assignment of a number [x] to an int32 property
    among the first 64, nothing is logged and the property reads [ToInt32(x)] back
    as a number. *)
Theorem int32_prop_set_get (bs : BufferStruct) (i : nat) (pd : PropDef) (x : Z)
    (bs1 : BufferStruct) (logs : list logmsg) :
  built_class (bs_class bs) -> cls_size (bs_class bs) <= byteLength (buf bs) ->
  cls_propDefs (bs_class bs) !! i = Some pd -> (i < 64)%nat -> type pd = PInt32 ->
  setProp bs pd (JNum x) = Ok (bs1, logs) ->
  logs = [] /\ getProp bs1 pd = Ok (JNum (int_to_f64bits (f64_toInt32 x))).
Proof.
  intros Hb Hcov Hpd Hi Ht Hset. prop_facts Hb Hpd.
  destruct (setProp_typed_path bs bs1 pd (JNum x) logs ltac:(lia) ltac:(lia)
              ltac:(discriminate) Hset) as (bs0 & Hs0 & HU & Hl0 & _).
  apply (setTyped_int32_get bs0); auto; lia.
Qed.

(** X4: on a struct of a built class whose buffer covers the class size,
    after a successful assignment of a boolean to a boolean property among
    the first 64, nothing is logged and the property reads that boolean. *)
Theorem boolean_prop_set_get (bs : BufferStruct) (i : nat) (pd : PropDef) (x : bool)
    (bs1 : BufferStruct) (logs : list logmsg) :
  built_class (bs_class bs) -> cls_size (bs_class bs) <= byteLength (buf bs) ->
  cls_propDefs (bs_class bs) !! i = Some pd -> (i < 64)%nat -> type pd = PBoolean ->
  setProp bs pd (JBool x) = Ok (bs1, logs) ->
  logs = [] /\ getProp bs1 pd = Ok (JBool x).
Proof.
  intros Hb Hcov Hpd Hi Ht Hset. prop_facts Hb Hpd.
  destruct (setProp_typed_path bs bs1 pd (JBool x) logs ltac:(lia) ltac:(lia)
              ltac:(discriminate) Hset) as (bs0 & Hs0 & HU & Hl0 & _).
  apply (setTyped_boolean_get bs0); auto; lia.
Qed.

(** X5: on a struct of a built class whose buffer covers the class size,
    assigning [undefined] to a nullable property among the first 64 logs nothing and the
    property then reads [undefined]; if it already was undefined the
    struct is unchanged, otherwise the property is marked dirty. *)
Theorem undefined_prop_set_get (bs : BufferStruct) (i : nat) (pd : PropDef)
    (bs1 : BufferStruct) (logs : list logmsg) :
  built_class (bs_class bs) -> cls_size (bs_class bs) <= byteLength (buf bs) ->
  cls_propDefs (bs_class bs) !! i = Some pd -> (i < 64)%nat -> allowUndefined pd = true ->
  setProp bs pd JUndef = Ok (bs1, logs) ->
  logs = [] /\ getProp bs1 pd = Ok JUndef /\
  (isUndefined bs (propNum pd) = true -> bs1 = bs) /\
  (isUndefined bs (propNum pd) = false -> isDirty bs1 (Some (propNum pd)) = true).
Proof.
  intros Hb Hcov Hpd Hi Hu Hset. prop_facts Hb Hpd.
  unfold setProp in Hset. rewrite Hu in Hset. cbv zeta in Hset.
  destruct (isUndefined bs (propNum pd)) eqn:HisU.
  - inversion Hset; subst. split; [reflexivity|]. split; [|split; [auto|discriminate]].
    unfold getProp. rewrite Hu, HisU. reflexivity.
  - inversion Hset; subst. split; [reflexivity|]. split; [|split; [discriminate|]].
    + unfold getProp. rewrite Hu. rewrite isUndefined_setUndefined by (rewrite ?byteLength_setDirty; lia).
      rewrite Z.eqb_refl. reflexivity.
    + intros _. rewrite (proj1 (isDirty_setUndefined _ (propNum pd) (propNum pd) true ltac:(lia) ltac:(lia))).
      apply isDirty_setDirty; lia.
Qed.

Lemma load_le_newBuffer (n pos : Z) (k : nat) : load_le (newBuffer n) pos k = 0.
Proof. revert pos. induction k as [|k IH]; intros pos; simpl; [reflexivity|]. rewrite IH. reflexivity. Qed.

Lemma construct_fresh_shape (cls cls' : StructClass) (u l : Z) (bs : BufferStruct) :
  construct cls None u l = Ok (cls', bs) ->
  ensureStatic cls = Ok cls' /\
  bs = fold_left undef_init (cls_propDefs cls')
         (mkBufferStruct cls'
            (f64_set (i32_set (newBuffer (((cls_size cls' + 7) / 8) * 8))
                        TYPEID_INT32_INDEX (cls_typeId cls'))
               ID_FLOAT64_INDEX (int_to_f64bits u)) l).
Proof.
  unfold construct. destruct (ensureStatic cls) as [c|e]; simpl; [|discriminate].
  set (n := (cls_size c + 7) / 8).
  assert (E2 : (n * 8) mod 2 = 0) by (Z.div_mod_to_equations; lia).
  assert (E4 : (n * 8) mod 4 = 0) by (Z.div_mod_to_equations; lia).
  rewrite E2, E4, Z_mod_mult. simpl. intros H. injection H as <- <-. split; reflexivity.
Qed.

Lemma fold_undef_init (ps : list PropDef) (bs : BufferStruct) :
  40 <= byteLength (buf bs) -> Forall (fun pd => 0 <= propNum pd < 64) ps ->
  fold_left undef_init ps bs = with_buf bs (buf (fold_left undef_init ps bs)) /\
  agree_on (fun j => j < 32 \/ 40 <= j) (buf bs) (buf (fold_left undef_init ps bs)) /\
  forall q, 0 <= q < 64 ->
    isUndefined (fold_left undef_init ps bs) q =
    isUndefined bs q || existsb (fun pd => allowUndefined pd && (propNum pd =? q)) ps.
Proof.
  revert bs. induction ps as [|pd ps IH]; intros bs Hl Hps; simpl.
  - split; [destruct bs; reflexivity|]. split; [apply agree_on_refl|].
    intros q _. rewrite orb_false_r. reflexivity.
  - inversion Hps as [|? ? Hp Hps']; subst.
    assert (Hl1 : 40 <= byteLength (buf (undef_init bs pd))).
    { unfold undef_init. destruct (allowUndefined pd); [rewrite byteLength_setUndefined|]; lia. }
    destruct (IH (undef_init bs pd) Hl1 Hps') as (H1 & H2 & H3).
    assert (Hw : undef_init bs pd = with_buf bs (buf (undef_init bs pd))).
    { unfold undef_init. destruct (allowUndefined pd); [reflexivity|destruct bs; reflexivity]. }
    assert (Ha : agree_on (fun j => j < 32 \/ 40 <= j) (buf bs) (buf (undef_init bs pd))).
    { unfold undef_init. destruct (allowUndefined pd); [|apply agree_on_refl].
      apply setUndefined_agree. pose proof (maskWord_range (propNum pd) ltac:(lia)).
      assert (maskWord (propNum pd) < 2) by (unfold maskWord in *; Z.div_mod_to_equations; lia).
      intros j Hj. lia. }
    split; [|split].
    + rewrite H1 at 1. rewrite Hw at 1. reflexivity.
    + exact (agree_on_trans _ _ _ _ Ha H2).
    + intros q Hq. rewrite H3 by exact Hq. unfold undef_init.
      destruct (allowUndefined pd); simpl.
      * rewrite isUndefined_setUndefined by lia.
        destruct (propNum pd =? q); simpl; [rewrite orb_true_r; reflexivity|reflexivity].
      * reflexivity.
Qed.

Lemma fold_undef_init_header (ps : list PropDef) (bs : BufferStruct) :
  Forall (fun pd => 0 <= propNum pd) ps ->
  fold_left undef_init ps bs = with_buf bs (buf (fold_left undef_init ps bs)) /\
  agree_on (fun j => j < 32) (buf bs) (buf (fold_left undef_init ps bs)).
Proof.
  revert bs. induction ps as [|pd ps IH]; intros bs Hps; simpl.
  - split; [destruct bs; reflexivity|apply agree_on_refl].
  - inversion Hps as [|? ? Hp Hps']; subst.
    destruct (IH (undef_init bs pd) Hps') as (H1 & H2).
    assert (Hw : undef_init bs pd = with_buf bs (buf (undef_init bs pd))).
    { unfold undef_init. destruct (allowUndefined pd); [reflexivity|destruct bs; reflexivity]. }
    assert (Ha : agree_on (fun j => j < 32) (buf bs) (buf (undef_init bs pd))).
    { unfold undef_init. destruct (allowUndefined pd); [|apply agree_on_refl].
      apply setUndefined_agree. pose proof (maskWord_range (propNum pd) Hp).
      intros j Hj. lia. }
    split.
    + rewrite H1 at 1. rewrite Hw at 1. reflexivity.
    + exact (agree_on_trans _ _ _ _ Ha H2).
Qed.

Lemma ensureStatic_static (cls cls' : StructClass) :
  static_ok cls -> ensureStatic cls = Ok cls' ->
  cls_staticInitialized cls' = true /\
  stringifyTypeId (cls_typeId cls') <> unknownTypeIdStr /\
  cls_typeId cls' = cls_typeId cls.
Proof.
  unfold static_ok, ensureStatic, initStatic. intros Hok.
  destruct (cls_staticInitialized cls) eqn:Hi.
  - intros H. inversion H; subst. auto.
  - case_bool_decide as Hc; intros H; inversion H; subst; simpl. auto.
Qed.

Lemma structProp_static (ty : StructPropType) (u : bool) (key : string)
    (cls cls' : StructClass) :
  static_ok cls -> structProp ty u key cls = Ok cls' -> static_ok cls'.
Proof.
  intros Hok. unfold structProp.
  destruct (ensureStatic cls) as [c|e] eqn:Hes; simpl; [|discriminate].
  destruct (ensureStatic_static _ _ Hok Hes) as (Hi & Hv & _).
  destruct ty; simpl; intros H; inversion H; subst; intros _; exact Hv.
Qed.

Lemma declareProps_static (decls : list PropDecl) (cls cls' : StructClass) :
  static_ok cls -> declareProps decls cls = Ok cls' -> static_ok cls'.
Proof.
  revert cls. induction decls as [|d ds IH]; intros cls Hok H; simpl in H.
  - inversion H; subst; exact Hok.
  - destruct (structProp _ _ _ cls) as [c|e] eqn:Hs; simpl in H; [|discriminate].
    exact (IH c (structProp_static _ _ _ _ _ Hok Hs) H).
Qed.

Lemma built_class_static (cls : StructClass) : built_class cls -> static_ok cls.
Proof.
  induction 1 as [|tid parent decls cls Hb IH Hd].
  - unfold static_ok. simpl. discriminate.
  - apply (declareProps_static decls (subclass tid parent)); [|exact Hd].
    unfold static_ok. simpl. discriminate.
Qed.

Lemma stringify_valid_byte0 (E : Z) :
  stringifyTypeId E <> unknownTypeIdStr -> isValidTypeIdCharCode (E mod 256) = true.
Proof.
  unfold stringifyTypeId. cbn [stringifyTypeId_loop]. rewrite <- js_and_255.
  destruct (isValidTypeIdCharCode (js_and E 255)) eqn:Hv; [auto|].
  rewrite orb_true_r. simpl. intros H. contradiction.
Qed.

Lemma static_typeId_nonzero (tid : Z) :
  stringifyTypeId tid <> unknownTypeIdStr -> toInt32 tid <> 0.
Proof.
  intros H. apply stringify_valid_byte0, validChar_bounds in H.
  intros H0. rewrite <- (toInt32_mod tid 256) in H by (try lia; exists (2 ^ 24); reflexivity).
  rewrite H0, Zmod_0_l in H. lia.
Qed.

Lemma i32_get_newBuffer (n i : Z) :
  in_view (newBuffer n) 4 i = true -> i32_get (newBuffer n) i = Some 0.
Proof. intros Hv. unfold i32_get. rewrite Hv, load_le_newBuffer. reflexivity. Qed.

Lemma int_to_f64bits_range (n : Z) :
  - 2 ^ 53 < n < 2 ^ 53 -> 0 <= int_to_f64bits n < 2 ^ 64.
Proof.
  intros Hn. unfold int_to_f64bits.
  destruct (Z.eqb_spec n 0) as [->|Hz]; [lia|].
  set (a := Z.abs n). assert (Ha : 0 < a < 2 ^ 53) by (unfold a; lia).
  set (k := Z.log2 a).
  assert (Hk : 0 <= k <= 52).
  { split; [apply Z.log2_nonneg|].
    assert (Z.log2 a < 53); [|unfold k; lia].
    apply Z.log2_lt_pow2; lia. }
  assert (Hb : 2 ^ k <= a < 2 ^ (k + 1)) by (apply Z.log2_spec; lia).
  rewrite Z.pow_add_r in Hb by lia.
  assert (Hp : 2 ^ k * 2 ^ (52 - k) = 2 ^ 52) by (rewrite <- Z.pow_add_r by lia; f_equal; lia).
  assert (0 < 2 ^ (52 - k)) by (apply Z.pow_pos_nonneg; lia).
  assert (0 <= (a - 2 ^ k) * 2 ^ (52 - k) < 2 ^ 52) by nia.
  destruct (n <? 0); lia.
Qed.

(** The header words written by the constructor over a fresh buffer. *)
Lemma fresh_header_agree (n t x : Z) :
  agree_on (fun j => 4 <= j < 16 \/ 24 <= j) (newBuffer n)
    (f64_set (i32_set (newBuffer n) TYPEID_INT32_INDEX t) ID_FLOAT64_INDEX x).
Proof.
  apply agree_on_trans with (i32_set (newBuffer n) TYPEID_INT32_INDEX t).
  - apply i32_set_agree. unfold TYPEID_INT32_INDEX. intros j Hj. lia.
  - apply f64_set_agree. unfold ID_FLOAT64_INDEX. intros j Hj. lia.
Qed.

Lemma construct_fresh_layout (cls cls' : StructClass) (u l : Z) (bs : BufferStruct) :
  built_class cls -> construct cls None u l = Ok (cls', bs) ->
  layout_inv cls' /\ cls_propDefs cls' = cls_propDefs cls /\
  cls_size cls' <= ((cls_size cls' + 7) / 8) * 8 /\
  (((cls_size cls' + 7) / 8) * 8) mod 8 = 0.
Proof.
  intros Hb Hc. destruct (construct_fresh_shape _ _ _ _ _ Hc) as [Hs _].
  destruct (ensureStatic_layout _ _ Hs) as [Hsz Hp].
  pose proof (layout_inv_transfer _ _ Hsz Hp (built_class_layout_inv _ Hb)) as Hli.
  split; [exact Hli|]. split; [exact Hp|].
  split; [Z.div_mod_to_equations; lia|apply Z_mod_mult].
Qed.

Lemma propNums_nonneg (cls : StructClass) :
  layout_inv cls -> Forall (fun pd => 0 <= propNum pd) (cls_propDefs cls).
Proof.
  intros Hli. apply Forall_lookup_2. intros i pd Hpd.
  destruct (li_prop _ Hli _ _ Hpd) as (H1 & _). lia.
Qed.

Lemma propNums_small (cls : StructClass) :
  layout_inv cls -> (length (cls_propDefs cls) <= 64)%nat ->
  Forall (fun pd => 0 <= propNum pd < 64) (cls_propDefs cls).
Proof.
  intros Hli Hlen. apply Forall_lookup_2. intros i pd Hpd.
  pose proof (lookup_lt_Some _ _ _ Hpd).
  destruct (li_prop _ Hli _ _ Hpd) as (H1 & _). lia.
Qed.

Lemma existsb_undef_prop (cls : StructClass) (i : nat) (pd : PropDef) :
  layout_inv cls -> cls_propDefs cls !! i = Some pd ->
  existsb (fun q => allowUndefined q && (propNum q =? propNum pd)) (cls_propDefs cls)
  = allowUndefined pd.
Proof.
  intros Hli Hpd. destruct (li_prop _ Hli _ _ Hpd) as (Hn & _).
  destruct (allowUndefined pd) eqn:Hu.
  - apply existsb_exists. exists pd. split.
    + apply list_elem_of_In. eapply list_elem_of_lookup_2. exact Hpd.
    + rewrite Hu, Z.eqb_refl. reflexivity.
  - apply not_true_is_false. intros H. apply existsb_exists in H as [q [Hin Hq]].
    apply list_elem_of_In, list_elem_of_lookup in Hin as [j Hj].
    destruct (li_prop _ Hli _ _ Hj) as (Hnq & _).
    apply andb_true_iff in Hq as [Hq1 Hq2]. apply Z.eqb_eq in Hq2.
    assert (j = i) by lia. subst j. rewrite Hj in Hpd. injection Hpd as ->. congruence.
Qed.

(** X6: a struct constructed without a buffer reads every property at
    its default: [undefined] for a nullable property, otherwise the empty
    string, [false] or 0 by type. *)
Theorem construct_fresh_defaults (cls cls' : StructClass) (u l : Z) (bs : BufferStruct)
    (i : nat) (pd : PropDef) :
  built_class cls -> (length (cls_propDefs cls) <= 64)%nat ->
  construct cls None u l = Ok (cls', bs) ->
  cls_propDefs cls' !! i = Some pd ->
  getProp bs pd =
    Ok (if allowUndefined pd then JUndef
        else match type pd with
             | PString => JStr []
             | PBoolean => JBool false
             | PNumber | PInt32 => JNum 0
             end).
Proof.
  intros Hb Hlen Hc Hpd.
  destruct (construct_fresh_layout _ _ _ _ _ Hb Hc) as (Hli & Hp & HN & _).
  destruct (construct_fresh_shape _ _ _ _ _ Hc) as [_ ->].
  rewrite <- Hp in Hlen.
  set (N := ((cls_size cls' + 7) / 8) * 8) in *.
  set (b0 := f64_set (i32_set (newBuffer N) TYPEID_INT32_INDEX (cls_typeId cls'))
               ID_FLOAT64_INDEX (int_to_f64bits u)).
  set (bs0 := mkBufferStruct cls' b0 l).
  pose proof (li_size_min _ Hli) as Hmin.
  assert (Hl0 : byteLength (buf bs0) = N).
  { simpl. unfold b0, f64_set, i32_set.
    destruct (in_view _ 4 _); destruct (in_view _ 8 _); reflexivity. }
  destruct (fold_undef_init (cls_propDefs cls') bs0 ltac:(lia) (propNums_small _ Hli Hlen))
    as (_ & Hag & HU).
  pose proof (fresh_header_agree N (cls_typeId cls') (int_to_f64bits u)) as Hnew.
  fold b0 in Hnew.
  destruct (li_prop _ Hli _ _ Hpd) as (Hn & Hbo & Hal & Hsz & Hend).
  pose proof (lookup_lt_Some _ _ _ Hpd) as Hi.
  assert (HU0 : isUndefined bs0 (propNum pd) = false).
  { rewrite <- (isUndefined_agree _ (mkBufferStruct cls' (newBuffer N) l) bs0 (propNum pd) Hnew).
    - unfold isUndefined. simpl. rewrite i32_get_newBuffer.
      + rewrite Z.land_0_l. reflexivity.
      + pose proof (maskWord_range (propNum pd) ltac:(lia)).
        assert (maskWord (propNum pd) < 2) by (unfold maskWord in *; Z.div_mod_to_equations; lia).
        apply in_view_intro; simpl; unfold UNDEFINED_INT32_INDEX; lia.
    - pose proof (maskWord_range (propNum pd) ltac:(lia)). intros j Hj. lia. }
  destruct (allowUndefined pd) eqn:Hu.
  - unfold getProp. rewrite Hu, HU by lia. rewrite HU0.
    rewrite (existsb_undef_prop _ _ _ Hli Hpd), Hu. reflexivity.
  - assert (Hslot : slot_ok pd) by (split; auto).
    rewrite (getProp_agree _ (mkBufferStruct cls' (newBuffer N) l) pd Hslot).
    + unfold getProp. rewrite Hu. simpl. unfold propEnd in Hend.
      destruct (type pd); simpl in Hal, Hsz.
      * unfold u16_get. rewrite in_view_intro by (simpl; lia).
        rewrite load_le_newBuffer. reflexivity.
      * unfold f64_get. rewrite in_view_intro by (simpl; lia).
        rewrite load_le_newBuffer. reflexivity.
      * rewrite i32_get_newBuffer by (apply in_view_intro; simpl; lia). reflexivity.
      * rewrite i32_get_newBuffer by (apply in_view_intro; simpl; lia). reflexivity.
    + apply agree_on_sym. apply agree_on_trans with b0.
      * eapply agree_on_weaken; [|exact Hnew]. intros j Hj. cbv beta in *. lia.
      * eapply agree_on_weaken; [|exact Hag]. intros j Hj. cbv beta in *. lia.
    + intros H. congruence.
Qed.

Lemma construct_fresh_words (cls cls' : StructClass) (u l : Z) (bs : BufferStruct) :
  built_class cls -> construct cls None u l = Ok (cls', bs) ->
  bs_class bs = cls' /\ lockId bs = l /\
  byteLength (buf bs) = ((cls_size cls' + 7) / 8) * 8 /\
  i32_get (buf bs) TYPEID_INT32_INDEX = Some (toInt32 (cls_typeId cls')) /\
  f64_get (buf bs) ID_FLOAT64_INDEX = Some (int_to_f64bits u mod 2 ^ 64) /\
  (forall k, 1 <= k < 4 \/ 6 <= k < 8 -> i32_get (buf bs) k = Some 0).
Proof.
  intros Hb Hc.
  destruct (construct_fresh_layout _ _ _ _ _ Hb Hc) as (Hli & Hp & HN & _).
  destruct (construct_fresh_shape _ _ _ _ _ Hc) as [_ ->].
  set (N := ((cls_size cls' + 7) / 8) * 8) in *.
  pose proof (li_size_min _ Hli) as Hmin.
  set (b1 := i32_set (newBuffer N) TYPEID_INT32_INDEX (cls_typeId cls')).
  set (b0 := f64_set b1 ID_FLOAT64_INDEX (int_to_f64bits u)).
  set (bs0 := mkBufferStruct cls' b0 l).
  assert (Hl1 : byteLength b1 = N) by apply byteLength_i32_set.
  assert (Hl0 : byteLength b0 = N).
  { unfold b0, f64_set. destruct (in_view _ 8 _); [exact Hl1|exact Hl1]. }
  destruct (fold_undef_init_header (cls_propDefs cls') bs0 (propNums_nonneg _ Hli))
    as (Hw & Hag).
  rewrite Hw. simpl bs_class. simpl lockId. simpl buf.
  pose proof (fresh_header_agree N (cls_typeId cls') (int_to_f64bits u)) as Hnew.
  fold b1 b0 in Hnew. simpl buf in Hag.
  split; [reflexivity|]. split; [reflexivity|].
  split; [destruct Hag as [<- _]; exact Hl0|].
  split; [|split].
  - rewrite <- (i32_get_agree _ _ _ _ Hag) by (intros j Hj; unfold TYPEID_INT32_INDEX in Hj; lia).
    unfold b0. rewrite <- (i32_get_agree (fun j => j < 16) b1 _ 0).
    + apply i32_get_set_same. apply in_view_intro; simpl; lia.
    + apply f64_set_agree. unfold ID_FLOAT64_INDEX. intros j Hj. lia.
    + intros j Hj. lia.
  - rewrite <- (f64_get_agree _ _ _ _ Hag) by (intros j Hj; unfold ID_FLOAT64_INDEX in Hj; lia).
    apply f64_get_set_same. apply in_view_intro; [unfold ID_FLOAT64_INDEX; lia|].
    rewrite Hl1. unfold ID_FLOAT64_INDEX. lia.
  - intros k Hk.
    rewrite <- (i32_get_agree _ _ _ _ Hag) by (intros j Hj; lia).
    rewrite <- (i32_get_agree _ _ _ _ Hnew) by (intros j Hj; lia).
    apply i32_get_newBuffer. apply in_view_intro; simpl; lia.
Qed.

(** X7: the header of a struct constructed without a buffer: the class
    and lock id given, a buffer at least the class size and a multiple of
    8 bytes, the type id word [ToInt32(typeId)], the id as a float64, a
    notify value of 0, unlocked, and no dirty bit. *)
Theorem construct_fresh_header (cls cls' : StructClass) (u l : Z) (bs : BufferStruct) :
  built_class cls -> - 2 ^ 53 < u < 2 ^ 53 ->
  construct cls None u l = Ok (cls', bs) ->
  bs_class bs = cls' /\ lockId bs = l /\
  cls_size cls' <= byteLength (buf bs) /\ byteLength (buf bs) mod 8 = 0 /\
  typeId_get bs = Some (toInt32 (cls_typeId cls')) /\
  id_get bs = Some (int_to_f64bits u) /\
  notifyValue bs = Ok 0 /\ isLocked bs = Ok false /\ isDirty bs None = false.
Proof.
  intros Hb Hu Hc.
  destruct (construct_fresh_layout _ _ _ _ _ Hb Hc) as (_ & _ & HN & H8).
  destruct (construct_fresh_words _ _ _ _ _ Hb Hc) as (H1 & H2 & H3 & H4 & H5 & H6).
  unfold typeId_get, id_get, notifyValue, isLocked, atomic_load, isDirty.
  rewrite H3, H4, H5, !H6 by (unfold NOTIFY_INT32_INDEX, LOCK_INT32_INDEX, DIRTY_INT32_INDEX; lia).
  rewrite (Z.mod_small (int_to_f64bits u)) by (apply int_to_f64bits_range; exact Hu).
  repeat split; auto.
Qed.

(** X8: [extractTypeId] on the buffer of a struct constructed without a
    buffer gives back the class's type id as an int32, which is not 0. *)
Theorem extractTypeId_fresh (cls cls' : StructClass) (u l : Z) (bs : BufferStruct) :
  built_class cls -> construct cls None u l = Ok (cls', bs) ->
  extractTypeId (buf bs) = toInt32 (cls_typeId cls') /\ toInt32 (cls_typeId cls') <> 0.
Proof.
  intros Hb Hc.
  destruct (construct_fresh_layout _ _ _ _ _ Hb Hc) as (Hli & _ & HN & H8).
  destruct (construct_fresh_words _ _ _ _ _ Hb Hc) as (_ & _ & H3 & H4 & _).
  destruct (construct_fresh_shape _ _ _ _ _ Hc) as [Hs _].
  destruct (ensureStatic_static _ _ (built_class_static _ Hb) Hs) as (_ & Hv & _).
  pose proof (static_typeId_nonzero _ Hv) as Hnz.
  pose proof (li_size_min _ Hli) as Hmin.
  split; [|exact Hnz].
  unfold extractTypeId. rewrite H3, H4, H8. simpl cls_size.
  replace (_ <? 10 * 4) with false by (symmetry; apply Z.ltb_ge; lia).
  simpl. destruct (Z.eqb_spec (toInt32 (cls_typeId cls')) 0); [contradiction|reflexivity].
Qed.

(** X9: re-wrapping the buffer of a freshly constructed struct with the
    same class succeeds exactly when the type id is an int32; otherwise it
    fails with the type id mismatch error. *)
Theorem construct_rewrap_fresh (cls cls' : StructClass) (u l u' l' : Z) (bs : BufferStruct) :
  built_class cls -> construct cls None u l = Ok (cls', bs) ->
  construct cls (Some (buf bs)) u' l' =
    if bool_decide (toInt32 (cls_typeId cls') = cls_typeId cls')
    then Ok (cls', mkBufferStruct cls' (buf bs) l')
    else Err ETypeIdMismatch.
Proof.
  intros Hb Hc.
  destruct (construct_fresh_layout _ _ _ _ _ Hb Hc) as (_ & _ & _ & H8).
  destruct (construct_fresh_words _ _ _ _ _ Hb Hc) as (_ & _ & H3 & H4 & _).
  destruct (construct_fresh_shape _ _ _ _ _ Hc) as [Hs _].
  unfold construct. rewrite Hs. simpl. rewrite H3, H8.
  assert (E2 : (((cls_size cls' + 7) / 8) * 8) mod 2 = 0) by (Z.div_mod_to_equations; lia).
  assert (E4 : (((cls_size cls' + 7) / 8) * 8) mod 4 = 0) by (Z.div_mod_to_equations; lia).
  rewrite E2, E4. simpl. rewrite H4.
  do 2 case_bool_decide; congruence.
Qed.

(** X10: a buffer whose [extractTypeId] equals the (nonzero) type id of the
    initialised class is accepted by the constructor. *)
Theorem extractTypeId_construct (b : buffer) (cls cls' : StructClass) (u l : Z) :
  ensureStatic cls = Ok cls' ->
  extractTypeId b = cls_typeId cls' -> cls_typeId cls' <> 0 ->
  construct cls (Some b) u l = Ok (cls', mkBufferStruct cls' b l).
Proof.
  intros Hs He Hnz. unfold extractTypeId in He.
  destruct ((byteLength b <? cls_size BufferStructBase) || negb (byteLength b mod 8 =? 0))
    eqn:Hc; [congruence|].
  apply orb_false_iff in Hc as [_ H8]. apply negb_false_iff, Z.eqb_eq in H8.
  assert (Hg : i32_get b TYPEID_INT32_INDEX = Some (cls_typeId cls')).
  { destruct (i32_get b TYPEID_INT32_INDEX) as [v|]; [|congruence].
    destruct (v =? 0); simpl in He; congruence. }
  unfold construct. rewrite Hs. simpl.
  assert (E2 : byteLength b mod 2 = 0) by (Z.div_mod_to_equations; lia).
  assert (E4 : byteLength b mod 4 = 0) by (Z.div_mod_to_equations; lia).
  rewrite E2, E4, H8. simpl. rewrite Hg. case_bool_decide; congruence.
Qed.

Lemma genTypeId_loop_ok_valid (cs : jsstring) (i t r : Z) :
  genTypeId_loop cs i t = Ok r -> Forall (fun c => isValidTypeIdCharCode c = true) cs.
Proof.
  revert i t. induction cs as [|c cs IH]; intros i t; simpl; [constructor|].
  destruct (isValidTypeIdCharCode c) eqn:Hc; [|discriminate].
  intros H. constructor; [exact Hc|exact (IH _ _ H)].
Qed.

Lemma tid_enc_lt (cs : jsstring) :
  Forall (fun c => isValidTypeIdCharCode c = true) cs -> cs <> [] ->
  0 < tid_enc cs < 128 * 2 ^ (8 * (Z.of_nat (length cs) - 1)).
Proof.
  induction cs as [|c cs IH]; intros Hv Hne; [congruence|].
  inversion Hv as [|? ? Hc Hcs]; subst. pose proof (validChar_bounds c Hc).
  destruct cs as [|c' cs'].
  - simpl. lia.
  - specialize (IH Hcs ltac:(discriminate)).
    cbn [tid_enc length] in *. rewrite Nat2Z.inj_succ.
    replace (8 * (Z.succ (Z.of_nat (S (length cs'))) - 1))
      with (8 * (Z.of_nat (S (length cs')) - 1) + 8) by lia.
    rewrite Z.pow_add_r by lia. change (2 ^ 8) with 256. lia.
Qed.

(** X11: a type id generated from a tag string is positive, below 2^31,
    and so its own int32 image. *)
Theorem genTypeId_range (T : jsstring) (t : Z) :
  genTypeId T = Ok t -> 0 < t < 2 ^ 31 /\ toInt32 t = t.
Proof.
  unfold genTypeId.
  destruct (Nat.eqb_spec (length T) 0) as [H0|H0]; [discriminate|].
  destruct (Nat.ltb_spec 4 (length T)) as [H4|H4]; [discriminate|].
  intros H. pose proof (genTypeId_loop_ok_valid _ _ _ _ H) as Hv.
  rewrite genTypeId_loop_valid in H by (auto; simpl; lia).
  injection H as <-. simpl. rewrite Z.add_0_l, Z.mul_1_l.
  assert (Hne : T <> []) by (intros ->; simpl in H0; lia).
  pose proof (tid_enc_lt T Hv Hne) as Hb.
  assert (2 ^ (8 * (Z.of_nat (length T) - 1)) <= 2 ^ 24) by (apply Z.pow_le_mono_r; lia).
  assert (Hr : 0 < tid_enc T < 2 ^ 31) by (change (2 ^ 31) with (128 * 2 ^ 24); nia).
  split; [exact Hr|]. apply toInt32_small. lia.
Qed.

(** A write confined to the notify and dirty words keeps the type id, the
    id, the lock word, the undefined flags and every property. *)
Lemma header_write_keeps (bs bs1 : BufferStruct) :
  bs1 = with_buf bs (buf bs1) ->
  agree_on (fun j => j < 4 \/ 8 <= j < 24 \/ 32 <= j) (buf bs) (buf bs1) ->
  built_class (bs_class bs) ->
  bs_class bs1 = bs_class bs /\ lockId bs1 = lockId bs /\
  typeId_get bs1 = typeId_get bs /\ id_get bs1 = id_get bs /\
  isLocked bs1 = isLocked bs /\
  (forall q, 0 <= q -> isUndefined bs1 q = isUndefined bs q) /\
  (forall i pd, cls_propDefs (bs_class bs) !! i = Some pd -> getProp bs1 pd = getProp bs pd).
Proof.
  intros Hw Ha Hb. rewrite Hw. simpl. split; [reflexivity|]. split; [reflexivity|].
  unfold typeId_get, id_get, isLocked, atomic_load.
  assert (HU : forall q, 0 <= q -> isUndefined (with_buf bs (buf bs1)) q = isUndefined bs q).
  { intros q Hq. symmetry. apply (isUndefined_agree _ _ _ q Ha).
    pose proof (maskWord_range q Hq). intros j Hj. lia. }
  split; [symmetry; apply (i32_get_agree _ _ _ _ Ha); unfold TYPEID_INT32_INDEX; intros j Hj; lia|].
  split; [symmetry; apply (f64_get_agree _ _ _ _ Ha); unfold ID_FLOAT64_INDEX; intros j Hj; lia|].
  split; [rewrite <- (i32_get_agree _ _ _ _ Ha); [reflexivity|];
          unfold LOCK_INT32_INDEX; intros j Hj; lia|].
  split; [exact HU|].
  intros i pd Hpd. pose proof (built_class_layout_inv _ Hb) as Hli.
  destruct (li_prop _ Hli _ _ Hpd) as (Hn & Hbo & Hal & Hsz & _).
  symmetry. apply getProp_agree; [split; auto| |].
  - eapply agree_on_weaken; [|exact Ha]. intros j Hj. cbv beta in *. lia.
  - intros _. symmetry. apply HU. lia.
Qed.

(** X12: on a struct of a built class whose buffer covers the class size,
    [notify()] leaves the struct as it is; [notify(v)] stores
    [ToInt32(v)] in the notify word and changes nothing else that a getter,
    a property or a dirty bit among the first 64 shows. *)
Theorem notify_effect (bs : BufferStruct) (v : Z) :
  built_class (bs_class bs) -> cls_size (bs_class bs) <= byteLength (buf bs) ->
  notify bs None = Ok bs /\
  exists bs1, notify bs (Some v) = Ok bs1 /\
    notifyValue bs1 = Ok (toInt32 v) /\
    bs_class bs1 = bs_class bs /\ lockId bs1 = lockId bs /\
    typeId_get bs1 = typeId_get bs /\ id_get bs1 = id_get bs /\
    isLocked bs1 = isLocked bs /\
    isDirty bs1 None = isDirty bs None /\
    (forall q, 0 <= q < 64 -> isDirty bs1 (Some q) = isDirty bs (Some q)) /\
    (forall i pd, cls_propDefs (bs_class bs) !! i = Some pd -> getProp bs1 pd = getProp bs pd).
Proof.
  intros Hb Hcov. pose proof (li_size_min _ (built_class_layout_inv _ Hb)) as Hmin.
  assert (Hv : in_view (buf bs) 4 NOTIFY_INT32_INDEX = true).
  { apply in_view_intro; unfold NOTIFY_INT32_INDEX; lia. }
  split; [unfold notify; simpl; rewrite Hv; reflexivity|].
  set (b := store_le (buf bs) (4 * NOTIFY_INT32_INDEX) 4 v).
  exists (with_buf bs b).
  assert (Hb1 : i32_set (buf bs) NOTIFY_INT32_INDEX v = b) by (unfold i32_set; rewrite Hv; reflexivity).
  assert (Ha : agree_on (fun j => j < 4 \/ 8 <= j) (buf bs) b).
  { rewrite <- Hb1. apply i32_set_agree. unfold NOTIFY_INT32_INDEX. intros j Hj. lia. }
  assert (Hv' : in_view b 4 NOTIFY_INT32_INDEX = true).
  { rewrite <- (in_view_agree _ _ _ _ _ Ha). exact Hv. }
  split; [unfold notify, atomic_store; rewrite Hv; simpl; fold b; rewrite Hv'; reflexivity|].
  split; [unfold notifyValue, atomic_load; simpl; rewrite <- Hb1, i32_get_set_same by exact Hv; reflexivity|].
  destruct (header_write_keeps bs (with_buf bs b) eq_refl) as (H1 & H2 & H3 & H4 & H5 & _ & H7);
    [eapply agree_on_weaken; [|exact Ha]; intros j Hj; cbv beta in *; lia|exact Hb|].
  do 5 (split; [assumption|]).
  destruct (isDirty_agree bs (with_buf bs b) 0) as [_ HN];
    [eapply agree_on_weaken; [|exact Ha]; intros j Hj; cbv beta in *; lia|lia|].
  split; [symmetry; exact HN|]. split; [|exact H7].
  intros q Hq. symmetry. apply (isDirty_agree bs (with_buf bs b) q); [|lia].
  eapply agree_on_weaken; [|exact Ha]. intros j Hj. cbv beta in *. lia.
Qed.

Lemma resetDirty_keeps (bs : BufferStruct) :
  built_class (bs_class bs) -> cls_size (bs_class bs) <= byteLength (buf bs) ->
  notifyValue (resetDirty bs) = Ok 0 /\
  isDirty (resetDirty bs) None = false /\
  (forall q, 0 <= q < 64 -> isDirty (resetDirty bs) (Some q) = false) /\
  bs_class (resetDirty bs) = bs_class bs /\ lockId (resetDirty bs) = lockId bs /\
  typeId_get (resetDirty bs) = typeId_get bs /\ id_get (resetDirty bs) = id_get bs /\
  isLocked (resetDirty bs) = isLocked bs /\
  (forall q, 0 <= q -> isUndefined (resetDirty bs) q = isUndefined bs q) /\
  (forall i pd, cls_propDefs (bs_class bs) !! i = Some pd ->
     getProp (resetDirty bs) pd = getProp bs pd).
Proof.
  intros Hb Hcov. pose proof (li_size_min _ (built_class_layout_inv _ Hb)) as Hmin.
  split.
  { unfold notifyValue, atomic_load, resetDirty. simpl.
    rewrite <- (i32_get_agree (fun j => 4 <= j < 8) (i32_set (buf bs) NOTIFY_INT32_INDEX 0)).
    - rewrite i32_get_set_same; [reflexivity|]. apply in_view_intro; unfold NOTIFY_INT32_INDEX; lia.
    - apply agree_on_trans with (i32_set (i32_set (buf bs) NOTIFY_INT32_INDEX 0) DIRTY_INT32_INDEX 0);
        apply i32_set_agree; unfold DIRTY_INT32_INDEX; intros j Hj; lia.
    - unfold NOTIFY_INT32_INDEX. intros j Hj. lia. }
  split; [apply (resetDirty_clean bs 0); lia|].
  split; [intros q Hq; apply (resetDirty_clean bs q); lia|].
  apply header_write_keeps; [reflexivity| |exact Hb].
  unfold resetDirty. simpl.
  apply agree_on_trans with (i32_set (buf bs) NOTIFY_INT32_INDEX 0);
    [|apply agree_on_trans with (i32_set (i32_set (buf bs) NOTIFY_INT32_INDEX 0) DIRTY_INT32_INDEX 0)];
    apply i32_set_agree; unfold NOTIFY_INT32_INDEX, DIRTY_INT32_INDEX; intros j Hj; lia.
Qed.

(** X13: on a struct of a built class whose buffer covers the class size,
    [resetDirty] clears the notify word, the struct dirty flag and
    the dirty bits of the first 64 properties, and keeps the class, lock
    id, type id, id, lock state, undefined bits and every property value. *)
Theorem resetDirty_effect (bs : BufferStruct) :
  built_class (bs_class bs) -> cls_size (bs_class bs) <= byteLength (buf bs) ->
  notifyValue (resetDirty bs) = Ok 0 /\
  isDirty (resetDirty bs) None = false /\
  (forall q, 0 <= q < 64 -> isDirty (resetDirty bs) (Some q) = false) /\
  bs_class (resetDirty bs) = bs_class bs /\ lockId (resetDirty bs) = lockId bs /\
  typeId_get (resetDirty bs) = typeId_get bs /\ id_get (resetDirty bs) = id_get bs /\
  isLocked (resetDirty bs) = isLocked bs /\
  (forall q, 0 <= q -> isUndefined (resetDirty bs) q = isUndefined bs q) /\
  (forall i pd, cls_propDefs (bs_class bs) !! i = Some pd ->
     getProp (resetDirty bs) pd = getProp bs pd).
Proof. exact (resetDirty_keeps bs). Qed.

Lemma acquire_lock_word (bs : BufferStruct) (sched : list (wait_result * Z))
    (bs1 : BufferStruct) :
  acquire bs sched = Ok (Some bs1) ->
  i32_get (buf bs1) LOCK_INT32_INDEX = Some (toInt32 (lockId bs)) /\
  lockId bs1 = lockId bs /\ bs_class bs1 = bs_class bs.
Proof.
  revert bs. induction sched as [|[w other] sched IH]; intros bs; simpl;
    unfold compareExchange, atomic_load;
    destruct (i32_get (buf bs) LOCK_INT32_INDEX) as [old|] eqn:Hg; simpl; try discriminate;
    destruct (Z.eqb_spec old 0) as [H0|H0]; simpl.
  - unfold atomic_store. destruct (in_view (buf bs) 4 LOCK_INT32_INDEX) eqn:Hv; simpl; [|discriminate].
    rewrite H0, Z.eqb_refl. intros H. injection H as <-. simpl.
    replace (store_le (buf bs) (4 * LOCK_INT32_INDEX) 4 (lockId bs))
      with (i32_set (buf bs) LOCK_INT32_INDEX (lockId bs)) by (unfold i32_set; rewrite Hv; reflexivity).
    rewrite i32_get_set_same by exact Hv. auto.
  - apply Z.eqb_neq in H0. rewrite H0. discriminate.
  - unfold atomic_store. destruct (in_view (buf bs) 4 LOCK_INT32_INDEX) eqn:Hv; simpl; [|discriminate].
    rewrite H0, Z.eqb_refl. intros H. injection H as <-. simpl.
    replace (store_le (buf bs) (4 * LOCK_INT32_INDEX) 4 (lockId bs))
      with (i32_set (buf bs) LOCK_INT32_INDEX (lockId bs)) by (unfold i32_set; rewrite Hv; reflexivity).
    rewrite i32_get_set_same by exact Hv. auto.
  - apply Z.eqb_neq in H0. rewrite H0.
    destruct w; [| |discriminate];
      intros H; destruct (IH _ H) as (A & B & C); simpl in A, B, C; auto.
Qed.

(** X14: after [lock] acquires the struct with lock id [lockId], the lock
    word reads locked iff [ToInt32(lockId)] is nonzero, and a second
    attempt on the same buffer fails its compare-exchange exactly when
    [ToInt32(lockId)] is nonzero. *)
Theorem lock_exclusion (bs : BufferStruct) (sched : list (wait_result * Z))
    (bs1 bs2 : BufferStruct) :
  acquire bs sched = Ok (Some bs1) -> buf bs2 = buf bs1 ->
  isLocked bs1 = Ok (negb (toInt32 (lockId bs) =? 0)) /\
  (acquire bs2 [] = Ok None <-> toInt32 (lockId bs) <> 0).
Proof.
  intros Ha Hb2. destruct (acquire_lock_word _ _ _ Ha) as (Hg & _ & _).
  split; [unfold isLocked, atomic_load; rewrite Hg; reflexivity|].
  destruct bs2 as [c2 b2 l2]. simpl in Hb2. subst b2.
  simpl. unfold compareExchange, atomic_load. simpl. rewrite Hg. simpl.
  destruct (Z.eqb_spec (toInt32 (lockId bs)) 0) as [H0|H0].
  - unfold atomic_store. pose proof (acquire_in_view _ _ _ Ha) as Hv. rewrite Hv. simpl.
    rewrite H0. simpl. split; [discriminate|intros H; exfalso; apply H; reflexivity].
  - simpl. assert (E : (toInt32 (lockId bs) =? 0) = false) by (apply Z.eqb_neq; exact H0).
    rewrite E. split; [intros _; exact H0|reflexivity].
Qed.

Lemma prop_lookup_assign (cp : list (string * jsval)) (k k' : string) (v : jsval) :
  prop_lookup (prop_assign cp k v) k' = if String.eqb k k' then v else prop_lookup cp k'.
Proof.
  induction cp as [|[k0 w] cp IH]; simpl.
  - destruct (String.eqb k k'); reflexivity.
  - destruct (String.eqb_spec k0 k) as [->|Hne]; simpl.
    + destruct (String.eqb k k'); reflexivity.
    + rewrite IH. destruct (String.eqb_spec k0 k') as [->|Hne']; [|reflexivity].
      destruct (String.eqb_spec k k') as [->|]; [congruence|reflexivity].
Qed.

Lemma In_mutation_delete (muts : list string) (k x : string) :
  In x (mutation_delete muts k) <-> In x muts /\ x <> k.
Proof.
  unfold mutation_delete. rewrite filter_In, negb_true_iff, String.eqb_neq. tauto.
Qed.

Lemma processDirty_loop_frame (bs : BufferStruct) (init : bool) (pds : list PropDef)
    (idx : Z) (cp : list (string * jsval)) (muts : list string)
    cp' muts' evs (key : string) :
  processDirty_loop bs init pds idx cp muts = Ok (cp', muts', evs) ->
  (forall pd, In pd pds -> name pd <> key) ->
  prop_lookup cp' key = prop_lookup cp key /\ (In key muts' <-> In key muts).
Proof.
  revert idx cp muts cp' muts' evs.
  induction pds as [|pd pds IH]; intros idx cp muts cp' muts' evs H Hk; cbn [processDirty_loop] in H.
  - inversion H; subst. tauto.
  - assert (Hk' : forall q, In q pds -> name q <> key) by (intros q Hq; apply Hk; right; exact Hq).
    assert (Hne : name pd <> key) by (apply Hk; left; reflexivity).
    destruct (isDirty bs (Some idx)).
    + destruct (getProp bs pd) as [v|e]; cbn [bind] in H; [|discriminate].
      destruct init; cbn [bind] in H.
      * destruct (processDirty_loop _ _ _ _ _ _) as [[[cp1 m1] e1]|e] eqn:Hl; cbn [bind] in H;
          [|discriminate].
        inversion H; subst. destruct (IH _ _ _ _ _ _ Hl Hk') as [H1 H2].
        rewrite H1, prop_lookup_assign, H2, In_mutation_delete.
        apply String.eqb_neq in Hne. rewrite Hne. split; [reflexivity|].
        apply String.eqb_neq in Hne. split; [tauto|]. intros Hin; split; [exact Hin|congruence].
      * destruct (processDirty_loop _ _ _ _ _ _) as [[[cp1 m1] e1]|e] eqn:Hl; cbn [bind] in H;
          [|discriminate].
        inversion H; subst. destruct (IH _ _ _ _ _ _ Hl Hk') as [H1 H2].
        rewrite H1, prop_lookup_assign, H2, In_mutation_delete.
        apply String.eqb_neq in Hne. rewrite Hne. split; [reflexivity|].
        apply String.eqb_neq in Hne. split; [tauto|]. intros Hin; split; [exact Hin|congruence].
    + exact (IH _ _ _ _ _ _ H Hk').
Qed.

Lemma processDirty_loop_sync (bs : BufferStruct) (init : bool) (pds : list PropDef)
    (idx : Z) (cp : list (string * jsval)) (muts : list string) cp' muts' evs
    (j : nat) (pd : PropDef) :
  processDirty_loop bs init pds idx cp muts = Ok (cp', muts', evs) ->
  NoDup (map name pds) -> pds !! j = Some pd ->
  (isDirty bs (Some (idx + Z.of_nat j)) = true ->
     getProp bs pd = Ok (prop_lookup cp' (name pd)) /\ ~ In (name pd) muts') /\
  (isDirty bs (Some (idx + Z.of_nat j)) = false ->
     prop_lookup cp' (name pd) = prop_lookup cp (name pd) /\
     (In (name pd) muts' <-> In (name pd) muts)).
Proof.
  revert idx cp muts cp' muts' evs j.
  induction pds as [|p0 pds IH]; intros idx cp muts cp' muts' evs j H Hnd Hj;
    [rewrite lookup_nil in Hj; discriminate|].
  cbn [processDirty_loop] in H. cbn [map] in Hnd.
  apply NoDup_cons in Hnd as [Hn0 Hnd].
  assert (Hfr : forall q, In q pds -> name q <> name p0).
  { intros q Hq Heq. apply Hn0. apply list_elem_of_In. rewrite <- Heq. apply in_map. exact Hq. }
  destruct j as [|j].
  - simpl in Hj. injection Hj as <-. rewrite Z.add_0_r.
    destruct (isDirty bs (Some idx)) eqn:Hd.
    + split; [|discriminate]. intros _.
      destruct (getProp bs p0) as [v|e] eqn:Hg; cbn [bind] in H; [|discriminate].
      destruct init; cbn [bind] in H;
        (destruct (processDirty_loop _ _ _ _ _ _) as [[[cp1 m1] e1]|e] eqn:Hl; cbn [bind] in H;
          [|discriminate]);
        inversion H; subst; destruct (processDirty_loop_frame _ _ _ _ _ _ _ _ _ _ Hl Hfr) as [H1 H2];
        rewrite H1, prop_lookup_assign, String.eqb_refl, H2, In_mutation_delete; (split; [reflexivity|tauto]).
    + split; [discriminate|]. intros _.
      exact (processDirty_loop_frame _ _ _ _ _ _ _ _ _ _ H Hfr).
  - simpl in Hj. rewrite Nat2Z.inj_succ.
    replace (idx + Z.succ (Z.of_nat j)) with ((idx + 1) + Z.of_nat j) by lia.
    assert (Hne : name pd <> name p0).
    { apply Hfr. apply list_elem_of_In. eapply list_elem_of_lookup_2. exact Hj. }
    assert (Hne' : String.eqb (name p0) (name pd) = false).
    { apply String.eqb_neq. congruence. }
    destruct (isDirty bs (Some idx)).
    + destruct (getProp bs p0) as [v|e] eqn:Hg; cbn [bind] in H; [|discriminate].
      destruct init; cbn [bind] in H.
      all: destruct (processDirty_loop _ _ _ _ _ _) as [[[cp1 m1] e1]|e] eqn:Hl; cbn [bind] in H;
          [|discriminate].
      all: inversion H; subst; destruct (IH _ _ _ _ _ _ _ Hl Hnd Hj) as [H1 H2].
      all: split; [exact H1|]; intros Hd; destruct (H2 Hd) as [H3 H4].
      all: rewrite H3, prop_lookup_assign, Hne', H4, In_mutation_delete.
      all: split; [reflexivity|tauto].
    + exact (IH _ _ _ _ _ _ _ H Hnd Hj).
Qed.

Lemma processDirty_loop_quiet (bs : BufferStruct) (pds : list PropDef)
    (idx : Z) (cp : list (string * jsval)) (muts : list string) cp' muts' evs :
  processDirty_loop bs false pds idx cp muts = Ok (cp', muts', evs) -> evs = [].
Proof.
  revert idx cp muts cp' muts' evs.
  induction pds as [|p0 pds IH]; intros idx cp muts cp' muts' evs H;
    cbn [processDirty_loop] in H; [inversion H; reflexivity|].
  destruct (isDirty bs (Some idx)); [|exact (IH _ _ _ _ _ _ H)].
  destruct (getProp bs p0) as [v|e]; cbn [bind] in H; [|discriminate].
  destruct (processDirty_loop _ _ _ _ _ _) as [[[cp1 m1] e1]|e] eqn:Hl; cbn [bind] in H;
    [|discriminate].
  inversion H; subst. rewrite (IH _ _ _ _ _ _ Hl). reflexivity.
Qed.

(** X15: [processDirtyProperties] (property names distinct) keeps the
    struct with its dirty bits reset, emits no event before the object is
    initialised, copies each dirty property's buffer value into [curProps]
    and drops its pending mutation, and leaves every other key of
    [curProps] and of [mutations] as it was. *)
Theorem processDirtyProperties_sync (so so' : SharedObject) (bs : BufferStruct)
    (ev : list so_event) :
  processDirtyProperties so bs = Ok (so', ev) ->
  NoDup (map name (cls_propDefs (bs_class bs))) ->
  so_struct so' = Some (resetDirty bs) /\
  (initialized so = false -> ev = []) /\
  (forall i pd, cls_propDefs (bs_class bs) !! i = Some pd ->
     (isDirty bs (Some (Z.of_nat i)) = true ->
        getProp bs pd = Ok (prop_lookup (curProps so') (name pd)) /\
        ~ In (name pd) (mutations so')) /\
     (isDirty bs (Some (Z.of_nat i)) = false ->
        prop_lookup (curProps so') (name pd) = prop_lookup (curProps so) (name pd) /\
        (In (name pd) (mutations so') <-> In (name pd) (mutations so)))) /\
  (forall key, ~ In key (map name (cls_propDefs (bs_class bs))) ->
     prop_lookup (curProps so') key = prop_lookup (curProps so) key /\
     (In key (mutations so') <-> In key (mutations so))).
Proof.
  unfold processDirtyProperties.
  destruct (processDirty_loop _ _ _ _ _ _) as [[[cp m] evs]|e] eqn:Hl; cbn [bind];
    [|discriminate].
  intros H Hnd. inversion H; subst so' ev; clear H. simpl.
  split; [reflexivity|]. split.
  { intros Hi. rewrite Hi in Hl. exact (processDirty_loop_quiet _ _ _ _ _ _ _ _ Hl). }
  split.
  - intros i pd Hpd.
    exact (processDirty_loop_sync _ _ _ _ _ _ _ _ _ i pd Hl Hnd Hpd).
  - intros key Hk. apply (processDirty_loop_frame _ _ _ _ _ _ _ _ _ _ Hl).
    intros q Hq Heq. apply Hk. rewrite <- Heq. apply in_map. exact Hq.
Qed.

Lemma setProp_other_props_frame (bs : BufferStruct) (i j : nat) (pi pj : PropDef)
    (v : jsval) (bs1 : BufferStruct) (logs : list logmsg) :
  built_class (bs_class bs) ->
  cls_size (bs_class bs) <= byteLength (buf bs) ->
  cls_propDefs (bs_class bs) !! i = Some pi ->
  cls_propDefs (bs_class bs) !! j = Some pj ->
  i <> j -> (i < 64)%nat -> (j < 64)%nat ->
  setProp bs pi v = Ok (bs1, logs) ->
  getProp bs1 pj = getProp bs pj /\
  isDirty bs1 (Some (propNum pj)) = isDirty bs (Some (propNum pj)).
Proof.
  intros Hb Hcov Hi Hj Hij Hi64 Hj64 Hset.
  pose proof (built_class_layout_inv _ Hb) as Hli.
  destruct (li_prop _ Hli i pi Hi) as (Hpi & Hboi & _ & _ & Hendi).
  destruct (li_prop _ Hli j pj Hj) as (Hpj & Hboj & _ & _ & Hendj).
  pose proof (li_size_min _ Hli) as Hmin.
  destruct (write_frame_setProp pi bs bs1 v logs (layout_slot_ok _ _ _ Hli Hi) ltac:(lia)
              ltac:(lia) ltac:(lia) Hset) as (_ & A & B).
  assert (Hne : propNum pj <> propNum pi) by (rewrite Hpi, Hpj; lia).
  destruct (B (propNum pj) ltac:(lia) Hne) as [B1 B2].
  split; [|exact B2].
  apply getProp_agree; [exact (layout_slot_ok _ _ _ Hli Hj)| |auto].
  apply agree_on_sym. eapply agree_on_weaken; [|exact A].
  intros k Hk. split; [lia|].
  destruct (Nat.lt_total i j) as [Hlt|[Heq|Hgt]].
  - pose proof (li_order _ Hli i j pi pj Hi Hj Hlt). lia.
  - contradiction.
  - pose proof (li_order _ Hli j i pj pi Hj Hi Hgt). unfold propEnd in *. lia.
Qed.

(** X1: assigning one property of a struct of a built class whose buffer
    covers the class size (one of its first 64 properties) leaves the value and the dirty bit of every other
    property among the first 64 as they were. *)
Theorem setProp_other_props_unchanged (bs : BufferStruct) (i j : nat) (pi pj : PropDef)
    (v : jsval) (bs1 : BufferStruct) (logs : list logmsg) :
  built_class (bs_class bs) ->
  cls_size (bs_class bs) <= byteLength (buf bs) ->
  cls_propDefs (bs_class bs) !! i = Some pi ->
  cls_propDefs (bs_class bs) !! j = Some pj ->
  i <> j -> (i < 64)%nat -> (j < 64)%nat ->
  setProp bs pi v = Ok (bs1, logs) ->
  getProp bs1 pj = getProp bs pj /\
  isDirty bs1 (Some (propNum pj)) = isDirty bs (Some (propNum pj)).
Proof. exact (setProp_other_props_frame bs i j pi pj v bs1 logs). Qed.

Lemma findProp_Some (pds : list PropDef) (key : string) (pd : PropDef) :
  findProp pds key = Some pd -> name pd = key /\ exists i, pds !! i = Some pd.
Proof.
  unfold findProp.
  assert (G : forall acc, fold_left (fun acc pd => if String.eqb (name pd) key then Some pd else acc)
                pds acc = Some pd ->
              acc = Some pd \/ (name pd = key /\ exists i, pds !! i = Some pd)).
  { induction pds as [|p0 pds IH]; intros acc H; simpl in H; [left; exact H|].
    destruct (IH _ H) as [Ha|[Hn [i Hi]]].
    - destruct (String.eqb_spec (name p0) key) as [Hk|Hk].
      + injection Ha as ->. right. split; [exact Hk|]. exists 0%nat. reflexivity.
      + left. exact Ha.
    - right. split; [exact Hn|]. exists (S i). exact Hi. }
  intros H. destruct (G None H) as [Ha|Hb]; [discriminate|exact Hb].
Qed.

Lemma setProp_shape (bs bs1 : BufferStruct) (pd : PropDef) (v : jsval) (logs : list logmsg) :
  slot_ok pd -> 40 <= byteOffset pd -> 0 <= propNum pd < 64 -> 40 <= byteLength (buf bs) ->
  setProp bs pd v = Ok (bs1, logs) ->
  bs_class bs1 = bs_class bs /\ byteLength (buf bs1) = byteLength (buf bs).
Proof.
  intros Hs Hbo Hp Hl Hset.
  destruct (write_frame_setProp _ _ _ _ _ Hs Hbo Hp Hl Hset) as (E & [HL _] & _).
  rewrite E. split; [reflexivity|]. simpl. symmetry. exact HL.
Qed.

Lemma flush_loop_untouched (bs : BufferStruct) (cp : list (string * jsval))
    (keys : list string) (bs' : BufferStruct) :
  built_class (bs_class bs) -> cls_size (bs_class bs) <= byteLength (buf bs) ->
  (length (cls_propDefs (bs_class bs)) <= 64)%nat ->
  flush_loop bs cp keys = Ok bs' ->
  bs_class bs' = bs_class bs /\ byteLength (buf bs') = byteLength (buf bs) /\
  forall j pj, cls_propDefs (bs_class bs) !! j = Some pj -> ~ In (name pj) keys ->
    getProp bs' pj = getProp bs pj.
Proof.
  revert bs. induction keys as [|key keys IH]; intros bs Hb Hcov Hlen H; simpl in H.
  - injection H as <-. split; [reflexivity|]. split; [reflexivity|]. auto.
  - pose proof (built_class_layout_inv _ Hb) as Hli. pose proof (li_size_min _ Hli) as Hmin.
    destruct (findProp (cls_propDefs (bs_class bs)) key) as [pd|] eqn:Hf.
    + destruct (findProp_Some _ _ _ Hf) as [Hn [i Hi]].
      pose proof (lookup_lt_Some _ _ _ Hi) as Hil.
      destruct (li_prop _ Hli _ _ Hi) as (Hpi & Hboi & _ & _ & _).
      destruct (getProp bs pd) as [c|e]; cbn [bind] in H; [|discriminate].
      destruct (setProp bs pd (prop_lookup cp key)) as [[bs1 logs]|e] eqn:Hs;
        cbn [bind] in H; [|discriminate].
      destruct (setProp_shape bs bs1 pd _ logs (layout_slot_ok _ _ _ Hli Hi) ltac:(lia) ltac:(lia)
                  ltac:(lia) Hs) as [Hc Hl1].
      destruct (IH bs1 ltac:(rewrite Hc; exact Hb) ltac:(rewrite Hc, Hl1; exact Hcov)
                  ltac:(rewrite Hc; exact Hlen) H) as (Hc' & Hl' & Hg).
      split; [congruence|]. split; [congruence|].
      intros j pj Hj Hk. rewrite Hc in Hg. rewrite (Hg j pj Hj ltac:(intros Hin; apply Hk; right; exact Hin)).
      pose proof (lookup_lt_Some _ _ _ Hj) as Hjl.
      assert (Hij : i <> j).
      { intros ->. rewrite Hi in Hj. injection Hj as ->. apply Hk. left. symmetry. exact Hn. }
      apply (setProp_other_props_frame bs i j pd pj (prop_lookup cp key) bs1 logs); auto; lia.
    + exact (IH bs Hb Hcov Hlen H) ||
      (destruct (IH bs Hb Hcov Hlen H) as (A & B & C); split; [exact A|]; split; [exact B|];
       intros j pj Hj Hk; apply (C j pj Hj); intros Hin; apply Hk; right; exact Hin).
Qed.

Lemma processDirty_loop_muts (bs : BufferStruct) (init : bool) (pds : list PropDef)
    (idx : Z) (cp : list (string * jsval)) (muts : list string) cp' muts' evs :
  processDirty_loop bs init pds idx cp muts = Ok (cp', muts', evs) ->
  forall x, In x muts' -> In x muts.
Proof.
  revert idx cp muts cp' muts' evs.
  induction pds as [|p0 pds IH]; intros idx cp muts cp' muts' evs H;
    cbn [processDirty_loop] in H; [inversion H; subst; auto|].
  destruct (isDirty bs (Some idx)); [|exact (IH _ _ _ _ _ _ H)].
  destruct (getProp bs p0) as [v|e]; cbn [bind] in H; [|discriminate].
  destruct init; cbn [bind] in H.
  all: destruct (processDirty_loop _ _ _ _ _ _) as [[[cp1 m1] e1]|e] eqn:Hl; cbn [bind] in H;
    [|discriminate].
  all: inversion H; subst; intros x Hx; apply (IH _ _ _ _ _ _ Hl), In_mutation_delete in Hx;
    tauto.
Qed.

(** X16: when the struct's class is built, has at most 64 properties and
    the buffer covers its size, a successful mutation cycle (steps a and b of
    [_executeMutations]) empties [mutations], keeps the class, and leaves
    every property with no pending mutation as it read before. *)
Theorem executeMutations_ab_untouched (so so' : SharedObject) (ev : list so_event)
    (bs : BufferStruct) :
  so_struct so = Some bs ->
  built_class (bs_class bs) -> cls_size (bs_class bs) <= byteLength (buf bs) ->
  (length (cls_propDefs (bs_class bs)) <= 64)%nat ->
  executeMutations_ab so = Ok (so', ev) ->
  exists bs', so_struct so' = Some bs' /\ mutations so' = [] /\
    bs_class bs' = bs_class bs /\
    forall j pj, cls_propDefs (bs_class bs) !! j = Some pj ->
      ~ In (name pj) (mutations so) -> getProp bs' pj = getProp bs pj.
Proof.
  intros Hs Hb Hcov Hlen. unfold executeMutations_ab. rewrite Hs.
  destruct (atomic_load (buf bs) NOTIFY_INT32_INDEX) as [nv|e]; cbn [bind]; [|discriminate].
  (* after step (a): a struct [bs0] over the same props, and fewer mutations *)
  assert (Ha : forall so1 ev1,
     (if negb (nv =? so_workerId so) && isDirty bs None
      then processDirtyProperties so bs else Ok (so, [])) = Ok (so1, ev1) ->
     exists bs0, so_struct so1 = Some bs0 /\ bs_class bs0 = bs_class bs /\
       cls_size (bs_class bs) <= byteLength (buf bs0) /\
       (forall x, In x (mutations so1) -> In x (mutations so)) /\
       (forall j pj, cls_propDefs (bs_class bs) !! j = Some pj -> getProp bs0 pj = getProp bs pj)).
  { intros so1 ev1. destruct (negb (nv =? so_workerId so) && isDirty bs None).
    - unfold processDirtyProperties.
      destruct (processDirty_loop _ _ _ _ _ _) as [[[cp m] evs]|e] eqn:Hl; cbn [bind];
        [|discriminate].
      intros H. inversion H; subst; clear H. exists (resetDirty bs). simpl.
      destruct (resetDirty_keeps bs Hb Hcov) as (_ & _ & _ & Hc & _ & _ & _ & _ & _ & Hg).
      split; [reflexivity|]. split; [exact Hc|].
      split; [unfold resetDirty; simpl; rewrite !byteLength_i32_set; exact Hcov|].
      split; [exact (processDirty_loop_muts _ _ _ _ _ _ _ _ _ Hl)|exact Hg].
    - intros H. inversion H; subst. exists bs. repeat split; auto. }
  destruct (if negb (nv =? so_workerId so) && isDirty bs None
            then processDirtyProperties so bs else Ok (so, [])) as [[so1 ev1]|e] eqn:Hp;
    cbn [bind]; [|discriminate].
  destruct (Ha so1 ev1 eq_refl) as (bs0 & Hs0 & Hc0 & Hcov0 & Hm & Hg0).
  rewrite Hs0.
  destruct (flush_loop bs0 (curProps so1) (mutations so1)) as [bs'|e] eqn:Hf; cbn [bind];
    [|discriminate].
  intros H. inversion H; subst; clear H.
  destruct (flush_loop_untouched bs0 _ _ bs' ltac:(rewrite Hc0; exact Hb)
              ltac:(rewrite Hc0; exact Hcov0) ltac:(rewrite Hc0; exact Hlen) Hf)
    as (Hc' & _ & Hg').
  exists bs'. simpl. split; [reflexivity|]. split; [reflexivity|]. split; [congruence|].
  intros j pj Hj Hk. rewrite Hc0 in Hg'.
  rewrite (Hg' j pj Hj ltac:(intros Hin; apply Hk, Hm, Hin)). exact (Hg0 j pj Hj).
Qed.

Lemma so_setProp_facts (so : SharedObject) (key key' : string) (v : jsval) :
  so_getProp (so_setProp so key v) key' =
    (if String.eqb key key' then v else so_getProp so key') /\
  (forall x, In x (mutations (so_setProp so key v)) <-> x = key \/ In x (mutations so)) /\
  (NoDup (mutations so) -> NoDup (mutations (so_setProp so key v))) /\
  so_struct (so_setProp so key v) = so_struct so.
Proof.
  unfold so_getProp, so_setProp, so_set_props. simpl.
  split; [apply prop_lookup_assign|].
  destruct (existsb (String.eqb key) (mutations so)) eqn:He.
  - simpl. apply existsb_exists in He as [k [Hk Hkk]]. apply String.eqb_eq in Hkk. subst k.
    split; [intros x; split; [tauto|intros [->|Hx]; auto]|].
    split; auto.
  - simpl. split; [intros x; rewrite in_app_iff; simpl; split; intros H; intuition subst; auto|].
    split; [|reflexivity]. intros Hnd.
    apply NoDup_app. split; [exact Hnd|]. split; [|apply NoDup_singleton].
    intros x Hx Hx'. apply list_elem_of_singleton in Hx'. subst x.
    apply list_elem_of_In in Hx.
    assert (existsb (String.eqb key) (mutations so) = true) as Ht
      by (apply existsb_exists; exists key; split; [exact Hx|apply String.eqb_refl]).
    congruence.
Qed.

(** X17: the SharedObject property setter updates the key read by the
    getter and nothing else, records the key among the mutations exactly
    once, and does not touch the struct. *)
Theorem so_setProp_get (so : SharedObject) (key key' : string) (v : jsval) :
  so_getProp (so_setProp so key v) key' =
    (if String.eqb key key' then v else so_getProp so key') /\
  (forall x, In x (mutations (so_setProp so key v)) <-> x = key \/ In x (mutations so)) /\
  (NoDup (mutations so) -> NoDup (mutations (so_setProp so key v))) /\
  so_struct (so_setProp so key v) = so_struct so.
Proof. exact (so_setProp_facts so key key' v). Qed.

Lemma flush_loop_app (bs : BufferStruct) (cp : list (string * jsval)) (k1 k2 : list string) :
  flush_loop bs cp (k1 ++ k2) = (let* bs := flush_loop bs cp k1 in flush_loop bs cp k2).
Proof.
  revert bs. induction k1 as [|k k1 IH]; intros bs; simpl; [reflexivity|].
  destruct (findProp _ k) as [pd|]; [|apply IH].
  destruct (getProp bs pd); cbn [bind]; [|reflexivity].
  destruct (setProp bs pd _) as [[bs1 l]|e]; cbn [bind]; [apply IH|reflexivity].
Qed.

(** X18: when the struct's class is built, has at most 64 properties, the
    buffer covers its size, the struct-wide dirty flag is clear and the
    pending mutation keys are distinct, a value set through the
    SharedObject setter on a key naming a struct property reaches the buffer at the next mutation cycle: the property reads what
    the struct's own setter wrote for that value, and no mutation is left. *)
Theorem so_set_flush (so so' : SharedObject) (ev : list so_event) (bs : BufferStruct)
    (key : string) (pd : PropDef) (v : jsval) :
  so_struct so = Some bs ->
  built_class (bs_class bs) -> cls_size (bs_class bs) <= byteLength (buf bs) ->
  (length (cls_propDefs (bs_class bs)) <= 64)%nat ->
  NoDup (mutations so) -> isDirty bs None = false ->
  findProp (cls_propDefs (bs_class bs)) key = Some pd ->
  executeMutations_ab (so_setProp so key v) = Ok (so', ev) ->
  exists bs' bsk bs1 logs,
    so_struct so' = Some bs' /\ mutations so' = [] /\
    bs_class bsk = bs_class bs /\ cls_size (bs_class bs) <= byteLength (buf bsk) /\
    setProp bsk pd v = Ok (bs1, logs) /\ getProp bs' pd = getProp bs1 pd.
Proof.
  intros Hs Hb Hcov Hlen Hnd Hd Hf.
  destruct (findProp_Some _ _ _ Hf) as [Hn [i Hi]].
  destruct (so_setProp_facts so key key v) as (Hget & Hin & Hnd' & Hs').
  unfold so_getProp in Hget. rewrite String.eqb_refl in Hget.
  set (so1 := so_setProp so key v) in *.
  assert (Hsplit : exists pre post, mutations so1 = pre ++ key :: post /\ ~ In key post).
  { assert (Hk : In key (mutations so1)) by (apply Hin; left; reflexivity).
    apply in_split in Hk as (pre & post & Heq). exists pre, post. split; [exact Heq|].
    specialize (Hnd' Hnd). rewrite Heq in Hnd'.
    apply NoDup_app in Hnd' as (_ & _ & Hnd2). apply NoDup_cons in Hnd2 as [Hn2 _].
    intros Hp. apply Hn2. apply list_elem_of_In. exact Hp. }
  destruct Hsplit as (pre & post & Hm & Hpost).
  unfold executeMutations_ab. rewrite Hs'. rewrite Hs.
  destruct (atomic_load (buf bs) NOTIFY_INT32_INDEX) as [nv|e]; cbn [bind]; [|discriminate].
  rewrite Hd, andb_false_r. cbn [bind]. rewrite Hs', Hs.
  rewrite Hm, flush_loop_app.
  destruct (flush_loop bs (curProps so1) pre) as [bsk|e] eqn:Hf1; cbn [bind]; [|discriminate].
  destruct (flush_loop_untouched _ _ _ _ Hb Hcov Hlen Hf1) as (Hck & Hlk & _).
  cbn [flush_loop]. rewrite Hck, Hf.
  destruct (getProp bsk pd) as [c|e]; cbn [bind]; [|discriminate].
  unfold so_getProp in *. rewrite Hget.
  destruct (setProp bsk pd v) as [[bs1 logs]|e] eqn:Hset; cbn [bind]; [|discriminate].
  pose proof (built_class_layout_inv _ Hb) as Hli. pose proof (li_size_min _ Hli).
  pose proof (lookup_lt_Some _ _ _ Hi).
  destruct (li_prop _ Hli _ _ Hi) as (Hpi & Hboi & _ & _ & _).
  destruct (setProp_shape bsk bs1 pd v logs (layout_slot_ok _ _ _ Hli Hi) ltac:(lia)
              ltac:(lia) ltac:(lia) Hset) as [Hc1 Hl1].
  destruct (flush_loop bs1 (curProps so1) post) as [bs'|e] eqn:Hf2; cbn [bind]; [|discriminate].
  intros Hx. inversion Hx; subst so' ev; clear Hx.
  destruct (flush_loop_untouched bs1 _ _ _ ltac:(rewrite Hc1, Hck; exact Hb)
              ltac:(rewrite Hc1, Hck, Hl1, Hlk; exact Hcov)
              ltac:(rewrite Hc1, Hck; exact Hlen) Hf2) as (_ & _ & Hg).
  exists bs', bsk, bs1, logs. simpl. split; [reflexivity|]. split; [reflexivity|].
  split; [exact Hck|]. split; [rewrite Hlk; exact Hcov|]. split; [exact Hset|].
  apply (Hg i pd); [rewrite Hc1, Hck; exact Hi|rewrite Hn; exact Hpost].
Qed.

Lemma example_built : built_class (bs_class example_struct).
Proof. rewrite example_struct_class. apply example_class_built. Qed.
Lemma example_cover : cls_size (bs_class example_struct) <= byteLength (buf example_struct).
Proof. vm_compute. discriminate. Qed.

Lemma setProp_other_props_unchanged_witness : exists bs1 logs,
  setProp example_struct (example_prop 0) (JNum (int_to_f64bits 5)) = Ok (bs1, logs) /\
  getProp bs1 (example_prop 2) = getProp example_struct (example_prop 2) /\
  isDirty bs1 (Some (propNum (example_prop 2))) =
    isDirty example_struct (Some (propNum (example_prop 2))).
Proof.
  destruct (res_ok_check (setProp example_struct (example_prop 0) (JNum (int_to_f64bits 5)))
    (fun _ => true)) as [[bs1 logs] [Es _]]; [vm_compute; reflexivity|].
  exists bs1, logs. split; [exact Es|].
  apply (setProp_other_props_unchanged example_struct 0 2 (example_prop 0) (example_prop 2)
           (JNum (int_to_f64bits 5)) bs1 logs).
  - exact example_built.
  - exact example_cover.
  - vm_compute. reflexivity.
  - vm_compute. reflexivity.
  - discriminate.
  - lia.
  - lia.
  - exact Es.
Defined.

Lemma number_prop_set_get_witness : exists bs1 logs,
  setProp example_struct (example_prop 0) (JNum (int_to_f64bits 5)) = Ok (bs1, logs) /\
  logs = [] /\ exists y, getProp bs1 (example_prop 0) = Ok (JNum y) /\
    (y = int_to_f64bits 5 \/ f64_isZero (int_to_f64bits 5) && f64_isZero y = true).
Proof.
  destruct (res_ok_check (setProp example_struct (example_prop 0) (JNum (int_to_f64bits 5)))
    (fun _ => true)) as [[bs1 logs] [Es _]]; [vm_compute; reflexivity|].
  exists bs1, logs. split; [exact Es|].
  apply (number_prop_set_get example_struct 0 (example_prop 0) (int_to_f64bits 5) bs1 logs).
  - exact example_built.
  - exact example_cover.
  - vm_compute. reflexivity.
  - lia.
  - vm_compute. reflexivity.
  - split; vm_compute; [discriminate|reflexivity].
  - exact Es.
Defined.

Lemma int32_prop_set_get_witness : exists bs1 logs,
  setProp example_struct (example_prop 2) (JNum (int_to_f64bits 7)) = Ok (bs1, logs) /\
  logs = [] /\
  getProp bs1 (example_prop 2) = Ok (JNum (int_to_f64bits (f64_toInt32 (int_to_f64bits 7)))).
Proof.
  destruct (res_ok_check (setProp example_struct (example_prop 2) (JNum (int_to_f64bits 7)))
    (fun _ => true)) as [[bs1 logs] [Es _]]; [vm_compute; reflexivity|].
  exists bs1, logs. split; [exact Es|].
  apply (int32_prop_set_get example_struct 2 (example_prop 2) (int_to_f64bits 7) bs1 logs).
  - exact example_built.
  - exact example_cover.
  - vm_compute. reflexivity.
  - lia.
  - vm_compute. reflexivity.
  - exact Es.
Defined.

Lemma boolean_prop_set_get_witness : exists bs1 logs,
  setProp example_struct (example_prop 3) (JBool true) = Ok (bs1, logs) /\
  logs = [] /\ getProp bs1 (example_prop 3) = Ok (JBool true).
Proof.
  destruct (res_ok_check (setProp example_struct (example_prop 3) (JBool true))
    (fun _ => true)) as [[bs1 logs] [Es _]]; [vm_compute; reflexivity|].
  exists bs1, logs. split; [exact Es|].
  apply (boolean_prop_set_get example_struct 3 (example_prop 3) true bs1 logs).
  - exact example_built.
  - exact example_cover.
  - vm_compute. reflexivity.
  - lia.
  - vm_compute. reflexivity.
  - exact Es.
Defined.

Lemma undefined_prop_set_get_witness : exists bs1 logs,
  setProp example_struct (example_prop 1) JUndef = Ok (bs1, logs) /\
  logs = [] /\ getProp bs1 (example_prop 1) = Ok JUndef /\
  (isUndefined example_struct (propNum (example_prop 1)) = true -> bs1 = example_struct) /\
  (isUndefined example_struct (propNum (example_prop 1)) = false ->
     isDirty bs1 (Some (propNum (example_prop 1))) = true).
Proof.
  destruct (res_ok_check (setProp example_struct (example_prop 1) JUndef)
    (fun _ => true)) as [[bs1 logs] [Es _]]; [vm_compute; reflexivity|].
  exists bs1, logs. split; [exact Es|].
  apply (undefined_prop_set_get example_struct 1 (example_prop 1) bs1 logs).
  - exact example_built.
  - exact example_cover.
  - vm_compute. reflexivity.
  - lia.
  - vm_compute. reflexivity.
  - exact Es.
Defined.

Lemma construct_fresh_defaults_witness : exists cls' bs pd,
  construct example_class None 1 7 = Ok (cls', bs) /\
  cls_propDefs cls' !! 1%nat = Some pd /\
  getProp bs pd =
    Ok (if allowUndefined pd then JUndef
        else match type pd with
             | PString => JStr []
             | PBoolean => JBool false
             | PNumber | PInt32 => JNum 0
             end).
Proof.
  destruct (res_ok_check (construct example_class None 1 7)
    (fun '(c, _) => match cls_propDefs c !! 1%nat with Some _ => true | None => false end))
    as [[cls' bs] [Ec Hp]]; [vm_compute; reflexivity|].
  destruct (cls_propDefs cls' !! 1%nat) as [pd|] eqn:Hl; [|discriminate].
  exists cls', bs, pd. split; [exact Ec|]. split; [exact Hl|].
  apply (construct_fresh_defaults example_class cls' 1 7 bs 1 pd).
  - exact example_class_built.
  - vm_compute. lia.
  - exact Ec.
  - exact Hl.
Defined.

Lemma construct_fresh_header_witness : exists cls' bs,
  construct example_class None 1 7 = Ok (cls', bs) /\
  bs_class bs = cls' /\ lockId bs = 7 /\
  cls_size cls' <= byteLength (buf bs) /\ byteLength (buf bs) mod 8 = 0 /\
  typeId_get bs = Some (toInt32 (cls_typeId cls')) /\
  id_get bs = Some (int_to_f64bits 1) /\
  notifyValue bs = Ok 0 /\ isLocked bs = Ok false /\ isDirty bs None = false.
Proof.
  destruct (res_ok_check (construct example_class None 1 7) (fun _ => true))
    as [[cls' bs] [Ec _]]; [vm_compute; reflexivity|].
  exists cls', bs. split; [exact Ec|].
  apply (construct_fresh_header example_class cls' 1 7 bs).
  - exact example_class_built.
  - split; vm_compute; reflexivity.
  - exact Ec.
Defined.

Lemma extractTypeId_fresh_witness : exists cls' bs,
  construct example_class None 1 7 = Ok (cls', bs) /\
  extractTypeId (buf bs) = toInt32 (cls_typeId cls') /\ toInt32 (cls_typeId cls') <> 0.
Proof.
  destruct (res_ok_check (construct example_class None 1 7) (fun _ => true))
    as [[cls' bs] [Ec _]]; [vm_compute; reflexivity|].
  exists cls', bs. split; [exact Ec|].
  apply (extractTypeId_fresh example_class cls' 1 7 bs).
  - exact example_class_built.
  - exact Ec.
Defined.

Lemma construct_rewrap_fresh_witness : exists cls' bs,
  construct example_class None 1 7 = Ok (cls', bs) /\
  construct example_class (Some (buf bs)) 2 9 =
    if bool_decide (toInt32 (cls_typeId cls') = cls_typeId cls')
    then Ok (cls', mkBufferStruct cls' (buf bs) 9)
    else Err ETypeIdMismatch.
Proof.
  destruct (res_ok_check (construct example_class None 1 7) (fun _ => true))
    as [[cls' bs] [Ec _]]; [vm_compute; reflexivity|].
  exists cls', bs. split; [exact Ec|].
  apply (construct_rewrap_fresh example_class cls' 1 7 2 9 bs).
  - exact example_class_built.
  - exact Ec.
Defined.

Lemma extractTypeId_construct_witness : exists cls',
  ensureStatic example_class = Ok cls' /\
  construct example_class (Some (i32_set (newBuffer 48) 0 1145258561)) 1 7 =
    Ok (cls', mkBufferStruct cls' (i32_set (newBuffer 48) 0 1145258561) 7).
Proof.
  destruct (res_ok_check (ensureStatic example_class)
    (fun c => (extractTypeId (i32_set (newBuffer 48) 0 1145258561) =? cls_typeId c)
              && negb (cls_typeId c =? 0)))
    as [cls' [Es Hc]]; [vm_compute; reflexivity|].
  apply andb_true_iff in Hc as [H1 H2]. apply Z.eqb_eq in H1.
  apply negb_true_iff, Z.eqb_neq in H2.
  exists cls'. split; [exact Es|].
  apply (extractTypeId_construct (i32_set (newBuffer 48) 0 1145258561) example_class cls' 1 7
           Es H1 H2).
Defined.

Lemma genTypeId_range_witness : exists t,
  genTypeId [65; 66; 67; 68] = Ok t /\ 0 < t < 2 ^ 31 /\ toInt32 t = t.
Proof.
  destruct (res_ok_check (genTypeId [65; 66; 67; 68]) (fun _ => true))
    as [t [Eg _]]; [vm_compute; reflexivity|].
  exists t. split; [exact Eg|]. apply (genTypeId_range [65; 66; 67; 68] t Eg).
Defined.

Lemma notify_effect_witness :
  notify example_struct None = Ok example_struct /\
  exists bs1, notify example_struct (Some 5) = Ok bs1 /\
    notifyValue bs1 = Ok (toInt32 5) /\
    bs_class bs1 = bs_class example_struct /\ lockId bs1 = lockId example_struct /\
    typeId_get bs1 = typeId_get example_struct /\ id_get bs1 = id_get example_struct /\
    isLocked bs1 = isLocked example_struct /\
    isDirty bs1 None = isDirty example_struct None /\
    (forall q, 0 <= q < 64 -> isDirty bs1 (Some q) = isDirty example_struct (Some q)) /\
    (forall i pd, cls_propDefs (bs_class example_struct) !! i = Some pd ->
       getProp bs1 pd = getProp example_struct pd).
Proof.
  apply (notify_effect example_struct 5 example_built example_cover).
Defined.

Lemma resetDirty_effect_witness :
  notifyValue (resetDirty own_dirty_struct) = Ok 0 /\
  isDirty (resetDirty own_dirty_struct) None = false /\
  (forall q, 0 <= q < 64 -> isDirty (resetDirty own_dirty_struct) (Some q) = false) /\
  bs_class (resetDirty own_dirty_struct) = bs_class own_dirty_struct /\
  lockId (resetDirty own_dirty_struct) = lockId own_dirty_struct /\
  typeId_get (resetDirty own_dirty_struct) = typeId_get own_dirty_struct /\
  id_get (resetDirty own_dirty_struct) = id_get own_dirty_struct /\
  isLocked (resetDirty own_dirty_struct) = isLocked own_dirty_struct /\
  (forall q, 0 <= q -> isUndefined (resetDirty own_dirty_struct) q = isUndefined own_dirty_struct q) /\
  (forall i pd, cls_propDefs (bs_class own_dirty_struct) !! i = Some pd ->
     getProp (resetDirty own_dirty_struct) pd = getProp own_dirty_struct pd).
Proof.
  apply (resetDirty_effect own_dirty_struct).
  - exact example_built.
  - vm_compute. discriminate.
Defined.

Lemma lock_exclusion_witness : exists bs1,
  acquire example_struct [] = Ok (Some bs1) /\
  isLocked bs1 = Ok (negb (toInt32 (lockId example_struct) =? 0)) /\
  (acquire bs1 [] = Ok None <-> toInt32 (lockId example_struct) <> 0).
Proof.
  destruct (res_ok_check (acquire example_struct [])
    (fun o => match o with Some _ => true | None => false end))
    as [[bs1|] [Ea Hs]]; [vm_compute; reflexivity| |discriminate].
  exists bs1. split; [exact Ea|].
  apply (lock_exclusion example_struct [] bs1 bs1 Ea eq_refl).
Defined.

Lemma processDirtyProperties_sync_witness : exists so' ev,
  processDirtyProperties own_dirty_object own_dirty_struct = Ok (so', ev) /\
  so_struct so' = Some (resetDirty own_dirty_struct) /\
  (initialized own_dirty_object = false -> ev = []) /\
  (forall i pd, cls_propDefs (bs_class own_dirty_struct) !! i = Some pd ->
     (isDirty own_dirty_struct (Some (Z.of_nat i)) = true ->
        getProp own_dirty_struct pd = Ok (prop_lookup (curProps so') (name pd)) /\
        ~ In (name pd) (mutations so')) /\
     (isDirty own_dirty_struct (Some (Z.of_nat i)) = false ->
        prop_lookup (curProps so') (name pd) =
          prop_lookup (curProps own_dirty_object) (name pd) /\
        (In (name pd) (mutations so') <-> In (name pd) (mutations own_dirty_object)))) /\
  (forall key, ~ In key (map name (cls_propDefs (bs_class own_dirty_struct))) ->
     prop_lookup (curProps so') key = prop_lookup (curProps own_dirty_object) key /\
     (In key (mutations so') <-> In key (mutations own_dirty_object))).
Proof.
  destruct (res_ok_check (processDirtyProperties own_dirty_object own_dirty_struct)
    (fun _ => true)) as [[so' ev] [Ep _]]; [vm_compute; reflexivity|].
  exists so', ev. split; [exact Ep|].
  apply (processDirtyProperties_sync own_dirty_object so' own_dirty_struct ev Ep).
  replace (map name (cls_propDefs (bs_class own_dirty_struct))) with ["a"; "s"; "i"; "b"]%string
    by (vm_compute; reflexivity).
  repeat (constructor; [intros Hin; apply list_elem_of_In in Hin; simpl in Hin;
                        intuition discriminate|]).
  constructor.
Defined.

Lemma executeMutations_ab_untouched_witness : exists so' ev bs',
  executeMutations_ab own_dirty_object = Ok (so', ev) /\
  so_struct so' = Some bs' /\ mutations so' = [] /\
  bs_class bs' = bs_class own_dirty_struct /\
  forall j pj, cls_propDefs (bs_class own_dirty_struct) !! j = Some pj ->
    ~ In (name pj) (mutations own_dirty_object) -> getProp bs' pj = getProp own_dirty_struct pj.
Proof.
  destruct (res_ok_check (executeMutations_ab own_dirty_object) (fun _ => true))
    as [[so' ev] [Ee _]]; [vm_compute; reflexivity|].
  destruct (executeMutations_ab_untouched own_dirty_object so' ev own_dirty_struct
              eq_refl example_built ltac:(vm_compute; discriminate)
              ltac:(vm_compute; lia) Ee) as (bs' & H1 & H2 & H3 & H4).
  exists so', ev, bs'. auto.
Defined.

Lemma so_set_flush_witness : exists so' ev bs' bsk bs1 logs,
  executeMutations_ab
    (so_setProp (mkSharedObject (Some example_struct) [] [] false true 3) "b" (JBool true))
    = Ok (so', ev) /\
  so_struct so' = Some bs' /\ mutations so' = [] /\
  bs_class bsk = bs_class example_struct /\
  cls_size (bs_class example_struct) <= byteLength (buf bsk) /\
  setProp bsk (example_prop 3) (JBool true) = Ok (bs1, logs) /\
  getProp bs' (example_prop 3) = getProp bs1 (example_prop 3).
Proof.
  destruct (res_ok_check (executeMutations_ab
    (so_setProp (mkSharedObject (Some example_struct) [] [] false true 3) "b" (JBool true)))
    (fun _ => true)) as [[so' ev] [Ee _]]; [vm_compute; reflexivity|].
  destruct (so_set_flush (mkSharedObject (Some example_struct) [] [] false true 3) so' ev
              example_struct "b" (example_prop 3) (JBool true)
              eq_refl example_built example_cover ltac:(vm_compute; lia)
              ltac:(constructor) ltac:(vm_compute; reflexivity)
              ltac:(vm_compute; reflexivity) Ee)
    as (bs' & bsk & bs1 & logs & H1 & H2 & H3 & H4 & H5 & H6).
  exists so', ev, bs', bsk, bs1, logs. auto 7.
Defined.
